(** * Intelligent Document Auditor: a shallow embedding and its properties

    Part I embeds the Python sources, file by file:

    - [utils/performance_tracker.py]: [PerformanceTracker] with
      [track_time], [get_metric], [get_all_metrics] and [format_time];
      [QueryResult] with [get_source_text];
    - [utils/document_processor.py]: [chunk_text], [validate_pdf],
      [extract_text_from_pdf];
    - [rag_engines/vector_engine.py], [rag_engines/tree_engine.py]:
      [__init__], [build_index], [query], [get_build_time],
      [is_initialized], [get_tree_structure_info];
    - [app.py]: the session state and [main].

    Part II states and proves the properties.

    Python values are modelled as follows.  A [str] is the list of its
    code points; a [float] is an IEEE 754 binary64 number, taken from the
    Standard Library's [SpecFloat] with precision 53 and maximal exponent
    1024; an [int] is a [Z]; a statement that may raise is a computation
    in a state and exception monad whose state holds every object the
    statement can mutate. *)

From Stdlib Require Import ZArith NArith List String Ascii Bool Lia.
From Stdlib Require Import DecimalPos DecimalN.
From Stdlib Require Import SpecFloat PrimFloat FloatOps.
From stdpp Require Import base option list gmap.

Open Scope Z_scope.

(* ===================================================================== *)
(** * Part I. The embedding                                               *)
(* ===================================================================== *)

(* --------------------------------------------------------------------- *)
(** ** Python strings *)
(* --------------------------------------------------------------------- *)

(** A Python [str] is a sequence of Unicode code points. *)
Definition pystr : Type := list N.

(** The [str] spelled by an ASCII literal. *)
Definition py (s : string) : pystr :=
  map N_of_ascii (list_ascii_of_string s).

(** [sep.join(parts)] *)
Fixpoint join (sep : pystr) (parts : list pystr) : pystr :=
  match parts with
  | [] => []
  | [p] => p
  | p :: rest => p ++ sep ++ join sep rest
  end.

(** [bool(s)] for a string: true when it is not empty. *)
Definition truthy {A : Type} (s : list A) : bool :=
  match s with [] => false | _ => true end.

(** [s.startswith(p)] *)
Fixpoint startswith (p s : pystr) : bool :=
  match p, s with
  | [], _ => true
  | _ :: _, [] => false
  | a :: p', b :: s' => N.eqb a b && startswith p' s'
  end.

(** [s.split(sep)] for a non-empty separator: the pieces between the
    occurrences of [sep], found from left to right without overlap.
    [skip] counts the characters of a matched separator that are still to
    be passed over, [cur] is the piece read so far. *)
Fixpoint split_go (sep : pystr) (skip : nat) (cur : pystr) (s : pystr)
  : list pystr :=
  match s with
  | [] => [cur]
  | c :: s' =>
      match skip with
      | S k => split_go sep k cur s'
      | O =>
          if startswith sep s
          then cur :: split_go sep (length sep - 1) [] s'
          else split_go sep 0 (cur ++ [c]) s'
      end
  end.

Definition split (sep s : pystr) : list pystr := split_go sep 0 [] s.

(** [c.isspace()]: the code points Python counts as white space
    (bidirectional type WS, B or S, or category Zs). *)
Definition isspace (c : N) : bool :=
  ((9 <=? c) && (c <=? 13)
   || (28 <=? c) && (c <=? 32)
   || (c =? 133) || (c =? 160) || (c =? 5760)
   || (8192 <=? c) && (c <=? 8202)
   || (c =? 8232) || (c =? 8233) || (c =? 8239) || (c =? 8287)
   || (c =? 12288))%N.

Fixpoint lstrip (s : pystr) : pystr :=
  match s with
  | c :: s' => if isspace c then lstrip s' else s
  | [] => []
  end.

Definition rstrip (s : pystr) : pystr := rev (lstrip (rev s)).

(** [s.strip()] *)
Definition strip (s : pystr) : pystr := rstrip (lstrip s).

(** The decimal digits of a [Decimal.uint], most significant first. *)
Fixpoint uint_digits (u : Decimal.uint) : pystr :=
  match u with
  | Decimal.Nil => []
  | Decimal.D0 u => 48%N :: uint_digits u
  | Decimal.D1 u => 49%N :: uint_digits u
  | Decimal.D2 u => 50%N :: uint_digits u
  | Decimal.D3 u => 51%N :: uint_digits u
  | Decimal.D4 u => 52%N :: uint_digits u
  | Decimal.D5 u => 53%N :: uint_digits u
  | Decimal.D6 u => 54%N :: uint_digits u
  | Decimal.D7 u => 55%N :: uint_digits u
  | Decimal.D8 u => 56%N :: uint_digits u
  | Decimal.D9 u => 57%N :: uint_digits u
  end.

(** [str(n)] for a natural number. *)
Definition dec (n : N) : pystr := uint_digits (N.to_uint n).

(** [str(n)] for an [int]. *)
Definition dec_Z (n : Z) : pystr :=
  match n with
  | Zneg p => 45%N :: dec (Npos p)
  | _ => dec (Z.to_N n)
  end.

(** [s.isdigit()] on ASCII digits, one character. *)
Definition isdigit (c : N) : bool := ((48 <=? c) && (c <=? 57))%N.

(* --------------------------------------------------------------------- *)
(** ** Exceptions and state *)
(* --------------------------------------------------------------------- *)

(** The result of running a statement: a value, or an exception of class
    [Exception] (or a subclass), of which the sources only ever read the
    message [str(e)]. *)
Inductive outcome (A : Type) : Type :=
| Return (a : A)
| Raise (e : pystr).

Arguments Return {A} a.
Arguments Raise {A} e.

(** A statement over the mutable state [S]. *)
Definition M (S A : Type) : Type := S -> outcome A * S.

Definition ret {S A : Type} (a : A) : M S A := fun s => (Return a, s).

Definition raise {S A : Type} (e : pystr) : M S A := fun s => (Raise e, s).

Definition bind {S A B : Type} (m : M S A) (k : A -> M S B) : M S B :=
  fun s =>
    match m s with
    | (Return a, s') => k a s'
    | (Raise e, s') => (Raise e, s')
    end.

(** [try: body  except Exception as e: handler e].  The handler runs in
    the state the body left behind. *)
Definition try_except {S A : Type} (body : M S A) (handler : pystr -> M S A)
  : M S A :=
  fun s =>
    match body s with
    | (Return a, s') => (Return a, s')
    | (Raise e, s') => handler e s'
    end.

Definition get {S : Type} : M S S := fun s => (Return s, s).

Definition modify {S : Type} (f : S -> S) : M S unit :=
  fun s => (Return tt, f s).

(** A call whose result does not depend on the state. *)
Definition lift {S A : Type} (o : outcome A) : M S A := fun s => (o, s).

Declare Scope py_scope.
Delimit Scope py_scope with py_scope.

Notation "x <- m ;; k" := (bind m (fun x => k))
  (at level 100, m at next level, right associativity) : py_scope.
Notation "m ;;; k" := (bind m (fun _ => k))
  (at level 100, right associativity) : py_scope.

(** [for x in xs: body x] *)
Fixpoint for_each {S A : Type} (xs : list A) (body : A -> M S unit)
  : M S unit :=
  match xs with
  | [] => ret tt
  | x :: rest => bind (body x) (fun _ => for_each rest body)
  end.

(* --------------------------------------------------------------------- *)
(** ** Python floats *)
(* --------------------------------------------------------------------- *)

Module Float.

(** binary64: 53 bits of precision, infinities at exponent 1024. *)
Definition prec : Z := FloatOps.prec.
Definition emax : Z := FloatOps.emax.

Definition float : Type := spec_float.

(** The values a Python [float] ranges over. *)
Definition is_float (x : float) : Prop :=
  SpecFloat.valid_binary prec emax x = true.

Definition is_nan (x : float) : bool :=
  match x with S754_nan => true | _ => false end.

Definition is_finite (x : float) : bool :=
  match x with
  | S754_zero _ | S754_finite _ _ _ => true
  | _ => false
  end.

(** The sign bit; a NaN counts as positive. *)
Definition signbit (x : float) : bool :=
  match x with
  | S754_zero s | S754_infinity s | S754_finite s _ _ => s
  | S754_nan => false
  end.

(** A float literal of the source, read the way Python reads it: the
    nearest binary64 number. *)
Definition lit (x : PrimFloat.float) : float := Prim2SF x.

Definition zero : float := S754_zero false.
Definition one : float := Eval vm_compute in lit 1%float.
Definition half : float := Eval vm_compute in lit 0.5%float.
Definition sixty : float := Eval vm_compute in lit 60%float.
Definition thousand : float := Eval vm_compute in lit 1000%float.

Definition add : float -> float -> float := SFadd prec emax.
Definition sub : float -> float -> float := SFsub prec emax.
Definition mul : float -> float -> float := SFmul prec emax.
Definition div : float -> float -> float := SFdiv prec emax.
Definition abs : float -> float := SFabs.
Definition ltb : float -> float -> bool := SFltb.
Definition leb : float -> float -> bool := SFleb.
Definition eqb : float -> float -> bool := SFeqb.

(** C truth value of a double: [x != 0.0] (a NaN is true). *)
Definition nonzero (x : float) : bool := negb (eqb x zero).

(** C [copysign(0.0, y)] *)
Definition zero_like (y : float) : float := S754_zero (signbit y).

(** C [fmod(x, y)]: the remainder of the truncated division, with the
    sign of [x]; it is computed exactly. *)
Definition fmod (x y : float) : float :=
  match x, y with
  | S754_nan, _ | _, S754_nan => S754_nan
  | S754_infinity _, _ => S754_nan
  | _, S754_zero _ => S754_nan
  | _, S754_infinity _ => x
  | S754_zero _, _ => x
  | S754_finite sx mx ex, S754_finite _ my ey =>
      let ez := Z.min ex ey in
      let X := Zpos mx * 2 ^ (ex - ez) in
      let Y := Zpos my * 2 ^ (ey - ez) in
      binary_normalize prec emax (cond_Zopp sx (X mod Y)) ez sx
  end.

(** C [floor(x)] *)
Definition floor (x : float) : float :=
  match x with
  | S754_finite s m e =>
      if 0 <=? e then x
      else binary_normalize prec emax (cond_Zopp s (Zpos m) / 2 ^ (- e)) 0 s
  | _ => x
  end.

(** The integer a finite float truncates to. *)
Definition trunc (x : float) : Z :=
  match x with
  | S754_finite s m e =>
      cond_Zopp s (if 0 <=? e then Zpos m * 2 ^ e else Zpos m / 2 ^ (- e))
  | _ => 0
  end.

(** CPython's [_float_div_mod] for a non-zero divisor: the pair
    [(vx // wx, vx % wx)]. *)
Definition div_mod (vx wx : float) : float * float :=
  let mod0 := fmod vx wx in
  let div0 := div (sub vx mod0) wx in
  let '(md, dv) :=
    if nonzero mod0
    then if xorb (ltb wx zero) (ltb mod0 zero)
         then (add mod0 wx, sub div0 one)
         else (mod0, div0)
    else (zero_like wx, div0) in
  let floordiv :=
    if nonzero dv
    then let fl := floor dv in
         if ltb half (sub dv fl) then add fl one else fl
    else zero_like (div vx wx) in
  (floordiv, md).

End Float.

Abbreviation float := Float.float.

(** [int(x)] for a float [x]. *)
Definition int_of_float (x : float) : outcome Z :=
  match x with
  | S754_nan => Raise (py "cannot convert float NaN to integer")
  | S754_infinity _ => Raise (py "cannot convert float infinity to integer")
  | _ => Return (Float.trunc x)
  end.

(** [v // w] and [v % w] on floats. *)
Definition float_floordiv (v w : float) : outcome float :=
  if Float.eqb w Float.zero
  then Raise (py "float floor division by zero")
  else Return (fst (Float.div_mod v w)).

Definition float_rem (v w : float) : outcome float :=
  if Float.eqb w Float.zero
  then Raise (py "float modulo by zero")
  else Return (snd (Float.div_mod v w)).

(** The [width] least significant decimal digits of [n], most
    significant first. *)
Fixpoint low_digits (width : nat) (n : N) : pystr :=
  match width with
  | O => []
  | S w => low_digits w (n / 10) ++ [(48 + n mod 10)%N]
  end.

(** The integer nearest to [num / den], ties to the even one
    ([0 <= num], [0 < den]). *)
Definition round_half_even (num den : Z) : Z :=
  let q := num / den in
  let r := num mod den in
  match 2 * r ?= den with
  | Lt => q
  | Gt => q + 1
  | Eq => if Z.even q then q else q + 1
  end.

(** [q / 10^d] in fixed notation with [d] places ([0 <= q]): the
    integer part, and after a point the [d] digits of the fraction. *)
Definition fixed_digits (d : nat) (q : Z) : pystr :=
  let p := 10 ^ Z.of_nat d in
  dec (Z.to_N (q / p)) ++
  match d with
  | O => []
  | _ => 46%N :: low_digits d (Z.to_N (q mod p))
  end.

(** [format(x, '.<d>f')]: [x] in fixed notation with [d] decimal places,
    correctly rounded from the exact value of the float, ties to even. *)
Definition format_f (d : nat) (x : float) : pystr :=
  match x with
  | S754_nan => py "nan"
  | S754_infinity s => (if s then py "-inf" else py "inf")
  | S754_zero s => (if s then [45%N] else []) ++ fixed_digits d 0
  | S754_finite s m e =>
      let num := if 0 <=? e then Zpos m * 2 ^ e * 10 ^ Z.of_nat d
                 else Zpos m * 10 ^ Z.of_nat d in
      let den := if 0 <=? e then 1 else 2 ^ (- e) in
      (if s then [45%N] else []) ++ fixed_digits d (round_half_even num den)
  end.

(* --------------------------------------------------------------------- *)
(** ** [utils/performance_tracker.py] *)
(* --------------------------------------------------------------------- *)

(** [PerformanceTracker.format_time] *)
Definition format_time (seconds : float) : outcome pystr :=
  if Float.ltb seconds Float.one then
    Return (format_f 1 (Float.mul seconds Float.thousand) ++ py "ms")
  else if Float.ltb seconds Float.sixty then
    Return (format_f 2 seconds ++ py "s")
  else
    match float_floordiv seconds Float.sixty with
    | Raise e => Raise e
    | Return q =>
        match int_of_float q with
        | Raise e => Raise e
        | Return minutes =>
            match float_rem seconds Float.sixty with
            | Raise e => Raise e
            | Return secs =>
                Return (dec_Z minutes ++ py "m " ++ format_f 1 secs ++ py "s")
            end
        end
    end.

(** A retrieved source node, as [get_source_text] tells them apart: one
    with a [text] attribute, one without it but with a [get_content]
    method (whose result is given), and any other object (whose [str] is
    given). *)
Inductive source_node : Type :=
| NodeWithText (text : pystr)
| NodeWithContent (content : pystr)
| NodeOther (repr : pystr).

(** [QueryResult] *)
Record QueryResult : Type := {
  response : pystr;
  source_nodes : list source_node;
  execution_time : float;
  timestamp : float
}.

Definition node_text (node : source_node) : pystr :=
  match node with
  | NodeWithText text => text
  | NodeWithContent content => content
  | NodeOther repr => repr
  end.

(** The separator of [get_source_text]: a line feed, three hyphens and a
    line feed. *)
Definition source_separator : pystr := [10; 45; 45; 45; 10]%N.

(** [QueryResult.get_source_text] *)
Definition get_source_text (self : QueryResult) : pystr :=
  if negb (truthy (source_nodes self)) then py "No sources retrieved"
  else
    let texts := map node_text (source_nodes self) in
    join source_separator (take 3 texts).

(* --------------------------------------------------------------------- *)
(** ** [utils/document_processor.py] *)
(* --------------------------------------------------------------------- *)

(** One round of the loop of [chunk_text]; the loop state is the pair of
    [chunks] and [current_chunk], [limit] is [chunk_size * 4]. *)
Definition chunk_step (limit : Z) (st : list pystr * pystr) (sentence0 : pystr)
  : list pystr * pystr :=
  let '(chunks, current_chunk) := st in
  let sentence := if truthy sentence0 then sentence0 ++ py ". " else [] in
  if limit <? Z.of_nat (length (current_chunk ++ sentence))
  then ((if truthy current_chunk
         then chunks ++ [strip current_chunk] else chunks),
        sentence)
  else (chunks, current_chunk ++ sentence).

(** [DocumentProcessor.chunk_text] *)
Definition chunk_text (text : pystr) (chunk_size : Z) : list pystr :=
  let sentences := split (py ". ") text in
  let '(chunks, current_chunk) :=
    fold_left (chunk_step (chunk_size * 4)) sentences ([], []) in
  if truthy (strip current_chunk)
  then chunks ++ [strip current_chunk]
  else chunks.

(** What [pypdf.PdfReader] makes of a source: the constructor may raise;
    the [pages] of the reader it returns may raise when they are first
    read; the [extract_text()] of each page may raise. *)
Record PdfReader : Type := {
  pages : outcome (list (outcome pystr))
}.

(** The PDF library, as far as the sources use it: opening the bytes of a
    stream, and opening a path. *)
Record pdf_library : Type := {
  open_bytes : list Byte.byte -> outcome PdfReader;
  open_path : pystr -> outcome PdfReader
}.

(** An uploaded file: an in-memory binary stream ([io.BytesIO], which
    Streamlit's [UploadedFile] extends). *)
Record stream : Type := {
  data : list Byte.byte;
  pos : nat;
  closed : bool
}.

(** [pdf_file.read()] *)
Definition stream_read : M stream (list Byte.byte) :=
  fun f =>
    if closed f then (Raise (py "I/O operation on closed file."), f)
    else (Return (drop (pos f) (data f)),
          {| data := data f; pos := Nat.max (pos f) (length (data f));
             closed := false |}).

(** [pdf_file.seek(offset)] *)
Definition stream_seek (offset : nat) : M stream nat :=
  fun f =>
    if closed f then (Raise (py "I/O operation on closed file."), f)
    else (Return offset,
          {| data := data f; pos := offset; closed := false |}).

(** The argument [pdf_file]: an object with a [read] attribute (the
    stream held in the state), or anything else, which is handed to
    [PdfReader] as a path. *)
Inductive pdf_input : Type :=
| FileObject
| PathLike (path : pystr).

Section DocumentProcessor.

Variable pypdf : pdf_library.

(** [DocumentProcessor.validate_pdf] *)
Definition validate_pdf (pdf_file : pdf_input) : M stream (bool * pystr) :=
  (try_except
     (pdf_reader <-
        match pdf_file with
        | FileObject =>
            (content <- stream_read ;;
             reader <- lift (open_bytes pypdf content) ;;
             stream_seek 0 ;;;
             ret reader)
        | PathLike path => lift (open_path pypdf path)
        end ;;
      pgs <- lift (pages pdf_reader) ;;
      if (length pgs =? 0)%nat
      then ret (false, py "PDF file appears to be empty")
      else ret (true, []))
     (fun e => ret (false, py "Invalid PDF file: " ++ e)))%py_scope.

(** The loop of [extract_text_from_pdf] over the pages. *)
Fixpoint extract_pages (pgs : list (outcome pystr)) (text_content : pystr)
  : outcome pystr :=
  match pgs with
  | [] => Return text_content
  | Return t :: rest => extract_pages rest (text_content ++ t ++ [10%N])
  | Raise e :: _ => Raise e
  end.

(** [DocumentProcessor.extract_text_from_pdf] *)
Definition extract_text_from_pdf (pdf_file : pdf_input) : M stream pystr :=
  (try_except
     (pdf_reader <-
        match pdf_file with
        | FileObject =>
            (content <- stream_read ;; lift (open_bytes pypdf content))
        | PathLike path => lift (open_path pypdf path)
        end ;;
      pgs <- lift (pages pdf_reader) ;;
      text_content <- lift (extract_pages pgs []) ;;
      ret (strip text_content))
     (fun e => raise (py "Error processing PDF: " ++ e)))%py_scope.

End DocumentProcessor.

(* --------------------------------------------------------------------- *)
(** ** The file system, the clock and the retrieval backend *)
(* --------------------------------------------------------------------- *)

(** [os.path.join(directory, name)] *)
Definition path : Type := (pystr * pystr)%type.

(** The directories next to the application and the text files in them;
    a file of the working directory itself has the empty directory name. *)
Record filesystem : Type := {
  dirs : gset pystr;
  files : gmap path pystr
}.

(** Whether the 'utf-8' codec encodes a code point: surrogates are
    refused. *)
Definition utf8_encodable (c : N) : bool :=
  ((c <? 55296) || (57343 <? c) && (c <=? 1114111))%N.

(** The two engines. *)
Inductive variant : Type := Vector | Tree.

Definition temp_dir (v : variant) : pystr :=
  match v with Vector => py "temp_docs" | Tree => py "temp_docs_tree" end.

(** [Settings.chunk_size], also the [chunk_size] of the node parser. *)
Definition chunk_size (v : variant) : Z :=
  match v with Vector => 512 | Tree => 1024 end.

Definition chunk_overlap (v : variant) : Z :=
  match v with Vector => 50 | Tree => 100 end.

Definition similarity_top_k (v : variant) : Z :=
  match v with Vector => 3 | Tree => 2 end.

Definition index_name (v : variant) : pystr :=
  match v with Vector => py "vector" | Tree => py "tree" end.

(** What the engines ask of the libraries behind them, in the order
    asked. *)
Inductive event : Type :=
| EvModels (model_name : pystr)
| EvLoadData (input_files : list path)
| EvFromDocuments (v : variant) (chunk_size chunk_overlap : Z)
| EvQuery (v : variant) (top_k : Z) (query_text : pystr).

(** The global [Settings] of the retrieval library. *)
Record Settings : Type := {
  llm : pystr;
  embed_model : pystr;
  settings_chunk_size : Z
}.

(** The response object of a query engine: its [str] and its
    [source_nodes] attribute, when it has one. *)
Record Response : Type := {
  response_str : pystr;
  response_source_nodes : option (list source_node)
}.

Section Engines.

(** The loaded documents and the index are objects of the retrieval
    library. *)
Variables Docs Index : Type.

(** The libraries behind the engines.  Every answer may depend on all
    that was asked before; [clock n] is what the [n]-th call of
    [time.time()] returns. *)
Record backend : Type := {
  make_models : list event -> pystr -> outcome unit;
  load_data : list event -> list (path * pystr) -> outcome Docs;
  from_documents : list event -> variant -> Docs -> outcome Index;
  run_query : list event -> variant -> Index -> pystr -> outcome Response;
  clock : nat -> float
}.

(** The attributes of an engine object ([query_engine] is set to [None]
    once and never read). *)
Record engine : Type := {
  model_name : pystr;
  index : option Index;
  build_time : float
}.

(** All that a method of an engine can change: the object itself, the
    file system, the global settings, the number of clock readings and
    the requests made to the backend. *)
Record world : Type := {
  self : engine;
  fs : filesystem;
  settings : option Settings;
  ticks : nat;
  log : list event
}.

Definition set_self (f : engine -> engine) (w : world) : world :=
  {| self := f (self w); fs := fs w; settings := settings w;
     ticks := ticks w; log := log w |}.

Definition set_fs (f : filesystem -> filesystem) (w : world) : world :=
  {| self := self w; fs := f (fs w); settings := settings w;
     ticks := ticks w; log := log w |}.

Definition set_settings (s : Settings) (w : world) : world :=
  {| self := self w; fs := fs w; settings := Some s;
     ticks := ticks w; log := log w |}.

Variable B : backend.

(** [time.time()] *)
Definition now : M world float :=
  fun w =>
    (Return (clock B (ticks w)),
     {| self := self w; fs := fs w; settings := settings w;
        ticks := S (ticks w); log := log w |}).

(** A request to the backend: it is logged, and answered from all that
    was asked before. *)
Definition request {A : Type} (ev : event) (answer : list event -> outcome A)
  : M world A :=
  fun w =>
    (answer (log w),
     {| self := self w; fs := fs w; settings := settings w;
        ticks := ticks w; log := log w ++ [ev] |}).

(** [os.makedirs(d, exist_ok=True)] *)
Definition makedirs (d : pystr) : M world unit :=
  fun w =>
    if bool_decide (d ∈ dirs (fs w)) then (Return tt, w)
    else if bool_decide (is_Some (files (fs w) !! (([] : pystr), d)))
    then (Raise (py "[Errno 17] File exists"), w)
    else (Return tt,
          set_fs (fun s => {| dirs := {[ d ]} ∪ dirs s; files := files s |}) w).

(** [with open(p, 'w', encoding='utf-8') as f: f.write(text)]: the file
    is created or emptied when it is opened; a text the codec refuses
    raises before anything is written. *)
Definition write_text (p : path) (text : pystr) : M world unit :=
  fun w =>
    if bool_decide (p.1 ∈ dirs (fs w)) then
      if forallb utf8_encodable text
      then (Return tt,
            set_fs (fun s => {| dirs := dirs s;
                                files := <[ p := text ]> (files s) |}) w)
      else (Raise (py "'utf-8' codec can't encode character: surrogates not allowed"),
            set_fs (fun s => {| dirs := dirs s;
                                files := <[ p := [] ]> (files s) |}) w)
    else (Raise (py "[Errno 2] No such file or directory"), w).

(** [os.remove(p)] *)
Definition os_remove (p : path) : M world unit :=
  fun w =>
    match files (fs w) !! p with
    | Some _ =>
        (Return tt,
         set_fs (fun s => {| dirs := dirs s; files := delete p (files s) |}) w)
    | None => (Raise (py "[Errno 2] No such file or directory"), w)
    end.

(** [os.rmdir(d)] *)
Definition os_rmdir (d : pystr) : M world unit :=
  fun w =>
    if bool_decide (d ∈ dirs (fs w)) then
      if bool_decide (map_Forall (fun (p : path) (_ : pystr) => p.1 ≠ d)
                        (files (fs w)))
      then (Return tt,
            set_fs (fun s => {| dirs := dirs s ∖ {[ d ]}; files := files s |}) w)
      else (Raise (py "[Errno 39] Directory not empty"), w)
    else (Raise (py "[Errno 2] No such file or directory"), w).

(** The files of [input_files] as [SimpleDirectoryReader] finds them. *)
Fixpoint read_files (s : filesystem) (input_files : list path)
  : outcome (list (path * pystr)) :=
  match input_files with
  | [] => Return []
  | p :: rest =>
      match files s !! p with
      | None => Raise (py "File does not exist.")
      | Some text =>
          match read_files s rest with
          | Return l => Return ((p, text) :: l)
          | Raise e => Raise e
          end
      end
  end.

(** [SimpleDirectoryReader(input_files=doc_files).load_data()] *)
Definition reader_load_data (doc_files : list path) : M world Docs :=
  (w <- get ;;
   contents <- lift (read_files (fs w) doc_files) ;;
   request (EvLoadData doc_files) (fun l => load_data B l contents))%py_scope.

(* --------------------------------------------------------------------- *)
(** ** [rag_engines/vector_engine.py] and [rag_engines/tree_engine.py] *)
(* --------------------------------------------------------------------- *)

(** [initialize_llm_and_embeddings] *)
Definition initialize_llm_and_embeddings (v : variant) : M world bool :=
  (try_except
     (w <- get ;;
      request (EvModels (model_name (self w)))
        (fun l => make_models B l (model_name (self w))) ;;;
      modify (set_settings {| llm := model_name (self w);
                              embed_model := py "BAAI/bge-small-en-v1.5";
                              settings_chunk_size := chunk_size v |}) ;;;
      ret true)
     (fun e => raise (py "Failed to initialize LLM/embeddings: " ++ e)))%py_scope.

(** [__init__] *)
Definition init (v : variant) (name : pystr) : M world unit :=
  (modify (set_self (fun _ => {| model_name := name; index := None;
                                 build_time := Float.zero |})) ;;;
   initialize_llm_and_embeddings v ;;;
   ret tt)%py_scope.

(** The loop of [build_index] that saves the documents: [i] is the
    position [enumerate] has reached, [doc_files] the paths appended so
    far. *)
Fixpoint save_documents (v : variant) (i : nat) (documents : list pystr)
    (doc_files : list path) : M world (list path) :=
  match documents with
  | [] => ret doc_files
  | doc_text :: rest =>
      let doc_path :=
        (temp_dir v, py "doc_" ++ dec (N.of_nat i) ++ py ".txt") in
      bind (write_text doc_path doc_text)
        (fun _ => save_documents v (S i) rest (doc_files ++ [doc_path]))
  end.

(** [build_index] *)
Definition build_index (v : variant) (documents : list pystr)
  : M world float :=
  (start_time <- now ;;
   try_except
     (makedirs (temp_dir v) ;;;
      doc_files <- save_documents v 0 documents [] ;;
      docs <- reader_load_data doc_files ;;
      for_each doc_files os_remove ;;;
      os_rmdir (temp_dir v) ;;;
      idx <- request (EvFromDocuments v (chunk_size v) (chunk_overlap v))
               (fun l => from_documents B l v docs) ;;
      modify (set_self (fun e => {| model_name := model_name e;
                                    index := Some idx;
                                    build_time := build_time e |})) ;;;
      end_time <- now ;;
      let build_time := Float.sub end_time start_time in
      modify (set_self (fun e => {| model_name := model_name e;
                                    index := index e;
                                    build_time := build_time |})) ;;;
      ret build_time)
     (fun e =>
        raise (py "Failed to build " ++ index_name v ++ py " index: " ++ e))
  )%py_scope.

(** [query] *)
Definition query (v : variant) (query_text : pystr) : M world QueryResult :=
  (w <- get ;;
   match index (self w) with
   | None => raise (py "Index not built. Call build_index() first.")
   | Some idx =>
       start_time <- now ;;
       try_except
         (response <- request (EvQuery v (similarity_top_k v) query_text)
                        (fun l => run_query B l v idx query_text) ;;
          let source_nodes := default [] (response_source_nodes response) in
          end_time <- now ;;
          let execution_time := Float.sub end_time start_time in
          created <- now ;;
          ret {| response := response_str response;
                 source_nodes := source_nodes;
                 execution_time := execution_time;
                 timestamp := created |})
         (fun e => raise (py "Query failed: " ++ e))
   end)%py_scope.

(** [get_build_time] *)
Definition get_build_time (e : engine) : float := build_time e.

(** [is_initialized] *)
Definition is_initialized (e : engine) : bool :=
  match index e with Some _ => true | None => false end.

End Engines.

Arguments model_name {Index} _.
Arguments index {Index} _.
Arguments build_time {Index} _.
Arguments self {Index} _.
Arguments fs {Index} _.
Arguments settings {Index} _.
Arguments ticks {Index} _.
Arguments log {Index} _.
Arguments get_build_time {Index} _.
Arguments is_initialized {Index} _.
Arguments init {Docs Index} B v name.
Arguments build_index {Docs Index} B v documents.
Arguments query {Docs Index} B v query_text.

(* --------------------------------------------------------------------- *)
(** ** [app.py]: the performance comparison *)
(* --------------------------------------------------------------------- *)

(** [time_diff] of [main] *)
Definition time_diff (vector_result tree_result : QueryResult) : float :=
  Float.abs (Float.sub (execution_time vector_result)
                       (execution_time tree_result)).

(** [faster_engine] of [main] *)
Definition faster_engine (vector_result tree_result : QueryResult) : pystr :=
  if Float.ltb (execution_time vector_result) (execution_time tree_result)
  then py "Vector" else py "Tree".

(* --------------------------------------------------------------------- *)
(** ** Histories of an engine, and libraries for concrete runs *)
(* --------------------------------------------------------------------- *)

(** The states an engine object and its surroundings can be in: the
    object is constructed, then [build_index] and [query] are called on
    it any number of times, while the surroundings (files, settings,
    clock, backend) may change in between in any way that leaves the
    object alone.  The flag tells whether a call of [build_index] has
    returned so far. *)
Inductive reachable {Docs Index : Type} (B : backend Docs Index) (v : variant)
  : bool -> world Index -> Prop :=
| reach_init name w w' :
    init B v name w = (Return tt, w') ->
    reachable B v false w'
| reach_build_returns built documents w t w' :
    reachable B v built w ->
    build_index B v documents w = (Return t, w') ->
    reachable B v true w'
| reach_build_raises built documents w e w' :
    reachable B v built w ->
    build_index B v documents w = (Raise e, w') ->
    reachable B v built w'
| reach_query built query_text w r w' :
    reachable B v built w ->
    query B v query_text w = (r, w') ->
    reachable B v built w'
| reach_surroundings built w w' :
    reachable B v built w ->
    self w' = self w ->
    reachable B v built w'.

(** The float of a natural number that binary64 holds exactly. *)
Definition float_of_nat (n : nat) : float :=
  binary_normalize Float.prec Float.emax (Z.of_nat n) 0 false.

(** A backend for concrete runs.  Loading gives the texts of the files;
    an index is the list of the loaded texts, and building it fails when
    there is no text at all; a query is answered by its own text, with
    the indexed texts as sources; the clock advances by one second at
    every reading. *)
Definition echo_backend : backend (list pystr) (list pystr) :=
  {| make_models := fun _ _ => Return tt;
     load_data := fun _ contents => Return (map snd contents);
     from_documents := fun _ _ docs =>
       match docs with
       | [] => Raise (py "no documents")
       | _ => Return docs
       end;
     run_query := fun _ _ idx query_text =>
       Return {| response_str := query_text;
                 response_source_nodes := Some (map NodeWithText idx) |};
     clock := float_of_nat |}.

(** A world with nothing in it: no directories, no files, no settings. *)
Definition empty_world {Index : Type} (e : engine Index) : world Index :=
  {| self := e; fs := {| dirs := ∅; files := ∅ |}; settings := None;
     ticks := 0%nat; log := [] |}.

(** An engine object before [__init__] has run. *)
Definition blank_engine {Index : Type} : engine Index :=
  {| model_name := []; index := None; build_time := Float.zero |}.

(** A PDF library for concrete runs: a byte string is a document of as
    many pages as it has bytes, the empty byte string is refused, and so
    is every path. *)
Definition bytewise_pdf : pdf_library :=
  {| open_bytes := fun content =>
       match content with
       | [] => Raise (py "Cannot read an empty file")
       | _ => Return {| pages := Return (map (fun _ => Return (py "page")) content) |}
       end;
     open_path := fun _ => Raise (py "[Errno 2] No such file or directory") |}.

(** A statement that leaves the engine object as it found it. *)
Definition keeps_self {Index A : Type} (m : M (world Index) A) : Prop :=
  forall w r w', m w = (r, w') -> self w' = self w.

(** The message of the exception [query] raises on an engine that has no
    index. *)
Definition not_built : pystr := py "Index not built. Call build_index() first.".

(** What the PDF library makes of the argument of [validate_pdf]: the
    pages it finds, or the exception raised on the way there (by
    reading the stream, by opening, or by reading the pages). *)
Definition pdf_pages (pypdf : pdf_library) (pdf_file : pdf_input) (f : stream)
  : outcome (list (outcome pystr)) :=
  match pdf_file with
  | FileObject =>
      if closed f then Raise (py "I/O operation on closed file.")
      else match open_bytes pypdf (drop (pos f) (data f)) with
           | Return reader => pages reader
           | Raise e => Raise e
           end
  | PathLike p =>
      match open_path pypdf p with
      | Return reader => pages reader
      | Raise e => Raise e
      end
  end.

(* --------------------------------------------------------------------- *)
(** ** The greedy accumulator that [chunk_text] is compared with *)
(* --------------------------------------------------------------------- *)

(** The greedy accumulator, in the words of the specification: the next
    sentence begins a new chunk when appending it would make the current
    chunk longer than [limit] characters, and is appended otherwise; the
    last chunk is flushed at the end of the input. *)
Fixpoint accumulate (limit : Z) (current : pystr) (sentences : list pystr)
  : list pystr :=
  match sentences with
  | [] => [current]
  | s :: rest =>
      if limit <? Z.of_nat (length (current ++ s))
      then current :: accumulate limit s rest
      else accumulate limit (current ++ s) rest
  end.

(** The sentences of the specification: the pieces between the
    occurrences of ". ", each with the ". " that the split took from it
    put back (the last piece lost none). *)
Definition spec_sentences (text : pystr) : list pystr :=
  let pieces := split (py ". ") text in
  map (fun p => p ++ py ". ") (removelast pieces)
  ++ [List.last pieces []].

(** The chunks of the specification. *)
Definition greedy_chunks (text : pystr) (chunk_size : Z) : list pystr :=
  accumulate (chunk_size * 4) [] (spec_sentences text).

(** The sentences [chunk_text] accumulates: the non-empty pieces, each
    followed by ". ". *)
Definition kept_sentences (pieces : list pystr) : list pystr :=
  map (fun p => p ++ py ". ") (filter (fun p => truthy p = true) pieces).

(** What [chunk_text] keeps of a list of raw chunks: the non-empty ones,
    trimmed. *)
Definition trimmed (raw : list pystr) : list pystr :=
  map strip (filter (fun c => truthy c = true) raw).

(** Whether a string has a character that is not white space. *)
Definition inked (s : pystr) : bool :=
  existsb (fun c => negb (isspace c)) s.

(* --------------------------------------------------------------------- *)
(** ** Fixed notation *)
(* --------------------------------------------------------------------- *)

(** A number written in fixed notation with [d] decimal places: one or
    more digits, a point, and exactly [d] digits. *)
Definition fixed_notation (d : nat) (t : pystr) : Prop :=
  exists int_part frac_part,
    t = int_part ++ 46%N :: frac_part
    /\ int_part <> []
    /\ forallb isdigit int_part = true
    /\ length frac_part = d
    /\ forallb isdigit frac_part = true.

(** The sign Python writes before a float. *)
Definition sign_of (x : float) : pystr :=
  if Float.signbit x then [45%N] else [].

(* --------------------------------------------------------------------- *)
(** ** Notions used in the proofs *)
(* --------------------------------------------------------------------- *)

(** A float that is a zero, or finite with its leading binary digit
    below position [k]: its magnitude is below [2^k]. *)
Definition mag_le (x : float) (k : Z) : Prop :=
  match x with
  | S754_zero _ => True
  | S754_finite _ m e => Zpos (digits2_pos m) + e <= k
  | _ => False
  end.

(** A mantissa whose dropped digits are all zero is shifted exactly. *)
Definition shifts_exactly (k : Z) (mrs : shr_record) : Prop :=
  shr_r mrs = false /\ shr_s mrs = false
  /\ 0 <= shr_m mrs /\ shr_m mrs mod 2 ^ k = 0.

(** The last statement of [chunk_text], on the state the loop ended in. *)
Definition chunk_final (st : list pystr * pystr) : list pystr :=
  if truthy (strip st.2) then st.1 ++ [strip st.2] else st.1.


(* --------------------------------------------------------------------- *)
(** ** [utils/performance_tracker.py]: [PerformanceTracker] *)
(* --------------------------------------------------------------------- *)

(** [try: body  finally: final].  The final statements run on both exits
    of the body; an exception of theirs replaces the body's. *)
Definition try_finally {S A : Type} (body : M S A) (final : M S unit)
  : M S A :=
  fun s =>
    match body s with
    | (r, s1) =>
        match final s1 with
        | (Return _, s2) => (r, s2)
        | (Raise e, s2) => (Raise e, s2)
        end
    end.

Section PerformanceTracker.

(** What the timed operations work on, and [time.time()] on it. *)
Variable W : Type.
Variable time_time : W -> float * W.

(** The state of a program that tracks: the dict objects, of seconds by
    operation name, by identity (those below [allocated] have been
    created), and the rest. *)
Record tracking : Type := {
  dicts : nat -> gmap pystr float;
  allocated : nat;
  rest : W
}.

(** A [PerformanceTracker] object: its attribute [metrics] refers to a
    dict object. *)
Record PerformanceTracker : Type := {
  metrics : nat
}.

(** A new dict object with the items of [d]: [{}] for no items,
    [d.copy()]. *)
Definition new_dict (d : gmap pystr float) : M tracking nat :=
  fun s =>
    (Return (allocated s),
     {| dicts := fun i => if (i =? allocated s)%nat then d else dicts s i;
        allocated := S (allocated s);
        rest := rest s |}).

(** [d[key] = value] on the dict object [id] *)
Definition dict_setitem (id : nat) (key : pystr) (value : float)
  : M tracking unit :=
  modify (fun s =>
    {| dicts := fun i => if (i =? id)%nat
                         then <[ key := value ]> (dicts s i)
                         else dicts s i;
       allocated := allocated s;
       rest := rest s |}).

(** [d.get(key, default)] on the dict object [id] *)
Definition dict_get (id : nat) (key : pystr) (default_value : float)
  : M tracking float :=
  fun s => (Return (default default_value (dicts s id !! key)), s).

(** [time.time()] *)
Definition tracker_now : M tracking float :=
  fun s =>
    (Return (time_time (rest s)).1,
     {| dicts := dicts s; allocated := allocated s;
        rest := (time_time (rest s)).2 |}).

(** [PerformanceTracker.__init__] *)
Definition tracker_init : M tracking PerformanceTracker :=
  (id <- new_dict ∅ ;;
   ret {| metrics := id |})%py_scope.

(** [with self.track_time(operation_name): body] *)
Definition track_time {A : Type} (self : PerformanceTracker)
    (operation_name : pystr) (body : M tracking A) : M tracking A :=
  (start_time <- tracker_now ;;
   try_finally body
     (end_time <- tracker_now ;;
      let elapsed_time := Float.sub end_time start_time in
      dict_setitem (metrics self) operation_name elapsed_time))%py_scope.

(** [PerformanceTracker.get_metric] *)
Definition get_metric (self : PerformanceTracker) (operation_name : pystr)
  : M tracking float :=
  dict_get (metrics self) operation_name Float.zero.

(** [PerformanceTracker.get_all_metrics] *)
Definition get_all_metrics (self : PerformanceTracker) : M tracking nat :=
  (s <- get ;;
   new_dict (dicts s (metrics self)))%py_scope.

End PerformanceTracker.

Arguments dicts {W} _ _.
Arguments allocated {W} _.
Arguments rest {W} _.
Arguments new_dict {W} d.
Arguments dict_setitem {W} id key value.
Arguments dict_get {W} id key default_value.
Arguments tracker_now {W} time_time.
Arguments tracker_init {W}.
Arguments track_time {W} time_time {A} self operation_name body.
Arguments get_metric {W} self operation_name.
Arguments get_all_metrics {W} self.

(* --------------------------------------------------------------------- *)
(** ** [rag_engines/tree_engine.py]: [get_tree_structure_info] *)
(* --------------------------------------------------------------------- *)

(** The values of the dict that [get_tree_structure_info] returns. *)
Inductive info_value : Type :=
| InfoInt (n : Z)
| InfoStr (s : pystr).

Section TreeStructureInfo.

Variable Index : Type.

(** [len(index.docstore.docs)], which may raise. *)
Variable docstore_len : Index -> outcome Z.

(** [TreeRAGEngine.get_tree_structure_info] *)
Definition get_tree_structure_info (e : engine Index)
  : gmap pystr info_value :=
  match index e with
  | None => {[ py "error" := InfoStr (py "Index not built") ]}
  | Some idx =>
      match docstore_len idx with
      | Return n =>
          <[ py "num_nodes" := InfoInt n ]>
          (<[ py "index_type" := InfoStr (py "TreeIndex") ]>
           {[ py "model_used" := InfoStr (model_name e) ]})
      | Raise err => {[ py "error" := InfoStr err ]}
      end
  end.

End TreeStructureInfo.

Arguments get_tree_structure_info {Index} docstore_len e.

(* --------------------------------------------------------------------- *)
(** ** Notions used to state what the engines do *)
(* --------------------------------------------------------------------- *)

(** The temporary file of the document at position [i]. *)
Definition doc_path (v : variant) (i : nat) : path :=
  (temp_dir v, py "doc_" ++ dec (N.of_nat i) ++ py ".txt").

(** The temporary files of [n] documents, in the order written. *)
Definition doc_paths (v : variant) (n : nat) : list path :=
  map (doc_path v) (seq 0 n).

(** The files after each text of a list has been written to its path,
    and after each path of a list has been removed. *)
Definition write_all (contents : list (path * pystr))
    (m : gmap path pystr) : gmap path pystr :=
  fold_left (fun m pt => <[ pt.1 := pt.2 ]> m) contents m.

Definition remove_all (ps : list path) (m : gmap path pystr)
  : gmap path pystr :=
  fold_left (fun m p => delete p m) ps m.

(** Two worlds that differ in their file systems at most. *)
Definition same_but_fs {Index : Type} (w w' : world Index) : Prop :=
  self w' = self w /\ settings w' = settings w
  /\ ticks w' = ticks w /\ log w' = log w.

(** What [build_index] leaves alone, whatever its outcome: the settings,
    the model name of the engine, the directories other than its
    temporary directory and the files outside it; the clock only
    advances and the requests made so far stay. *)
Definition build_frame {Index : Type} (v : variant) (w w' : world Index)
  : Prop :=
  settings w' = settings w
  /\ model_name (self w') = model_name (self w)
  /\ (forall d, d <> temp_dir v -> d ∈ dirs (fs w') <-> d ∈ dirs (fs w))
  /\ (forall p : path, p.1 <> temp_dir v ->
                       files (fs w') !! p = files (fs w) !! p)
  /\ (ticks w <= ticks w')%nat
  /\ log w `prefix_of` log w'.

(** A statement all of whose runs relate the world before to the world
    after by [R]. *)
Definition respects {Index A : Type} (R : world Index -> world Index -> Prop)
    (m : M (world Index) A) : Prop :=
  forall w r w', m w = (r, w') -> R w w'.

(** A float that can be an elapsed time: a float of the format that is
    finite and not negative. *)
Definition duration (x : float) : Prop :=
  Float.is_float x /\ Float.is_finite x = true /\ Float.signbit x = false.

(** Two worlds in which the clock has been read equally often. *)
Definition same_ticks {Index : Type} (w w' : world Index) : Prop :=
  ticks w' = ticks w.

(* --------------------------------------------------------------------- *)
(** ** [app.py]: a run of [main] *)
(* --------------------------------------------------------------------- *)

(** What a run shows.  Of the calls of Streamlit and of the logger, the
    model keeps those that tell the user or the log something: messages,
    metrics, captions and the texts written.  Titles, headers, dividers,
    spinners and the layout in columns and expanders are left out: none
    of them is given anything the program computes.  The calls kept are
    taken not to raise. *)
Inductive shown_event : Type :=
| StError (message : pystr)
| StSuccess (message : pystr)
| StInfo (message : pystr)
| StMetric (label value : pystr) (delta : option pystr)
| StCaption (text : pystr)
| StWrite (text : pystr)
| StTextArea (label value key : pystr)
| LoggerError (message : pystr).

(** The values of the widgets in one run: the model name typed, whether
    a file is uploaded, whether "Process Document" was clicked, the
    query typed, the trace toggle, and whether "Analyze Document" was
    clicked.  A button that the run does not reach is not looked at. *)
Record widgets : Type := {
  model_name_input : pystr;
  has_upload : bool;
  process_clicked : bool;
  query_input : pystr;
  show_trace : bool;
  analyze_clicked : bool
}.

(** The message of the [AttributeError] of a method call on [None]. *)
Definition none_has_no_attribute (method_name : pystr) : pystr :=
  py "'NoneType' object has no attribute '" ++ method_name ++ py "'".

(** The literals of [main] that are not plain ASCII, or long. *)
Definition please_upload : pystr :=
  [128072%N]
  ++ py " Please upload a PDF document and click 'Process Document' to get started".

Definition key_differences : pystr :=
  [10%N] ++ py "                **Key Differences:**"
  ++ [10%N]
  ++ py "                - **Vector RAG**: Uses embedding similarity to find relevant chunks (faster, but may miss context)"
  ++ [10%N]
  ++ py "                - **Tree RAG**: Uses LLM to understand document structure and hierarchy (slower, but more contextual)"
  ++ [10%N] ++ py "                ".

(** [str(value)] of a value of the tree information. *)
Definition info_str (value : info_value) : pystr :=
  match value with
  | InfoInt n => dec_Z n
  | InfoStr s => s
  end.

Section App.

Variables Docs Index : Type.
Variable B : backend Docs Index.
Variable pypdf : pdf_library.
Variable docstore_len : Index -> outcome Z.

(** [st.session_state] *)
Record session_state : Type := {
  document_processed : bool;
  vector_engine : option (engine Index);
  tree_engine : option (engine Index);
  document_text : pystr
}.

(** The session state that the module sets up before the first run. *)
Definition initial_session : session_state :=
  {| document_processed := false; vector_engine := None;
     tree_engine := None; document_text := [] |}.

(** All that a run of [main] works on: the session state, the uploaded
    file, what the engines share (file system, settings, clock, requests
    to the backend), and what has been shown. *)
Record app : Type := {
  session : session_state;
  uploaded_file : stream;
  app_fs : filesystem;
  app_settings : option Settings;
  app_ticks : nat;
  app_log : list event;
  shown : list shown_event
}.

Definition set_session (f : session_state -> session_state) (a : app) : app :=
  {| session := f (session a); uploaded_file := uploaded_file a;
     app_fs := app_fs a; app_settings := app_settings a;
     app_ticks := app_ticks a; app_log := app_log a; shown := shown a |}.

(** A call of Streamlit or of the logger that is kept. *)
Definition st (ev : shown_event) : M app unit :=
  modify (fun a =>
    {| session := session a; uploaded_file := uploaded_file a;
       app_fs := app_fs a; app_settings := app_settings a;
       app_ticks := app_ticks a; app_log := app_log a;
       shown := shown a ++ [ev] |}).

(** A statement on the uploaded file. *)
Definition on_upload {A : Type} (m : M stream A) : M app A :=
  fun a =>
    let '(r, f) := m (uploaded_file a) in
    (r, {| session := session a; uploaded_file := f;
           app_fs := app_fs a; app_settings := app_settings a;
           app_ticks := app_ticks a; app_log := app_log a;
           shown := shown a |}).

(** The world that a method of the engine object [e] sees, and the
    application after the method has left the world [w]. *)
Definition world_of (e : engine Index) (a : app) : world Index :=
  {| self := e; fs := app_fs a; settings := app_settings a;
     ticks := app_ticks a; log := app_log a |}.

Definition with_world (w : world Index) (a : app) : app :=
  {| session := session a; uploaded_file := uploaded_file a;
     app_fs := fs w; app_settings := settings w;
     app_ticks := ticks w; app_log := log w; shown := shown a |}.

(** [st.session_state.vector_engine] and [st.session_state.tree_engine]. *)
Definition engine_slot (v : variant) (s : session_state)
  : option (engine Index) :=
  match v with Vector => vector_engine s | Tree => tree_engine s end.

Definition set_engine_slot (v : variant) (e : engine Index)
    (s : session_state) : session_state :=
  match v with
  | Vector => {| document_processed := document_processed s;
                 vector_engine := Some e; tree_engine := tree_engine s;
                 document_text := document_text s |}
  | Tree => {| document_processed := document_processed s;
               vector_engine := vector_engine s; tree_engine := Some e;
               document_text := document_text s |}
  end.

(** A method call on the engine of the session state: an
    [AttributeError] when the session state holds [None]; otherwise the
    method runs on the engine object, which stays where it is. *)
Definition call_engine {A : Type} (v : variant) (method_name : pystr)
    (method : M (world Index) A) : M app A :=
  fun a =>
    match engine_slot v (session a) with
    | None => (Raise (none_has_no_attribute method_name), a)
    | Some e =>
        let '(r, w') := method (world_of e a) in
        (r, set_session (set_engine_slot v (self w')) (with_world w' a))
    end.

(** [VectorRAGEngine(model_name=name)] and [TreeRAGEngine(model_name=name)]:
    a new object on which [__init__] runs. *)
Definition construct (v : variant) (name : pystr) : M app (engine Index) :=
  fun a =>
    let '(r, w') := init B v name (world_of blank_engine a) in
    (match r with
     | Return _ => Return (self w')
     | Raise e => Raise e
     end,
     with_world w' a).

(** The statements under "Process Document". *)
Definition process_document (name : pystr) : M app unit :=
  (try_except
     (text_content <- on_upload (extract_text_from_pdf pypdf FileObject) ;;
      modify (set_session (fun s =>
        {| document_processed := document_processed s;
           vector_engine := vector_engine s; tree_engine := tree_engine s;
           document_text := text_content |})) ;;;
      new_vector <- construct Vector name ;;
      modify (set_session (set_engine_slot Vector new_vector)) ;;;
      new_tree <- construct Tree name ;;
      modify (set_session (set_engine_slot Tree new_tree)) ;;;
      let documents := [text_content] in
      vector_build_time <-
        call_engine Vector (py "build_index") (build_index B Vector documents) ;;
      st (StSuccess ([9989%N] ++ py " Vector Index built in "
                     ++ format_f 2 vector_build_time ++ py "s")) ;;;
      tree_build_time <-
        call_engine Tree (py "build_index") (build_index B Tree documents) ;;
      st (StSuccess ([9989%N] ++ py " Tree Index built in "
                     ++ format_f 2 tree_build_time ++ py "s")) ;;;
      modify (set_session (fun s =>
        {| document_processed := true;
           vector_engine := vector_engine s; tree_engine := tree_engine s;
           document_text := document_text s |})) ;;;
      st (StSuccess ([127881%N] ++ py " Document processing complete!")))
     (fun e =>
        st (StError ([10060%N] ++ py " Error processing document: " ++ e)) ;;;
        st (LoggerError (py "Document processing error: " ++ e))))%py_scope.

(** The sidebar above the statistics.  It answers whether the run goes
    on: an upload that is not valid ends it. *)
Definition sidebar_upload (i : widgets) : M app bool :=
  (if has_upload i then
     validity <- on_upload (validate_pdf pypdf FileObject) ;;
     if negb validity.1 then
       st (StError ([10060%N] ++ py " Invalid PDF: " ++ validity.2)) ;;;
       ret false
     else
       (if process_clicked i
        then process_document (model_name_input i) else ret tt) ;;;
       ret true
   else ret true)%py_scope.

(** The statistics of the sidebar. *)
Definition performance_stats : M app unit :=
  (vector_time <-
     call_engine Vector (py "get_build_time")
       (w <- get ;; ret (get_build_time (self w))) ;;
   tree_time <-
     call_engine Tree (py "get_build_time")
       (w <- get ;; ret (get_build_time (self w))) ;;
   st (StMetric (py "Vector Index Build Time")
         (format_f 2 vector_time ++ py "s") None) ;;;
   st (StMetric (py "Tree Index Build Time")
         (format_f 2 tree_time ++ py "s") None) ;;;
   tree_info <-
     call_engine Tree (py "get_tree_structure_info")
       (w <- get ;; ret (get_tree_structure_info docstore_len (self w))) ;;
   match tree_info !! py "num_nodes" with
   | Some num_nodes => st (StInfo (py "Tree Nodes: " ++ info_str num_nodes))
   | None => ret tt
   end)%py_scope.

(** [not vector_engine.is_initialized() or not tree_engine.is_initialized()] *)
Definition engines_not_ready : M app bool :=
  (vector_ready <-
     call_engine Vector (py "is_initialized")
       (w <- get ;; ret (is_initialized (self w))) ;;
   if negb vector_ready then ret true
   else
     tree_ready <-
       call_engine Tree (py "is_initialized")
         (w <- get ;; ret (is_initialized (self w))) ;;
     ret (negb tree_ready))%py_scope.

(** A statement of the application, in a program that tracks. *)
Definition in_app {A : Type} (m : M app A) : M (tracking app) A :=
  fun s =>
    let '(r, a) := m (rest s) in
    (r, {| dicts := dicts s; allocated := allocated s; rest := a |}).

(** [time.time()], on the clock that the engines read. *)
Definition app_time (a : app) : float * app :=
  (clock Docs Index B (app_ticks a),
   {| session := session a; uploaded_file := uploaded_file a;
      app_fs := app_fs a; app_settings := app_settings a;
      app_ticks := S (app_ticks a); app_log := app_log a;
      shown := shown a |}).

(** What is shown of one result. *)
Definition show_result (result : QueryResult) (trace : bool)
    (sources_key : pystr) : M app unit :=
  (response_time <- lift (format_time (execution_time result)) ;;
   st (StCaption (py "Response Time: " ++ response_time)) ;;;
   st (StWrite (response result)) ;;;
   if trace
   then st (StTextArea (py "Source Content") (get_source_text result)
              sources_key)
   else ret tt)%py_scope.

(** The statements under "Analyze Document", once the engines are found
    initialized. *)
Definition analyze (query_text : pystr) (trace : bool)
  : M (tracking app) unit :=
  (try_except
     (perf_tracker <- tracker_init ;;
      vector_result <-
        track_time app_time perf_tracker (py "vector_query")
          (in_app (call_engine Vector (py "query")
                     (query B Vector query_text))) ;;
      tree_result <-
        track_time app_time perf_tracker (py "tree_query")
          (in_app (call_engine Tree (py "query")
                     (query B Tree query_text))) ;;
      in_app (show_result vector_result trace (py "vector_sources")) ;;;
      in_app (show_result tree_result trace (py "tree_sources")) ;;;
      vector_response_time <-
        lift (format_time (execution_time vector_result)) ;;
      in_app (st (StMetric (py "Vector Response Time")
                    vector_response_time None)) ;;;
      tree_response_time <-
        lift (format_time (execution_time tree_result)) ;;
      in_app (st (StMetric (py "Tree Response Time")
                    tree_response_time None)) ;;;
      difference <-
        lift (format_time (time_diff vector_result tree_result)) ;;
      in_app (st (StMetric (py "Time Difference") difference
                    (Some (faster_engine vector_result tree_result
                           ++ py " is faster")))) ;;;
      in_app (st (StInfo key_differences)))
     (fun e =>
        in_app (st (StError ([10060%N] ++ py " Error during analysis: "
                             ++ e))) ;;;
        in_app (st (LoggerError (py "Analysis error: " ++ e)))))%py_scope.

(** [main]: one run of the script. *)
Definition main (i : widgets) : M (tracking app) unit :=
  (goes_on <- in_app (sidebar_upload i) ;;
   if negb goes_on then ret tt
   else
     s <- get ;;
     (if document_processed (session (rest s))
      then in_app performance_stats else ret tt) ;;;
     s <- get ;;
     if negb (document_processed (session (rest s))) then
       in_app (st (StInfo please_upload))
     else if truthy (query_input i) && analyze_clicked i then
       not_ready <- in_app engines_not_ready ;;
       if not_ready
       then in_app (st (StError (py "Engines not properly initialized")))
       else analyze (query_input i) (show_trace i)
     else ret tt)%py_scope.

End App.

Arguments document_processed {Index} _.
Arguments vector_engine {Index} _.
Arguments tree_engine {Index} _.
Arguments document_text {Index} _.
Arguments initial_session {Index}.
Arguments session {Index} _.
Arguments uploaded_file {Index} _.
Arguments app_fs {Index} _.
Arguments app_settings {Index} _.
Arguments app_ticks {Index} _.
Arguments app_log {Index} _.
Arguments shown {Index} _.
Arguments engine_slot {Index} v s.
Arguments st {Index} ev.
Arguments process_document {Docs Index} B pypdf name.
Arguments sidebar_upload {Docs Index} B pypdf i.
Arguments performance_stats {Index} docstore_len.
Arguments engines_not_ready {Index}.
Arguments analyze {Docs Index} B query_text trace.
Arguments main {Docs Index} B pypdf docstore_len i.

(* --------------------------------------------------------------------- *)
(** ** Notions used to state what [main] does *)
(* --------------------------------------------------------------------- *)

(** A statement that, started in a state where [P] holds, returns a
    value and a state with [Q], or raises an exception and leaves a
    state with [E]. *)
Definition hoare {S A : Type} (P : S -> Prop) (m : M S A)
    (Q : A -> S -> Prop) (E : pystr -> S -> Prop) : Prop :=
  forall s, P s ->
    match m s with
    | (Return a, s') => Q a s'
    | (Raise e, s') => E e s'
    end.

(** A property of the session state, as a property of the application
    and of a program that tracks. *)
Definition on_session {Index : Type} (I : session_state Index -> Prop)
  : app Index -> Prop :=
  fun a => I (session a).

Definition on_app {W : Type} (P : W -> Prop) : tracking W -> Prop :=
  fun s => P (rest s).

(** The session state holds both engines whenever it says that a
    document has been processed. *)
Definition engines_present {Index : Type} (s : session_state Index) : Prop :=
  document_processed s = true ->
  is_Some (vector_engine s) /\ is_Some (tree_engine s).

(** The session state holds two engines that have an index. *)
Definition engines_ready {Index : Type} (s : session_state Index) : Prop :=
  exists vector tree,
    vector_engine s = Some vector /\ tree_engine s = Some tree
    /\ is_initialized vector = true /\ is_initialized tree = true.

(** The application before the first run, with the file [upload] in the
    uploader: no dict, no directory, no file, no settings, nothing asked
    and nothing shown. *)
Definition initial_app {Index : Type} (upload : stream)
  : tracking (app Index) :=
  {| dicts := fun _ => ∅; allocated := 0;
     rest := {| session := initial_session; uploaded_file := upload;
                app_fs := {| dirs := ∅; files := ∅ |};
                app_settings := None; app_ticks := 0%nat; app_log := [];
                shown := [] |} |}.

(** What the sidebar shows of two engines: the build times and, when the
    tree can be counted, the number of its nodes. *)
Definition stats_shown {Index : Type} (docstore_len : Index -> outcome Z)
    (vector tree : engine Index) : list shown_event :=
  [StMetric (py "Vector Index Build Time")
     (format_f 2 (get_build_time vector) ++ py "s") None;
   StMetric (py "Tree Index Build Time")
     (format_f 2 (get_build_time tree) ++ py "s") None]
  ++ match get_tree_structure_info docstore_len tree !! py "num_nodes" with
     | Some num_nodes => [StInfo (py "Tree Nodes: " ++ info_str num_nodes)]
     | None => []
     end.

(** The application with more shown. *)
Definition and_shown {Index : Type} (events : list shown_event)
    (s : tracking (app Index)) : tracking (app Index) :=
  {| dicts := dicts s; allocated := allocated s;
     rest := {| session := session (rest s);
                uploaded_file := uploaded_file (rest s);
                app_fs := app_fs (rest s);
                app_settings := app_settings (rest s);
                app_ticks := app_ticks (rest s);
                app_log := app_log (rest s);
                shown := shown (rest s) ++ events |} |}.

(** The application when the uploader holds the file [upload]. *)
Definition with_upload {Index : Type} (upload : stream)
    (s : tracking (app Index)) : tracking (app Index) :=
  {| dicts := dicts s; allocated := allocated s;
     rest := {| session := session (rest s);
                uploaded_file := upload;
                app_fs := app_fs (rest s);
                app_settings := app_settings (rest s);
                app_ticks := app_ticks (rest s);
                app_log := app_log (rest s);
                shown := shown (rest s) |} |}.

(** A backend for concrete runs that builds two indexes and refuses
    every further one; in all else it is the echo backend. *)
Definition is_build (ev : event) : bool :=
  match ev with EvFromDocuments _ _ _ => true | _ => false end.

Definition quota_backend : backend (list pystr) (list pystr) :=
  {| make_models := make_models _ _ echo_backend;
     load_data := load_data _ _ echo_backend;
     from_documents := fun l v docs =>
       if (2 <=? length (List.filter is_build l))%nat
       then Raise (py "quota exceeded")
       else Return docs;
     run_query := run_query _ _ echo_backend;
     clock := clock _ _ echo_backend |}.

(** The widgets of a run in which a file is uploaded and "Process
    Document" is clicked, and of a run without upload in which the query
    "What?" is analyzed. *)
Definition process_widgets : widgets :=
  {| model_name_input := py "llama3.1"; has_upload := true;
     process_clicked := true; query_input := [];
     show_trace := false; analyze_clicked := false |}.

Definition analyze_widgets : widgets :=
  {| model_name_input := py "llama3.1"; has_upload := false;
     process_clicked := false; query_input := py "What?";
     show_trace := true; analyze_clicked := true |}.

(** A file of five bytes, not yet read. *)
Definition five_bytes : stream :=
  {| data := [Byte.x25; Byte.x50; Byte.x44; Byte.x46; Byte.x2d];
     pos := 0; closed := false |}.

(* --------------------------------------------------------------------- *)
(** ** Notions used to state what the analysis does *)
(* --------------------------------------------------------------------- *)

(** The request of a query that an engine sends to the backend. *)
Definition query_event (v : variant) (query_text : pystr) : event :=
  EvQuery v (similarity_top_k v) query_text.

(** The application after the clock has been read [n] more times, the
    backend has been asked [asked] and [events] have been shown. *)
Definition and_asked {Index : Type} (n : nat) (asked : list event)
    (events : list shown_event) (a : app Index) : app Index :=
  {| session := session a; uploaded_file := uploaded_file a;
     app_fs := app_fs a; app_settings := app_settings a;
     app_ticks := n + app_ticks a; app_log := app_log a ++ asked;
     shown := shown a ++ events |}.

(** The result of a query that the backend answers with [resp], when
    the query reads the clock for the first time at the reading [t]. *)
Definition result_at {Docs Index : Type} (B : backend Docs Index)
    (resp : Response) (t : nat) : QueryResult :=
  {| response := response_str resp;
     source_nodes := default [] (response_source_nodes resp);
     execution_time :=
       Float.sub (clock Docs Index B (S t)) (clock Docs Index B t);
     timestamp := clock Docs Index B (S (S t)) |}.

(** The readings [t] and [t + 1] of the clock are finite floats that are
    not negative, the second not before the first. *)
Definition measures {Docs Index : Type} (B : backend Docs Index) (t : nat)
  : Prop :=
  duration (clock Docs Index B t)
  /\ duration (clock Docs Index B (S t))
  /\ Float.leb (clock Docs Index B t) (clock Docs Index B (S t)) = true.

(** What an analysis that succeeds shows of one result, and of the two
    results with their comparison. *)
Definition result_shown (result : QueryResult) (trace : bool)
    (response_time sources_key : pystr) : list shown_event :=
  [StCaption (py "Response Time: " ++ response_time);
   StWrite (response result)]
  ++ (if trace
      then [StTextArea (py "Source Content") (get_source_text result)
              sources_key]
      else []).

Definition analysis_shown (vector_result tree_result : QueryResult)
    (trace : bool) (vector_time tree_time difference : pystr)
  : list shown_event :=
  result_shown vector_result trace vector_time (py "vector_sources")
  ++ result_shown tree_result trace tree_time (py "tree_sources")
  ++ [StMetric (py "Vector Response Time") vector_time None;
      StMetric (py "Tree Response Time") tree_time None;
      StMetric (py "Time Difference") difference
        (Some (faster_engine vector_result tree_result ++ py " is faster"));
      StInfo key_differences].

(** What a failed analysis shows and logs. *)
Definition analysis_error_shown (e : pystr) : list shown_event :=
  [StError ([10060%N] ++ py " Error during analysis: " ++ e);
   LoggerError (py "Analysis error: " ++ e)].

(** A backend for concrete runs whose model server answers no query of
    the variants in [down]; in all else it is the echo backend. *)
Definition down_backend (down : variant -> bool)
  : backend (list pystr) (list pystr) :=
  {| make_models := make_models _ _ echo_backend;
     load_data := load_data _ _ echo_backend;
     from_documents := from_documents _ _ echo_backend;
     run_query := fun l v idx query_text =>
       if down v then Raise (py "Connection refused")
       else run_query _ _ echo_backend l v idx query_text;
     clock := clock _ _ echo_backend |}.

(* --------------------------------------------------------------------- *)
(** ** Notions used to state what the processing does *)
(* --------------------------------------------------------------------- *)

(** Two worlds in which the backend has been asked the same. *)
Definition same_log {Index : Type} (w w' : world Index) : Prop :=
  log w' = log w.

(** What a [build_index] of [n] documents that returns asks of the
    backend. *)
Definition build_requests (v : variant) (n : nat) : list event :=
  [EvLoadData (doc_paths v n);
   EvFromDocuments v (chunk_size v) (chunk_overlap v)].

(** What a processing that succeeds asks of the backend, and what it
    shows for the build times [vector_build_time] and
    [tree_build_time]. *)
Definition processing_requests (name : pystr) : list event :=
  [EvModels name; EvModels name]
  ++ build_requests Vector 1 ++ build_requests Tree 1.

Definition processing_shown (vector_build_time tree_build_time : float)
  : list shown_event :=
  [StSuccess ([9989%N] ++ py " Vector Index built in "
              ++ format_f 2 vector_build_time ++ py "s");
   StSuccess ([9989%N] ++ py " Tree Index built in "
              ++ format_f 2 tree_build_time ++ py "s");
   StSuccess ([127881%N] ++ py " Document processing complete!")].

(* ===================================================================== *)
(** * Part II. Properties                                                 *)
(* ===================================================================== *)

(* --------------------------------------------------------------------- *)
(** ** Floats: comparisons and the absence of NaN *)
(* --------------------------------------------------------------------- *)

(** Equal floats are not strictly ordered. *)
Lemma eqb_not_ltb (x y : float) :
  Float.eqb x y = true -> Float.ltb x y = false.
Proof.
  unfold Float.eqb, Float.ltb, SFeqb, SFltb.
  destruct (SFcompare x y) as [[ | | ]|]; intros H;
    solve [ reflexivity | discriminate H ].
Qed.

(** An absolute value is never below zero, and is at least zero unless
    it is a NaN. *)
Lemma abs_not_negative (x : float) :
  Float.ltb (Float.abs x) Float.zero = false.
Proof. destruct x as [ [|] | [|] | | [|] m e ]; reflexivity. Qed.

Lemma abs_nonnegative (x : float) :
  Float.is_nan x = false -> Float.leb Float.zero (Float.abs x) = true.
Proof.
  destruct x as [ [|] | [|] | | [|] m e ]; intros H;
    solve [ reflexivity | discriminate H ].
Qed.

Section Rounding.

Let prec := Float.prec.
Let emax := Float.emax.

Lemma shr_1_nonneg (mrs : shr_record) :
  0 <= shr_m mrs -> 0 <= shr_m (shr_1 mrs).
Proof.
  destruct mrs as [m r s]; simpl.
  destruct m as [ | [p|p| ] | [p|p| ] ]; simpl; lia.
Qed.

Lemma iter_pos_shr_1_nonneg (p : positive) :
  forall mrs, 0 <= shr_m mrs -> 0 <= shr_m (SpecFloat.iter_pos shr_1 p mrs).
Proof.
  induction p as [p IH | p IH | ]; intros mrs H; simpl.
  - apply IH, IH, shr_1_nonneg, H.
  - apply IH, IH, H.
  - apply shr_1_nonneg, H.
Qed.

Lemma shr_nonneg (mrs : shr_record) (e n : Z) :
  0 <= shr_m mrs -> 0 <= shr_m (fst (shr mrs e n)).
Proof.
  intros H. destruct n as [ | p | p ]; simpl; auto.
  apply iter_pos_shr_1_nonneg, H.
Qed.

Lemma shr_fexp_nonneg (m e : Z) (l : location) :
  0 <= m -> 0 <= shr_m (fst (shr_fexp prec emax m e l)).
Proof.
  intros H. unfold shr_fexp. apply shr_nonneg.
  destruct l as [ | [ | | ] ]; exact H.
Qed.

Lemma round_nearest_even_nonneg (m : Z) (l : location) :
  0 <= m -> 0 <= round_nearest_even m l.
Proof.
  intros H. destruct l as [ | [ | | ] ]; simpl; try lia.
  destruct (Z.even m); lia.
Qed.

(** Rounding a non-negative mantissa never yields a NaN. *)
Lemma binary_round_aux_not_nan (sx : bool) (mx ex : Z) (lx : location) :
  0 <= mx -> Float.is_nan (binary_round_aux prec emax sx mx ex lx) = false.
Proof.
  intros H. unfold binary_round_aux.
  pose proof (shr_fexp_nonneg mx ex lx H) as H1.
  destruct (shr_fexp prec emax mx ex lx) as [mrs' e']. simpl in H1.
  pose proof (shr_fexp_nonneg
                (round_nearest_even (shr_m mrs') (loc_of_shr_record mrs'))
                e' loc_Exact (round_nearest_even_nonneg _ _ H1)) as H2.
  destruct (shr_fexp prec emax _ e' loc_Exact) as [mrs'' e'']. simpl in H2.
  destruct (shr_m mrs'') as [ | m | m ]; try reflexivity.
  - destruct (e'' <=? emax - prec); reflexivity.
  - lia.
Qed.

Lemma binary_round_not_nan (sx : bool) (mx : positive) (ex : Z) :
  Float.is_nan (binary_round prec emax sx mx ex) = false.
Proof.
  unfold binary_round.
  destruct (shl_align mx ex _) as [mz ez].
  apply binary_round_aux_not_nan. lia.
Qed.

Lemma binary_normalize_not_nan (m e : Z) (szero : bool) :
  Float.is_nan (binary_normalize prec emax m e szero) = false.
Proof.
  destruct m; simpl; auto using binary_round_not_nan.
Qed.

End Rounding.

(** The difference of two finite floats is not a NaN. *)
Lemma sub_finite_not_nan (x y : float) :
  Float.is_finite x = true -> Float.is_finite y = true ->
  Float.is_nan (Float.sub x y) = false.
Proof.
  destruct x as [sx|sx| |sx mx ex], y as [sy|sy| |sy my ey];
    simpl; try discriminate; intros _ _.
  - destruct sx, sy; reflexivity.
  - reflexivity.
  - reflexivity.
  - apply binary_normalize_not_nan.
Qed.

(* --------------------------------------------------------------------- *)
(** ** Floats: the magnitude of a rounded result *)
(* --------------------------------------------------------------------- *)

(** [fexp] and the bounds of binary64, in numbers. *)
Lemma fexp_binary64 (e : Z) :
  fexp Float.prec Float.emax e = Z.max (e - 53) (-1074).
Proof. reflexivity. Qed.

Lemma digits2_pos_lt (p : positive) : Zpos p < 2 ^ Zpos (digits2_pos p).
Proof.
  induction p as [p IH | p IH | ]; simpl digits2_pos;
    rewrite ?Pos2Z.inj_succ, ?Z.pow_succ_r by lia; lia.
Qed.

Lemma digits2_pos_le (p : positive) : 2 ^ (Zpos (digits2_pos p) - 1) <= Zpos p.
Proof.
  induction p as [p IH | p IH | ]; simpl digits2_pos;
    rewrite ?Pos2Z.inj_succ;
    try (replace (Z.succ (Zpos (digits2_pos p)) - 1)
           with (Z.succ (Zpos (digits2_pos p) - 1)) by lia;
         rewrite Z.pow_succ_r by lia);
    lia.
Qed.

(** A positive number below [2^k] has at most [k] binary digits. *)
Lemma digits2_pos_bound (p : positive) (k : Z) :
  0 <= k -> Zpos p < 2 ^ k -> Zpos (digits2_pos p) <= k.
Proof.
  intros Hk Hp.
  destruct (Z_le_gt_dec (Zpos (digits2_pos p)) k) as [H | H]; [ exact H | ].
  pose proof (digits2_pos_le p) as Hle.
  assert (2 ^ k <= 2 ^ (Zpos (digits2_pos p) - 1))
    by (apply Z.pow_le_mono_r; lia).
  lia.
Qed.

Lemma Zdigits2_nonneg (m : Z) : 0 <= Zdigits2 m.
Proof. destruct m; simpl; lia. Qed.

Lemma Zdigits2_div2 (m : Z) :
  0 <= m -> Zdigits2 (Z.div2 m) = Z.max 0 (Zdigits2 m - 1).
Proof.
  destruct m as [ | [p | p | ] | p]; intros H; simpl;
    rewrite ?Pos2Z.inj_succ; lia.
Qed.

Lemma Zdigits2_succ (m : Z) : 0 <= m -> Zdigits2 (m + 1) <= Zdigits2 m + 1.
Proof.
  destruct m as [ | p | p]; intros H; [ simpl; lia | | lia ].
  change (Zpos p + 1) with (Zpos (p + 1)). rewrite Pos.add_1_r. simpl.
  induction p as [p IH | p IH | ]; simpl; rewrite ?Pos2Z.inj_succ; lia.
Qed.

Lemma shr_1_div2 (mrs : shr_record) :
  0 <= shr_m mrs -> shr_m (shr_1 mrs) = Z.div2 (shr_m mrs).
Proof.
  destruct mrs as [m r s]; simpl.
  destruct m as [ | [p | p | ] | p]; simpl; intros H; try reflexivity; lia.
Qed.

(** Shifting right drops binary digits, one per step. *)
Lemma iter_pos_shr_1_digits (p : positive) :
  forall mrs,
    0 <= shr_m mrs ->
    Zdigits2 (shr_m (SpecFloat.iter_pos shr_1 p mrs))
    = Z.max 0 (Zdigits2 (shr_m mrs) - Zpos p).
Proof.
  assert (forall mrs, 0 <= shr_m mrs ->
            Zdigits2 (shr_m (shr_1 mrs)) = Z.max 0 (Zdigits2 (shr_m mrs) - 1))
    as Hone.
  { intros mrs H. rewrite shr_1_div2 by exact H. apply Zdigits2_div2, H. }
  induction p as [p IH | p IH | ]; intros mrs H; simpl SpecFloat.iter_pos.
  - rewrite IH by (apply iter_pos_shr_1_nonneg, shr_1_nonneg, H).
    rewrite IH by (apply shr_1_nonneg, H).
    rewrite Hone by exact H. lia.
  - rewrite IH by (apply iter_pos_shr_1_nonneg, H).
    rewrite IH by exact H. lia.
  - apply Hone, H.
Qed.

Lemma shr_exponent (mrs : shr_record) (e n : Z) :
  snd (shr mrs e n) = e + Z.max 0 n.
Proof. destruct n; simpl; lia. Qed.

Lemma shr_digits (mrs : shr_record) (e n : Z) :
  0 <= shr_m mrs ->
  Zdigits2 (shr_m (fst (shr mrs e n)))
  = Z.max 0 (Zdigits2 (shr_m mrs) - Z.max 0 n).
Proof.
  intros H. pose proof (Zdigits2_nonneg (shr_m mrs)).
  destruct n as [ | p | p]; simpl; [ lia | | lia ].
  rewrite iter_pos_shr_1_digits by exact H. lia.
Qed.

Lemma shr_m_of_loc (m : Z) (l : location) : shr_m (shr_record_of_loc m l) = m.
Proof. destruct l as [ | [ | | ] ]; reflexivity. Qed.

Lemma round_nearest_even_digits (m : Z) (l : location) :
  0 <= m -> Zdigits2 (round_nearest_even m l) <= Zdigits2 m + 1.
Proof.
  intros H. pose proof (Zdigits2_succ m H).
  destruct l as [ | [ | | ] ]; simpl; try lia.
  destruct (Z.even m); lia.
Qed.

Lemma mag_le_finite (x : float) (k : Z) : mag_le x k -> Float.is_finite x = true.
Proof. destruct x; simpl; intros H; solve [ reflexivity | destruct H ]. Qed.

Lemma mag_le_mono (x : float) (k k' : Z) : k <= k' -> mag_le x k -> mag_le x k'.
Proof. destruct x; simpl; intros; lia || assumption. Qed.

(** Rounding raises the magnitude by one binary digit at most, and so
    does not overflow as long as there is room for that digit. *)
Lemma binary_round_aux_mag (sx : bool) (mx ex : Z) (lx : location) (k : Z) :
  0 <= mx -> ex <= 971 ->
  Zdigits2 mx + ex + 1 <= k -> -1073 <= k -> k <= 1024 ->
  mag_le (binary_round_aux Float.prec Float.emax sx mx ex lx) k.
Proof.
  intros Hmx Hex Hk Hlow Hhigh. unfold binary_round_aux.
  pose proof (shr_fexp_nonneg mx ex lx Hmx) as Hm1.
  pose proof (shr_exponent (shr_record_of_loc mx lx) ex
                (fexp Float.prec Float.emax (Zdigits2 mx + ex) - ex)) as He1.
  pose proof (shr_digits (shr_record_of_loc mx lx) ex
                (fexp Float.prec Float.emax (Zdigits2 mx + ex) - ex)) as Hd1.
  rewrite shr_m_of_loc in Hd1. specialize (Hd1 Hmx).
  fold (shr_fexp Float.prec Float.emax mx ex lx) in He1, Hd1.
  destruct (shr_fexp Float.prec Float.emax mx ex lx) as [mrs' e'].
  simpl in Hm1, He1, Hd1.
  set (m'' := round_nearest_even (shr_m mrs') (loc_of_shr_record mrs')).
  pose proof (round_nearest_even_nonneg _ (loc_of_shr_record mrs') Hm1) as Hm2.
  pose proof (round_nearest_even_digits _ (loc_of_shr_record mrs') Hm1) as Hd2.
  fold m'' in Hm2, Hd2.
  pose proof (shr_fexp_nonneg m'' e' loc_Exact Hm2) as Hm3.
  pose proof (shr_exponent (shr_record_of_loc m'' loc_Exact) e'
                (fexp Float.prec Float.emax (Zdigits2 m'' + e') - e')) as He3.
  pose proof (shr_digits (shr_record_of_loc m'' loc_Exact) e'
                (fexp Float.prec Float.emax (Zdigits2 m'' + e') - e')) as Hd3.
  rewrite shr_m_of_loc in Hd3. specialize (Hd3 Hm2).
  fold (shr_fexp Float.prec Float.emax m'' e' loc_Exact) in He3, Hd3.
  destruct (shr_fexp Float.prec Float.emax m'' e' loc_Exact) as [mrs'' e''].
  simpl in Hm3, He3, Hd3.
  rewrite fexp_binary64 in *.
  pose proof (Zdigits2_nonneg mx). pose proof (Zdigits2_nonneg m'').
  pose proof (Zdigits2_nonneg (shr_m mrs')).
  destruct (shr_m mrs'') as [ | m | m ] eqn:Em; simpl; [ exact I | | lia ].
  simpl in Hd3.
  assert (e'' <= 971) as Hfin by lia.
  apply Z.leb_le in Hfin.
  change (Float.emax - Float.prec) with 971. rewrite Hfin. simpl. lia.
Qed.

Lemma iter_xO_value (m d : positive) :
  Zpos (Pos.iter xO m d) = Zpos m * 2 ^ Zpos d.
Proof.
  induction d as [ | d IH] using Pos.peano_ind.
  - simpl. lia.
  - rewrite Pos.iter_succ, Pos2Z.inj_succ, Z.pow_succ_r by lia.
    rewrite Pos2Z.inj_xO, IH. lia.
Qed.

Lemma iter_xO_digits (m d : positive) :
  Zpos (digits2_pos (Pos.iter xO m d)) = Zpos (digits2_pos m) + Zpos d.
Proof.
  induction d as [ | d IH] using Pos.peano_ind.
  - simpl. lia.
  - rewrite Pos.iter_succ, Pos2Z.inj_succ. simpl digits2_pos.
    rewrite Pos2Z.inj_succ, IH. lia.
Qed.

(** Aligning a mantissa to a lower exponent keeps the value and the
    magnitude. *)
Lemma shl_align_spec (mx : positive) (ex ex' : Z) :
  let '(mz, ez) := shl_align mx ex ex' in
  ez = Z.min ex ex'
  /\ Zpos mz = Zpos mx * 2 ^ (ex - ez)
  /\ Zpos (digits2_pos mz) + ez = Zpos (digits2_pos mx) + ex.
Proof.
  unfold shl_align. destruct (ex' - ex) as [ | d | d] eqn:E.
  - replace (Z.min ex ex') with ex by lia. rewrite Z.sub_diag. simpl.
    repeat split; lia.
  - replace (Z.min ex ex') with ex by lia. rewrite Z.sub_diag. simpl.
    repeat split; lia.
  - replace (Z.min ex ex') with ex' by lia.
    replace (ex - ex') with (Zpos d) by lia.
    rewrite iter_xO_value, iter_xO_digits. repeat split; lia.
Qed.

Lemma binary_round_mag (sx : bool) (mx : positive) (ex k : Z) :
  Zpos (digits2_pos mx) + ex + 1 <= k -> -1073 <= k -> k <= 1024 ->
  mag_le (binary_round Float.prec Float.emax sx mx ex) k.
Proof.
  intros Hk Hlow Hhigh. unfold binary_round.
  pose proof (shl_align_spec mx ex
                (fexp Float.prec Float.emax (Zpos (digits2_pos mx) + ex)))
    as H.
  destruct (shl_align mx ex _) as [mz ez]. destruct H as (Hez & _ & Hd).
  rewrite fexp_binary64 in Hez.
  apply binary_round_aux_mag; simpl Zdigits2; lia.
Qed.

Lemma binary_normalize_mag (m e : Z) (szero : bool) (k : Z) :
  Zdigits2 m + e + 1 <= k -> -1073 <= k -> k <= 1024 ->
  mag_le (binary_normalize Float.prec Float.emax m e szero) k.
Proof.
  intros Hk Hlow Hhigh.
  destruct m as [ | p | p]; simpl; [ exact I | | ];
    apply binary_round_mag; simpl in Hk; lia.
Qed.

(** The sign of a rounded result is the sign that was asked for. *)
Lemma binary_round_aux_sign (sx : bool) (mx ex : Z) (lx : location) :
  0 <= mx ->
  Float.signbit (binary_round_aux Float.prec Float.emax sx mx ex lx) = sx.
Proof.
  intros H. pose proof (binary_round_aux_not_nan sx mx ex lx H) as Hnan.
  unfold binary_round_aux in *.
  destruct (shr_fexp Float.prec Float.emax mx ex lx) as [mrs' e'].
  destruct (shr_fexp Float.prec Float.emax _ e' loc_Exact) as [mrs'' e''].
  destruct (shr_m mrs'') as [ | m | m ]; try reflexivity.
  - destruct (e'' <=? Float.emax - Float.prec); reflexivity.
  - discriminate Hnan.
Qed.

Lemma binary_round_sign (sx : bool) (mx : positive) (ex : Z) :
  Float.signbit (binary_round Float.prec Float.emax sx mx ex) = sx.
Proof.
  unfold binary_round. destruct (shl_align mx ex _) as [mz ez].
  apply binary_round_aux_sign. lia.
Qed.

Lemma binary_normalize_sign (m e : Z) (szero : bool) :
  Float.signbit (binary_normalize Float.prec Float.emax m e szero)
  = match m with Z0 => szero | Zpos _ => false | Zneg _ => true end.
Proof. destruct m; simpl; auto using binary_round_sign. Qed.

(** A float of the format has at most 53 binary digits and an exponent
    of at most 971. *)
Lemma is_float_finite (s : bool) (m : positive) (e : Z) :
  Float.is_float (S754_finite s m e) ->
  Zpos (digits2_pos m) <= 53 /\ -1074 <= e <= 971.
Proof.
  unfold Float.is_float. simpl. unfold bounded, canonical_mantissa.
  rewrite fexp_binary64. intros H.
  apply andb_true_iff in H as [Hc Hb].
  apply Z.eqb_eq in Hc. apply Z.leb_le in Hb.
  change (Float.emax - Float.prec) with 971 in Hb. lia.
Qed.

(** Shifting right divides the mantissa by a power of two. *)
Lemma iter_pos_shr_1_value (p : positive) :
  forall mrs,
    0 <= shr_m mrs ->
    shr_m (SpecFloat.iter_pos shr_1 p mrs) = shr_m mrs / 2 ^ Zpos p.
Proof.
  assert (forall mrs, 0 <= shr_m mrs -> shr_m (shr_1 mrs) = shr_m mrs / 2)
    as Hone.
  { intros mrs H. rewrite shr_1_div2 by exact H. apply Z.div2_div. }
  induction p as [p IH | p IH | ]; intros mrs H; simpl SpecFloat.iter_pos.
  - rewrite IH by (apply iter_pos_shr_1_nonneg, shr_1_nonneg, H).
    rewrite IH by (apply shr_1_nonneg, H).
    rewrite Hone by exact H.
    assert (0 < 2 ^ Zpos p) by (apply Z.pow_pos_nonneg; lia).
    rewrite !Z.div_div by lia. f_equal.
    replace (Zpos p~1) with (1 + Zpos p + Zpos p) by lia.
    rewrite !Z.pow_add_r by lia. change (2 ^ 1) with 2. lia.
  - rewrite IH by (apply iter_pos_shr_1_nonneg, H).
    rewrite IH by exact H.
    assert (0 < 2 ^ Zpos p) by (apply Z.pow_pos_nonneg; lia).
    rewrite Z.div_div by lia. f_equal.
    replace (Zpos p~0) with (Zpos p + Zpos p) by lia.
    rewrite Z.pow_add_r by lia. lia.
  - rewrite Hone by exact H. reflexivity.
Qed.

(** A mantissa whose dropped digits are all zero is shifted exactly. *)
Lemma shr_1_exact (k : Z) (mrs : shr_record) :
  0 <= k -> shifts_exactly (k + 1) mrs -> shifts_exactly k (shr_1 mrs).
Proof.
  intros Hk (Hr & Hs & Hm & Hdiv).
  destruct mrs as [m r s]. simpl in *. subst r s.
  rewrite Z.pow_add_r in Hdiv by lia. change (2 ^ 1) with 2 in Hdiv.
  assert (0 < 2 ^ k) as Hpow by (apply Z.pow_pos_nonneg; lia).
  apply Z.mod_divide in Hdiv; [ | lia ]. destruct Hdiv as [q Hq].
  assert (m = 2 * (q * 2 ^ k)) as Hm2 by lia.
  assert (0 <= q * 2 ^ k) as Hq0 by lia.
  destruct m as [ | [p | p | ] | p]; try lia; simpl; unfold shifts_exactly; simpl.
  - repeat split; lia.
  - repeat split; try lia.
    replace (Zpos p) with (q * 2 ^ k) by lia. apply Z.mod_mul. lia.
Qed.

Lemma iter_pos_shr_1_exact (p : positive) :
  forall k mrs,
    0 <= k -> shifts_exactly (k + Zpos p) mrs ->
    shifts_exactly k (SpecFloat.iter_pos shr_1 p mrs).
Proof.
  induction p as [p IH | p IH | ]; intros k mrs Hk H; simpl SpecFloat.iter_pos.
  - apply IH; [ exact Hk | ]. apply IH; [ lia | ].
    apply shr_1_exact; [ lia | ].
    replace (k + Zpos p + Zpos p + 1) with (k + Zpos p~1) by lia. exact H.
  - apply IH; [ exact Hk | ]. apply IH; [ lia | ].
    replace (k + Zpos p + Zpos p) with (k + Zpos p~0) by lia. exact H.
  - apply shr_1_exact; assumption.
Qed.

(** Rounding a number that is not above the largest float of the format
    does not overflow. *)
Lemma binary_round_aux_bounded (sx : bool) (mx : positive) (ex : Z) :
  ex <= 971 ->
  Zpos mx <= (2 ^ 53 - 1) * 2 ^ (971 - ex) ->
  mag_le (binary_round_aux Float.prec Float.emax sx (Zpos mx) ex loc_Exact)
    1024.
Proof.
  intros Hex Hbound.
  assert (0 < 2 ^ (971 - ex)) as Hpow by (apply Z.pow_pos_nonneg; lia).
  assert (Zpos (digits2_pos mx) <= 53 + (971 - ex)) as Hd.
  { apply digits2_pos_bound; [ lia | ].
    rewrite Z.pow_add_r by lia. nia. }
  destruct (Z_le_gt_dec (Zpos (digits2_pos mx) + ex) 1023) as [Hslack | Htop].
  { apply binary_round_aux_mag; simpl Zdigits2; lia. }
  assert (Zpos (digits2_pos mx) = 53 + (971 - ex)) as Hdeq by lia.
  unfold binary_round_aux, shr_fexp. simpl Zdigits2.
  rewrite fexp_binary64.
  replace (Z.max (Zpos (digits2_pos mx) + ex - 53) (-1074) - ex)
    with (971 - ex) by lia.
  simpl shr_record_of_loc.
  (* the mantissa after the first shift *)
  assert (exists mrs',
             shr {| shr_m := Zpos mx; shr_r := false; shr_s := false |} ex
               (971 - ex) = (mrs', 971)
             /\ 0 <= shr_m mrs' <= 2 ^ 53 - 1
             /\ (shr_m mrs' = 2 ^ 53 - 1 ->
                 loc_of_shr_record mrs' = loc_Exact)) as (mrs' & -> & Hm' & Hexact).
  { destruct (971 - ex) as [ | n | n] eqn:En; [ | | lia ].
    - eexists. split; [ simpl; f_equal; lia | ].
      simpl. rewrite Z.mul_1_r in Hbound. split; [ lia | reflexivity ].
    - eexists. split; [ simpl; f_equal; lia | ].
      rewrite iter_pos_shr_1_value by (simpl; lia). simpl shr_m at 1 2 3.
      assert (0 < 2 ^ Zpos n) as Hn by (apply Z.pow_pos_nonneg; lia).
      assert (Zpos mx / 2 ^ Zpos n <= 2 ^ 53 - 1) as Hq.
      { apply Z.div_le_upper_bound; lia. }
      split; [ split; [ apply Z.div_pos; lia | exact Hq ] | ].
      intros Htop'.
      assert (Zpos mx = (2 ^ 53 - 1) * 2 ^ Zpos n) as Hmx.
      { pose proof (Z.mul_div_le (Zpos mx) (2 ^ Zpos n) Hn). lia. }
      destruct (iter_pos_shr_1_exact n 0
                  {| shr_m := Zpos mx; shr_r := false; shr_s := false |})
        as (Hr & Hs & _); [ lia | | ].
      { repeat split; simpl; try lia. rewrite Hmx. apply Z.mod_mul. lia. }
      destruct (SpecFloat.iter_pos shr_1 n _) as [m r s]; simpl in *.
      subst r s. reflexivity. }
  set (m'' := round_nearest_even (shr_m mrs') (loc_of_shr_record mrs')).
  assert (0 <= m'' <= 2 ^ 53 - 1) as Hm''.
  { unfold m''.
    destruct (Z.eq_dec (shr_m mrs') (2 ^ 53 - 1)) as [E | E].
    - rewrite (Hexact E). simpl. lia.
    - destruct (loc_of_shr_record mrs') as [ | [ | | ] ]; simpl; try lia.
      destruct (Z.even (shr_m mrs')); lia. }
  assert (Zdigits2 m'' <= 53) as HD.
  { destruct m'' as [ | p | p]; simpl; [ lia | | lia ].
    apply digits2_pos_bound; lia. }
  pose proof (Zdigits2_nonneg m'').
  rewrite fexp_binary64.
  replace (Z.max (Zdigits2 m'' + 971 - 53) (-1074) - 971)
    with (- (53 - Zdigits2 m'')) by lia.
  assert (shr {| shr_m := m''; shr_r := false; shr_s := false |} 971
            (- (53 - Zdigits2 m''))
          = ({| shr_m := m''; shr_r := false; shr_s := false |}, 971)) as ->.
  { destruct (53 - Zdigits2 m'') eqn:E; simpl; try reflexivity; lia. }
  simpl shr_m. destruct m'' as [ | p | p]; simpl; [ exact I | | lia ].
  simpl in HD. lia.
Qed.

Lemma binary_round_bounded (sx : bool) (mx : positive) (ex : Z) :
  ex <= 971 ->
  Zpos mx <= (2 ^ 53 - 1) * 2 ^ (971 - ex) ->
  mag_le (binary_round Float.prec Float.emax sx mx ex) 1024.
Proof.
  intros Hex Hbound. unfold binary_round.
  pose proof (shl_align_spec mx ex
                (fexp Float.prec Float.emax (Zpos (digits2_pos mx) + ex)))
    as H.
  destruct (shl_align mx ex _) as [mz ez]. destruct H as (Hez & Hval & _).
  apply binary_round_aux_bounded; [ lia | ].
  rewrite Hval.
  replace (971 - ez) with ((971 - ex) + (ex - ez)) by lia.
  rewrite Z.pow_add_r by lia.
  assert (0 < 2 ^ (ex - ez)) by (apply Z.pow_pos_nonneg; lia).
  nia.
Qed.

Lemma Zdigits2_cond_Zopp (s : bool) (m : Z) :
  Zdigits2 (cond_Zopp s m) = Zdigits2 m.
Proof. destruct s, m; reflexivity. Qed.

(** A non-negative number below [2^k] has at most [k] binary digits. *)
Lemma Zdigits2_bound (m k : Z) :
  0 <= k -> 0 <= m < 2 ^ k -> Zdigits2 m <= k.
Proof.
  intros Hk [H0 Hm]. destruct m as [ | p | p]; simpl; [ lia | | lia ].
  apply digits2_pos_bound; assumption.
Qed.

Lemma signbit_false_not_negative (x : float) :
  Float.signbit x = false -> Float.ltb x Float.zero = false.
Proof.
  destruct x as [ [|] | [|] | | [|] m e ]; simpl; intros H;
    solve [ reflexivity | discriminate H ].
Qed.

(** The order of two positive finite floats, read off their exponents
    and mantissas. *)
Lemma ltb_finite_positive (m1 m2 : positive) (e1 e2 : Z) :
  Float.ltb (S754_finite false m1 e1) (S754_finite false m2 e2) = true ->
  e1 < e2 \/ (e1 = e2 /\ (m1 < m2)%positive).
Proof.
  unfold Float.ltb, SFltb. simpl.
  destruct (e1 ?= e2) eqn:Ec; intros Hlt; try discriminate Hlt.
  - right. split; [ apply Z.compare_eq, Ec | ].
    destruct (Pos.compare_cont Eq m1 m2) eqn:Em; try discriminate Hlt.
    exact Em.
  - left. apply Z.compare_lt_iff, Ec.
Qed.

(** A float of the format that is below one has its leading digit below
    the binary point. *)
Lemma below_one_mag (m : positive) (e : Z) :
  Float.is_float (S754_finite false m e) ->
  Float.ltb (S754_finite false m e) Float.one = true ->
  Zpos (digits2_pos m) + e <= 0.
Proof.
  intros Hf Hlt. apply is_float_finite in Hf as [Hd He].
  apply ltb_finite_positive in Hlt as [Hlt | [-> Hlt]]; [ lia | ].
  assert (Zpos (digits2_pos m) <= 52) as H52.
  { apply digits2_pos_bound; [ discriminate | ].
    apply Pos2Z.pos_lt_pos in Hlt. exact Hlt. }
  clear Hlt. lia.
Qed.

(** Milliseconds of less than a second: the product does not overflow. *)
Lemma mul_thousand_below_one (s : float) :
  Float.is_float s -> Float.is_finite s = true -> Float.signbit s = false ->
  Float.ltb s Float.one = true ->
  mag_le (Float.mul s Float.thousand) 11
  /\ Float.signbit (Float.mul s Float.thousand) = false.
Proof.
  intros Hf Hfin Hs Hlt.
  destruct s as [sx | sx | | sx m e]; try discriminate Hfin; simpl in Hs; subst sx.
  - split; [ exact I | reflexivity ].
  - pose proof (below_one_mag m e Hf Hlt) as Hmag.
    apply is_float_finite in Hf as [Hd He].
    unfold Float.mul, Float.thousand. simpl SFmul. split.
    + apply binary_round_aux_mag; try lia.
      assert (Zdigits2 (Zpos (m * 8796093022208000))
              <= Zpos (digits2_pos m) + 53); [ | lia ].
      apply Zdigits2_bound; [ lia | ].
      pose proof (digits2_pos_lt m).
      rewrite Z.pow_add_r by lia.
      change (2 ^ 53) with 9007199254740992.
      rewrite Pos2Z.inj_mul. nia.
    + apply binary_round_aux_sign. lia.
Qed.

(** The remainder of a division by sixty is small and has the sign of
    the dividend. *)
Lemma fmod_sixty_mag (x : float) :
  Float.is_finite x = true ->
  mag_le (Float.fmod x Float.sixty) 7
  /\ Float.signbit (Float.fmod x Float.sixty) = Float.signbit x.
Proof.
  intros Hfin.
  destruct x as [sx | sx | | sx mx ex]; try discriminate Hfin.
  - split; [ exact I | reflexivity ].
  - unfold Float.fmod, Float.sixty.
    set (ez := Z.min ex (-47)).
    set (X := Zpos mx * 2 ^ (ex - ez)).
    set (Y := 8444249301319680 * 2 ^ (-47 - ez)).
    assert (0 < 2 ^ (-47 - ez)) as Hpow by (apply Z.pow_pos_nonneg; lia).
    assert (0 < Y) as HY by (unfold Y; lia).
    pose proof (Z.mod_pos_bound X Y HY) as [Hr0 Hr].
    split.
    + apply binary_normalize_mag; try lia.
      rewrite Zdigits2_cond_Zopp.
      assert (Zdigits2 (X mod Y) <= 6 - ez); [ | lia ].
      apply Zdigits2_bound; [ lia | ]. split; [ exact Hr0 | ].
      replace (6 - ez) with (53 + (-47 - ez)) by lia.
      rewrite Z.pow_add_r by lia.
      change (2 ^ 53) with 9007199254740992.
      apply (Z.lt_trans _ _ _ Hr). unfold Y.
      apply Z.mul_lt_mono_pos_r; [ exact Hpow | reflexivity ].
    + rewrite binary_normalize_sign.
      destruct (X mod Y) as [ | r | r]; destruct sx; simpl; try reflexivity; lia.
Qed.

(** Taking a small non-negative float from a non-negative float of the
    format does not overflow. *)
Lemma sub_small_mag (x y : float) :
  Float.is_float x -> Float.is_finite x = true -> Float.signbit x = false ->
  mag_le y 7 -> Float.signbit y = false ->
  mag_le (Float.sub x y) 1024.
Proof.
  intros Hf Hfin Hsx Hy Hsy.
  destruct x as [sx | sx | | sx mx ex]; try discriminate Hfin;
    simpl in Hsx; subst sx;
    destruct y as [sy | sy | | sy my ey]; try (destruct Hy; fail);
    simpl in Hsy; subst sy.
  - exact I.
  - simpl in *. lia.
  - apply is_float_finite in Hf. simpl. lia.
  - apply is_float_finite in Hf as [Hd He]. simpl in Hy.
    unfold Float.sub. simpl SFsub. cbv zeta.
    set (ez := Z.min ex ey).
    pose proof (shl_align_spec mx ex ez) as Hx.
    pose proof (shl_align_spec my ey ez) as Hyy.
    destruct (shl_align mx ex ez) as [X ezx].
    destruct (shl_align my ey ez) as [R ezy].
    destruct Hx as (Hezx & HX & _). destruct Hyy as (Hezy & HR & _).
    replace (Z.min ex ez) with ez in Hezx by lia.
    replace (Z.min ey ez) with ez in Hezy by lia.
    subst ezx ezy.
    simpl fst. simpl cond_Zopp.
    assert (0 < 2 ^ (ex - ez)) by (apply Z.pow_pos_nonneg; lia).
    assert (0 < 2 ^ (ey - ez)) by (apply Z.pow_pos_nonneg; lia).
    destruct (Zpos X - Zpos R) as [ | p | p] eqn:E; simpl.
    + exact I.
    + apply binary_round_bounded; [ lia | ].
      assert (Zpos mx <= 2 ^ 53 - 1) as Hmx.
      { pose proof (digits2_pos_lt mx).
        assert (2 ^ Zpos (digits2_pos mx) <= 2 ^ 53)
          by (apply Z.pow_le_mono_r; lia).
        lia. }
      assert (2 ^ (ex - ez) <= 2 ^ (971 - ez))
        by (apply Z.pow_le_mono_r; lia).
      change (2 ^ 53 - 1) with 9007199254740991 in *.
      apply (Z.le_trans _ (Zpos X)); [ lia | ]. rewrite HX.
      apply (Z.le_trans _ (9007199254740991 * 2 ^ (ex - ez))).
      * apply Z.mul_le_mono_nonneg_r; lia.
      * apply Z.mul_le_mono_nonneg_l; lia.
    + apply (mag_le_mono _ 8); [ lia | ].
      apply binary_round_mag; try lia.
      assert (Zpos (digits2_pos p) <= 7 - ez); [ | lia ].
      apply digits2_pos_bound; [ lia | ].
      pose proof (digits2_pos_lt my) as Hmy.
      assert (Zpos my * 2 ^ (ey - ez) < 2 ^ (7 - ez)); [ | lia ].
      replace (7 - ez) with ((7 - ey) + (ey - ez)) by lia.
      rewrite Z.pow_add_r by lia.
      assert (2 ^ Zpos (digits2_pos my) <= 2 ^ (7 - ey))
        by (apply Z.pow_le_mono_r; lia).
      apply Z.mul_lt_mono_pos_r; lia.
Qed.

(** The quotient of two finite floats: its magnitude is the difference
    of their magnitudes, up to two binary digits. *)
Lemma div_finite_mag (sx sy : bool) (mx my : positive) (ex ey k : Z) :
  Zpos (digits2_pos mx) + ex - (Zpos (digits2_pos my) + ey) + 2 <= k ->
  -1073 <= k -> k <= 1024 ->
  mag_le (Float.div (S754_finite sx mx ex) (S754_finite sy my ey)) k.
Proof.
  intros Hk Hlow Hhigh.
  unfold Float.div, SFdiv, SFdiv_core_binary. simpl Zdigits2.
  rewrite fexp_binary64.
  set (d1 := Zpos (digits2_pos mx)) in *.
  set (d2 := Zpos (digits2_pos my)) in *.
  set (e' := Z.min (Z.max (d1 + ex - (d2 + ey) - 53) (-1074)) (ex - ey)).
  set (s := ex - ey - e').
  set (m' := match s with
             | 0 => Zpos mx
             | Zpos _ => Z.shiftl (Zpos mx) s
             | Zneg _ => 0
             end).
  assert (0 <= s) as Hs by (unfold s, e'; lia).
  assert (m' = Zpos mx * 2 ^ s) as Hm'.
  { unfold m'. destruct s as [ | ps | ps] eqn:Es; [ simpl; lia | | lia ].
    apply Z.shiftl_mul_pow2. lia. }
  clearbody m'.
  assert (0 < 2 ^ s) as Hpow by (apply Z.pow_pos_nonneg; lia).
  pose proof (Z_div_mod m' (Zpos my) eq_refl) as Hdiv.
  destruct (Z.div_eucl m' (Zpos my)) as [q r].
  destruct Hdiv as [Hq Hr].
  assert (0 <= m') as Hm0 by (rewrite Hm'; lia).
  assert (0 <= q) as Hq0.
  { destruct (Z_le_gt_dec 0 q) as [H | H]; [ exact H | ].
    assert (Zpos my * q <= Zpos my * (-1))
      by (apply Z.mul_le_mono_nonneg_l; lia).
    lia. }
  assert (0 < d1) as Hd1 by (unfold d1; lia).
  assert (0 < d2) as Hd2 by (unfold d2; lia).
  pose proof (digits2_pos_lt mx) as Hmx. fold d1 in Hmx.
  pose proof (digits2_pos_le my) as Hmy. fold d2 in Hmy.
  assert (m' < 2 ^ (d1 + s)) as Hm'lt.
  { rewrite Hm', Z.pow_add_r by lia. apply Z.mul_lt_mono_pos_r; lia. }
  assert (2 ^ (d2 - 1) * q <= m') as Hlow_q.
  { apply (Z.le_trans _ (Zpos my * q)); [ | lia ].
    apply Z.mul_le_mono_nonneg_r; lia. }
  assert (Zdigits2 q <= Z.max 0 (d1 + s - (d2 - 1))) as Hdq.
  { destruct (Z_le_gt_dec (d2 - 1) (d1 + s)) as [Hge | Hlt].
    - replace (Z.max 0 (d1 + s - (d2 - 1))) with (d1 + s - (d2 - 1)) by lia.
      apply Zdigits2_bound; [ lia | ]. split; [ exact Hq0 | ].
      assert (2 ^ (d1 + s) = 2 ^ (d2 - 1) * 2 ^ (d1 + s - (d2 - 1))) as Hsplit.
      { rewrite <- Z.pow_add_r by lia. f_equal. lia. }
      assert (0 < 2 ^ (d2 - 1)) by (apply Z.pow_pos_nonneg; lia).
      apply (Z.mul_lt_mono_pos_l (2 ^ (d2 - 1))); [ assumption | ].
      rewrite <- Hsplit. lia.
    - replace (Z.max 0 (d1 + s - (d2 - 1))) with 0 by lia.
      assert (q = 0); [ | subst q; simpl; lia ].
      assert (2 ^ (d1 + s) <= 2 ^ (d2 - 1)) by (apply Z.pow_le_mono_r; lia).
      destruct (Z.eq_dec q 0) as [E | E]; [ exact E | ].
      assert (2 ^ (d2 - 1) * 1 <= 2 ^ (d2 - 1) * q)
        by (apply Z.mul_le_mono_nonneg_l; lia).
      lia. }
  cbv beta iota zeta.
  apply binary_round_aux_mag; unfold s, e' in *; lia.
Qed.

(** Dividing a finite float by sixty does not overflow. *)
Lemma div_sixty_mag (x : float) :
  mag_le x 1024 -> mag_le (Float.div x Float.sixty) 1020.
Proof.
  intros Hx.
  destruct x as [sx | sx | | sx mx ex]; try (destruct Hx; fail).
  - exact I.
  - simpl in Hx. unfold Float.sixty. apply div_finite_mag; try lia.
    change (Zpos (digits2_pos 8444249301319680)) with 53. lia.
Qed.

Lemma Zdigits2_opp (m : Z) : Zdigits2 (- m) = Zdigits2 m.
Proof. destruct m; reflexivity. Qed.

(** A number of absolute value below [2^k] has at most [k] binary
    digits. *)
Lemma Zdigits2_abs_bound (m k : Z) :
  0 <= k -> - 2 ^ k < m < 2 ^ k -> Zdigits2 m <= k.
Proof.
  intros Hk Hm. destruct (Z_le_gt_dec 0 m) as [H | H].
  - apply Zdigits2_bound; lia.
  - rewrite <- Zdigits2_opp. apply Zdigits2_bound; lia.
Qed.

(** Rounding down to an integer raises the magnitude by two binary
    digits at most. *)
Lemma floor_mag (x : float) (k : Z) :
  mag_le x k -> 0 <= k -> k + 2 <= 1024 -> mag_le (Float.floor x) (k + 2).
Proof.
  intros Hx Hk Hhigh.
  destruct x as [sx | sx | | sx m e]; try (destruct Hx; fail).
  - exact I.
  - simpl in Hx. unfold Float.floor.
    destruct (0 <=? e) eqn:He; [ simpl; lia | ].
    apply Z.leb_gt in He.
    apply binary_normalize_mag; try lia.
    set (j := - e). assert (0 < j) as Hj by (unfold j; lia).
    assert (0 < 2 ^ j) as Hpow by (apply Z.pow_pos_nonneg; lia).
    set (a := cond_Zopp sx (Zpos m)).
    pose proof (Z.div_mod a (2 ^ j) ltac:(lia)) as Hdiv.
    pose proof (Z.mod_pos_bound a (2 ^ j) Hpow) as Hr.
    set (n := a / 2 ^ j) in *. set (r := a mod 2 ^ j) in *.
    pose proof (digits2_pos_lt m) as Hm.
    set (d := Zpos (digits2_pos m)) in *.
    assert (0 < d) as Hd by (unfold d; lia).
    assert (Zdigits2 n <= k + 1); [ | lia ].
    apply Zdigits2_abs_bound; [ lia | ].
    assert (- 2 ^ d <= a <= 2 ^ d) as Ha by (unfold a; destruct sx; simpl; lia).
    clearbody a n r.
    assert (2 ^ j * 2 ^ (k + 1) = 2 ^ (j + k + 1)) as Hprod
        by (rewrite <- Z.pow_add_r by lia; f_equal; lia).
    assert (2 ^ d + 2 ^ j <= 2 ^ (j + k + 1)) as Hsum.
    { assert (2 ^ d <= 2 ^ (j + k)) by (apply Z.pow_le_mono_r; unfold j; lia).
      assert (2 ^ j <= 2 ^ (j + k)) by (apply Z.pow_le_mono_r; lia).
      replace (j + k + 1) with (Z.succ (j + k)) by lia.
      rewrite Z.pow_succ_r by lia. lia. }
    split.
    + apply (Z.mul_lt_mono_pos_l (2 ^ j)); [ exact Hpow | ]. lia.
    + apply (Z.mul_lt_mono_pos_l (2 ^ j)); [ exact Hpow | ]. lia.
Qed.

(** A sum of two finite floats: its magnitude is two binary digits above
    theirs at most. *)
Lemma add_mag (x y : float) (k : Z) :
  mag_le x k -> mag_le y k -> -1075 <= k -> k + 2 <= 1024 ->
  mag_le (Float.add x y) (k + 2).
Proof.
  intros Hx Hy Hlow Hhigh.
  destruct x as [sx | sx | | sx mx ex]; try (destruct Hx; fail);
    destruct y as [sy | sy | | sy my ey]; try (destruct Hy; fail).
  - destruct sx, sy; exact I.
  - simpl in *. lia.
  - simpl in *. lia.
  - simpl in Hx, Hy. unfold Float.add. simpl SFadd. cbv zeta.
    set (ez := Z.min ex ey).
    pose proof (shl_align_spec mx ex ez) as Hxx.
    pose proof (shl_align_spec my ey ez) as Hyy.
    destruct (shl_align mx ex ez) as [X ezx].
    destruct (shl_align my ey ez) as [Y ezy].
    destruct Hxx as (Hezx & HX & HdX). destruct Hyy as (Hezy & HY & HdY).
    replace (Z.min ex ez) with ez in Hezx by lia.
    replace (Z.min ey ez) with ez in Hezy by lia.
    subst ezx ezy. simpl fst.
    apply binary_normalize_mag; try lia.
    assert (Zdigits2 (cond_Zopp sx (Zpos X) + cond_Zopp sy (Zpos Y))
            <= k - ez + 1); [ | lia ].
    pose proof (digits2_pos_lt X) as HXlt.
    pose proof (digits2_pos_lt Y) as HYlt.
    assert (2 ^ Zpos (digits2_pos X) <= 2 ^ (k - ez))
      by (apply Z.pow_le_mono_r; lia).
    assert (2 ^ Zpos (digits2_pos Y) <= 2 ^ (k - ez))
      by (apply Z.pow_le_mono_r; lia).
    apply Zdigits2_abs_bound; [ lia | ].
    replace (k - ez + 1) with (Z.succ (k - ez)) by lia.
    rewrite Z.pow_succ_r by lia.
    destruct sx, sy; simpl; lia.
Qed.

Lemma mag_le_one : mag_le Float.one 1.
Proof. vm_compute. discriminate. Qed.

(** Whole minutes and remaining seconds of a non-negative finite float:
    the quotient by sixty is finite, the remainder is finite, small and
    not negative. *)
Lemma div_mod_sixty (s : float) :
  Float.is_float s -> Float.is_finite s = true -> Float.signbit s = false ->
  mag_le (fst (Float.div_mod s Float.sixty)) 1024
  /\ mag_le (snd (Float.div_mod s Float.sixty)) 7
  /\ Float.signbit (snd (Float.div_mod s Float.sixty)) = false.
Proof.
  intros Hf Hfin Hs.
  destruct (fmod_sixty_mag s Hfin) as [Hmod Hmods]. rewrite Hs in Hmods.
  pose proof (sub_small_mag s _ Hf Hfin Hs Hmod Hmods) as Hsub.
  apply div_sixty_mag in Hsub.
  unfold Float.div_mod.
  set (mod0 := Float.fmod s Float.sixty) in *.
  set (div0 := Float.div (Float.sub s mod0) Float.sixty) in *.
  change (Float.ltb Float.sixty Float.zero) with false.
  rewrite (signbit_false_not_negative mod0 Hmods).
  change (xorb false false) with false. cbv iota.
  assert (forall md,
             (md = mod0 \/ md = S754_zero false) ->
             mag_le
               (fst (let '(md, dv) := (md, div0) in
                     (if Float.nonzero dv
                      then let fl := Float.floor dv in
                           if Float.ltb Float.half (Float.sub dv fl)
                           then Float.add fl Float.one else fl
                      else Float.zero_like (Float.div s Float.sixty), md)))
               1024
             /\ mag_le
                  (snd (let '(md, dv) := (md, div0) in
                        (if Float.nonzero dv
                         then let fl := Float.floor dv in
                              if Float.ltb Float.half (Float.sub dv fl)
                              then Float.add fl Float.one else fl
                         else Float.zero_like (Float.div s Float.sixty), md)))
                  7
             /\ Float.signbit
                  (snd (let '(md, dv) := (md, div0) in
                        (if Float.nonzero dv
                         then let fl := Float.floor dv in
                              if Float.ltb Float.half (Float.sub dv fl)
                              then Float.add fl Float.one else fl
                         else Float.zero_like (Float.div s Float.sixty), md)))
                = false) as Hboth.
  { intros md Hmd. cbv beta iota zeta. simpl fst. simpl snd. split.
    - destruct (Float.nonzero div0).
      + pose proof (floor_mag div0 1020 Hsub ltac:(lia) ltac:(lia)) as Hfl.
        destruct (Float.ltb Float.half (Float.sub div0 (Float.floor div0))).
        * apply (add_mag _ _ 1022); try lia; [ exact Hfl | ].
          apply (mag_le_mono _ 1); [ lia | exact mag_le_one ].
        * apply (mag_le_mono _ 1022); [ lia | exact Hfl ].
      + exact I.
    - destruct Hmd as [-> | ->]; [ split; assumption | split; [ exact I | reflexivity ] ]. }
  destruct (Float.nonzero mod0).
  - apply Hboth. left. reflexivity.
  - apply Hboth. right. reflexivity.
Qed.

(* --------------------------------------------------------------------- *)
(** ** Floats: the sign of the quotient by sixty *)
(* --------------------------------------------------------------------- *)

(** A number of at most 53 binary digits, above the subnormal range, is
    a float as it stands: rounding it only aligns it. *)
Lemma binary_round_exact (sx : bool) (mx : positive) (ex : Z) :
  Zpos (digits2_pos mx) <= 53 ->
  -1074 <= Zpos (digits2_pos mx) + ex - 53 ->
  Zpos (digits2_pos mx) + ex <= 1024 ->
  exists mz,
    binary_round Float.prec Float.emax sx mx ex
    = S754_finite sx mz (Zpos (digits2_pos mx) + ex - 53)
    /\ Zpos mz = Zpos mx * 2 ^ (53 - Zpos (digits2_pos mx)).
Proof.
  intros Hd Hlow Hhigh. unfold binary_round.
  pose proof (shl_align_spec mx ex
                (fexp Float.prec Float.emax (Zpos (digits2_pos mx) + ex)))
    as H.
  destruct (shl_align mx ex _) as [mz ez]. destruct H as (Hez & Hval & Hdig).
  rewrite fexp_binary64 in Hez.
  assert (ez = Zpos (digits2_pos mx) + ex - 53) as Hez' by lia.
  assert (Zpos (digits2_pos mz) = 53) as Hdz by lia.
  exists mz. split.
  - assert (Zdigits2 (Zpos mz) = 53) as HdZ by exact Hdz.
    unfold binary_round_aux, shr_fexp.
    rewrite HdZ, fexp_binary64.
    replace (Z.max (53 + ez - 53) (-1074) - ez) with 0 by lia.
    simpl shr. cbv beta iota zeta.
    change (round_nearest_even
              (shr_m {| shr_m := Zpos mz; shr_r := false; shr_s := false |})
              (loc_of_shr_record
                 {| shr_m := Zpos mz; shr_r := false; shr_s := false |}))
      with (Zpos mz).
    rewrite HdZ, fexp_binary64.
    replace (Z.max (53 + ez - 53) (-1074) - ez) with 0 by lia.
    simpl shr. cbv beta iota zeta. simpl shr_m.
    change (Float.emax - Float.prec) with 971.
    assert ((ez <=? 971) = true) as -> by (apply Z.leb_le; lia).
    rewrite Hez'. reflexivity.
  - rewrite Hval. f_equal. f_equal. lia.
Qed.

(** The remainder by sixty of a float that is at least sixty is not
    above it: taking it away leaves a float that is not negative. *)
Lemma sub_fmod_sixty_sign (m : positive) (e : Z) :
  -47 <= e <= 971 ->
  Float.signbit
    (Float.sub (S754_finite false m e)
       (Float.fmod (S754_finite false m e) Float.sixty)) = false.
Proof.
  intros He. unfold Float.fmod, Float.sixty.
  replace (Z.min e (-47)) with (-47) by lia.
  rewrite Z.sub_diag, Z.mul_1_r.
  set (X := Zpos m * 2 ^ (e - -47)).
  assert (0 < 2 ^ (e - -47)) as Hpow by (apply Z.pow_pos_nonneg; lia).
  assert (0 < X) as HX by (unfold X; lia).
  pose proof (Z.mod_pos_bound X 8444249301319680 eq_refl) as [Hr0 Hr].
  pose proof (Z.mod_le X 8444249301319680 ltac:(lia) eq_refl) as HrX.
  destruct (X mod 8444249301319680) as [ | r | r] eqn:Er; [ | | lia ].
  - reflexivity.
  - simpl cond_Zopp. simpl binary_normalize.
    assert (Zpos (digits2_pos r) <= 53) as Hd.
    { apply digits2_pos_bound; [ lia | ].
      change (2 ^ 53) with 9007199254740992. lia. }
    destruct (binary_round_exact false r (-47) Hd ltac:(lia) ltac:(lia))
      as (mr & -> & Hmr).
    set (er := Zpos (digits2_pos r) + -47 - 53) in *.
    unfold Float.sub. simpl SFsub. cbv zeta.
    replace (Z.min e er) with er by (unfold er; lia).
    pose proof (shl_align_spec m e er) as Hx.
    pose proof (shl_align_spec mr er er) as Hy.
    destruct (shl_align m e er) as [X' ezx].
    destruct (shl_align mr er er) as [R' ezy].
    destruct Hx as (Hezx & HX' & _). destruct Hy as (Hezy & HR' & _).
    replace (Z.min e er) with er in Hezx by (unfold er; lia).
    rewrite Z.min_id in Hezy. subst ezx ezy.
    rewrite Z.sub_diag, Z.mul_1_r in HR'.
    simpl fst. simpl cond_Zopp.
    rewrite binary_normalize_sign.
    assert (Zpos R' <= Zpos X');
      [ | destruct (Zpos X' - Zpos R') eqn:E;
          [ reflexivity | reflexivity | lia ] ].
    rewrite HX', HR', Hmr.
    assert (0 < 2 ^ (53 - Zpos (digits2_pos r)))
      by (apply Z.pow_pos_nonneg; lia).
    assert (Zpos m * 2 ^ (e - er)
            = X * 2 ^ (53 - Zpos (digits2_pos r))) as ->.
    { unfold X. rewrite <- Z.mul_assoc, <- Z.pow_add_r by lia.
      f_equal. f_equal. unfold er. lia. }
    apply Z.mul_le_mono_nonneg_r; lia.
Qed.

Lemma div_sixty_sign (x : float) :
  Float.is_finite x = true ->
  Float.signbit (Float.div x Float.sixty) = Float.signbit x.
Proof.
  intros Hfin. destruct x as [s | s | | s m e]; try discriminate Hfin.
  - unfold Float.div, Float.sixty. simpl. destruct s; reflexivity.
  - unfold Float.div, Float.sixty, SFdiv.
    destruct (SFdiv_core_binary Float.prec Float.emax (Zpos m) e
                (Zpos 8444249301319680) (-47)) as [[mz ez] lz] eqn:E.
    assert (0 <= mz) as Hmz.
    { unfold SFdiv_core_binary in E.
      set (m' := match _ with 0 => Zpos m | Zpos _ => _ | Zneg _ => 0 end) in E.
      assert (0 <= m') as Hm'.
      { unfold m'. destruct (e - -47 - _) as [ | p | p]; try lia.
        apply Z.shiftl_nonneg. lia. }
      clearbody m'.
      pose proof (Z_div_mod m' (Zpos 8444249301319680) eq_refl) as Hdiv.
      destruct (Z.div_eucl m' (Zpos 8444249301319680)) as [q r].
      inversion E; subst. destruct Hdiv as [Hq Hr].
      destruct (Z_le_gt_dec 0 mz) as [H | H]; [ exact H | ].
      assert (8444249301319680 * mz <= 8444249301319680 * (-1))
        by (apply Z.mul_le_mono_nonneg_l; lia).
      lia. }
    rewrite (binary_round_aux_sign _ mz ez lz Hmz). destruct s; reflexivity.
Qed.

Lemma floor_sign (x : float) :
  Float.signbit x = false -> Float.signbit (Float.floor x) = false.
Proof.
  destruct x as [s | s | | s m e]; simpl; intros Hs; try exact Hs.
  subst s. destruct (0 <=? e) eqn:He; [ reflexivity | ].
  apply Z.leb_gt in He.
  rewrite binary_normalize_sign. simpl cond_Zopp.
  assert (0 <= Zpos m / 2 ^ (- e)) by (apply Z.div_pos; [ lia | ];
    apply Z.pow_pos_nonneg; lia).
  destruct (Zpos m / 2 ^ (- e)) eqn:E; [ reflexivity | reflexivity | lia ].
Qed.

Lemma add_one_sign (x : float) :
  Float.is_finite x = true -> Float.signbit x = false ->
  Float.signbit (Float.add x Float.one) = false.
Proof.
  intros Hfin Hs.
  destruct x as [s | s | | s m e]; try discriminate Hfin; simpl in Hs; subst s.
  - reflexivity.
  - unfold Float.add, Float.one. simpl SFadd. cbv zeta.
    destruct (shl_align m e _) as [X ezx].
    destruct (shl_align 4503599627370496 (-52) _) as [Y ezy].
    simpl fst. simpl cond_Zopp.
    change (Zpos X + Zpos Y) with (Zpos (X + Y)).
    apply binary_round_sign.
Qed.

Lemma trunc_nonneg (x : float) :
  Float.signbit x = false -> 0 <= Float.trunc x.
Proof.
  destruct x as [s | s | | s m e]; simpl; intros Hs; try lia.
  subst s. simpl.
  destruct (0 <=? e) eqn:He.
  - apply Z.leb_le in He.
    assert (0 < 2 ^ e) by (apply Z.pow_pos_nonneg; lia). lia.
  - apply Z.leb_gt in He. apply Z.div_pos; [ lia | ].
    apply Z.pow_pos_nonneg; lia.
Qed.

(** The whole minutes of a float that is at least sixty are not
    negative. *)
Lemma floordiv_sixty_sign (m : positive) (e : Z) :
  Float.is_float (S754_finite false m e) ->
  -47 <= e ->
  Float.signbit (fst (Float.div_mod (S754_finite false m e) Float.sixty))
  = false.
Proof.
  intros Hf He.
  pose proof (is_float_finite _ _ _ Hf) as [_ He'].
  pose proof (sub_fmod_sixty_sign m e ltac:(lia)) as Hsub.
  destruct (fmod_sixty_mag (S754_finite false m e) eq_refl) as [Hmod Hmods].
  pose proof (sub_small_mag _ _ Hf eq_refl eq_refl Hmod Hmods) as Hsubmag.
  pose proof (div_sixty_sign _ (mag_le_finite _ _ Hsubmag)) as Hdiv.
  rewrite Hsub in Hdiv.
  pose proof (div_sixty_mag _ Hsubmag) as Hdivmag.
  unfold Float.div_mod.
  set (mod0 := Float.fmod (S754_finite false m e) Float.sixty) in *.
  set (div0 := Float.div (Float.sub (S754_finite false m e) mod0)
                 Float.sixty) in *.
  change (Float.ltb Float.sixty Float.zero) with false.
  rewrite (signbit_false_not_negative mod0 Hmods).
  change (xorb false false) with false. cbv iota.
  assert (Float.signbit
            (if Float.nonzero div0
             then let fl := Float.floor div0 in
                  if Float.ltb Float.half (Float.sub div0 fl)
                  then Float.add fl Float.one else fl
             else Float.zero_like
                    (Float.div (S754_finite false m e) Float.sixty))
          = false) as Hq.
  { destruct (Float.nonzero div0).
    - cbv zeta.
      pose proof (floor_sign div0 Hdiv) as Hfl.
      pose proof (floor_mag div0 1020 Hdivmag ltac:(lia) ltac:(lia)) as Hflm.
      destruct (Float.ltb Float.half (Float.sub div0 (Float.floor div0)));
        [ | exact Hfl ].
      apply add_one_sign; [ exact (mag_le_finite _ _ Hflm) | exact Hfl ].
    - exact (div_sixty_sign (S754_finite false m e) eq_refl). }
  destruct (Float.nonzero mod0); simpl fst; exact Hq.
Qed.

(* --------------------------------------------------------------------- *)
(** ** [format(x, '.<d>f')]: the shape of the result *)
(* --------------------------------------------------------------------- *)

Lemma uint_digits_isdigit (u : Decimal.uint) :
  forallb isdigit (uint_digits u) = true.
Proof. induction u; simpl; auto. Qed.

Lemma uint_digits_not_nil (u : Decimal.uint) :
  u <> Decimal.Nil -> uint_digits u <> [].
Proof. destruct u; simpl; congruence. Qed.

Lemma dec_not_nil (n : N) : dec n <> [].
Proof.
  unfold dec. apply uint_digits_not_nil.
  destruct n as [ | p]; simpl; [ discriminate | ].
  apply DecimalPos.Unsigned.to_uint_nonnil.
Qed.

Lemma low_digits_length (d : nat) : forall n, length (low_digits d n) = d.
Proof.
  induction d as [ | d IH]; intros n; simpl; [ reflexivity | ].
  rewrite length_app, IH. simpl. lia.
Qed.

Lemma low_digits_isdigit (d : nat) :
  forall n, forallb isdigit (low_digits d n) = true.
Proof.
  induction d as [ | d IH]; intros n; simpl; [ reflexivity | ].
  rewrite forallb_app, IH. simpl. rewrite andb_true_r.
  unfold isdigit.
  pose proof (N.mod_lt n 10 ltac:(discriminate)) as H.
  generalize dependent (n mod 10)%N. intros r Hr.
  apply andb_true_iff. split; apply N.leb_le; lia.
Qed.

Lemma fixed_digits_fixed (d : nat) (q : Z) :
  fixed_notation (S d) (fixed_digits (S d) q).
Proof.
  unfold fixed_digits.
  exists (dec (Z.to_N (q / 10 ^ Z.of_nat (S d)))),
         (low_digits (S d) (Z.to_N (q mod 10 ^ Z.of_nat (S d)))).
  split; [ reflexivity | ].
  split; [ apply dec_not_nil | ].
  split; [ apply uint_digits_isdigit | ].
  split; [ apply low_digits_length | apply low_digits_isdigit ].
Qed.

(** A finite float is written as its sign followed by a number in fixed
    notation. *)
Lemma format_f_fixed (d : nat) (x : float) :
  Float.is_finite x = true ->
  exists t, format_f (S d) x = sign_of x ++ t /\ fixed_notation (S d) t.
Proof.
  intros Hfin. destruct x as [s | s | | s m e]; try discriminate Hfin.
  - exists (fixed_digits (S d) 0). split; [ reflexivity | ].
    apply fixed_digits_fixed.
  - eexists. split; [ reflexivity | ]. apply fixed_digits_fixed.
Qed.

(* --------------------------------------------------------------------- *)
(** ** Floats: the order of positive finite floats *)
(* --------------------------------------------------------------------- *)

Lemma ltb_finite_positive_iff (m1 m2 : positive) (e1 e2 : Z) :
  Float.ltb (S754_finite false m1 e1) (S754_finite false m2 e2) = true
  <-> e1 < e2 \/ (e1 = e2 /\ Zpos m1 < Zpos m2).
Proof.
  unfold Float.ltb, SFltb. simpl.
  change (Pos.compare_cont Eq m1 m2) with (Pos.compare m1 m2).
  destruct (e1 ?= e2) eqn:Ec.
  - apply Z.compare_eq in Ec. subst e2.
    destruct (Pos.compare m1 m2) eqn:Em.
    + apply Pos.compare_eq in Em. subst m2. split; [ discriminate | intros Habs; exfalso; lia ].
    + apply Pos.compare_lt_iff in Em. apply Pos2Z.pos_lt_pos in Em.
      split; [ lia | reflexivity ].
    + apply Pos.compare_gt_iff in Em. apply Pos2Z.pos_lt_pos in Em.
      split; [ discriminate | intros Habs; exfalso; lia ].
  - change (e1 < e2) in Ec. split; [ lia | reflexivity ].
  - apply Z.compare_gt_iff in Ec. split; [ discriminate | intros Habs; exfalso; lia ].
Qed.

Lemma leb_finite_positive_iff (m1 m2 : positive) (e1 e2 : Z) :
  Float.leb (S754_finite false m1 e1) (S754_finite false m2 e2) = true
  <-> e1 < e2 \/ (e1 = e2 /\ Zpos m1 <= Zpos m2).
Proof.
  unfold Float.leb, SFleb. simpl.
  change (Pos.compare_cont Eq m1 m2) with (Pos.compare m1 m2).
  destruct (e1 ?= e2) eqn:Ec.
  - apply Z.compare_eq in Ec. subst e2.
    destruct (Pos.compare m1 m2) eqn:Em.
    + apply Pos.compare_eq in Em. subst m2. split; [ lia | reflexivity ].
    + apply Pos.compare_lt_iff in Em. apply Pos2Z.pos_lt_pos in Em.
      split; [ lia | reflexivity ].
    + apply Pos.compare_gt_iff in Em. apply Pos2Z.pos_lt_pos in Em.
      split; [ discriminate | intros Habs; exfalso; lia ].
  - change (e1 < e2) in Ec. split; [ lia | reflexivity ].
  - apply Z.compare_gt_iff in Ec. split; [ discriminate | intros Habs; exfalso; lia ].
Qed.

(** A finite float that is at least zero is a zero or a positive finite
    float. *)
Lemma nonnegative_finite (x : float) :
  Float.is_finite x = true -> Float.leb Float.zero x = true ->
  (exists s, x = S754_zero s) \/ (exists m e, x = S754_finite false m e).
Proof.
  destruct x as [s | s | | [ | ] m e]; intros Hfin Hle;
    try discriminate Hfin; try discriminate Hle; eauto.
Qed.

(** One second and over is not below one second; a minute and over is
    below neither a second nor a minute. *)
Lemma at_least_one_not_below (m : positive) (e : Z) :
  Float.leb Float.one (S754_finite false m e) = true ->
  Float.ltb (S754_finite false m e) Float.one = false.
Proof.
  unfold Float.one. intros H. apply leb_finite_positive_iff in H.
  apply not_true_is_false. intros Hlt.
  apply ltb_finite_positive_iff in Hlt. lia.
Qed.

Lemma at_least_sixty_not_below (m : positive) (e : Z) :
  Float.leb Float.sixty (S754_finite false m e) = true ->
  Float.ltb (S754_finite false m e) Float.one = false
  /\ Float.ltb (S754_finite false m e) Float.sixty = false.
Proof.
  unfold Float.sixty, Float.one. intros H. apply leb_finite_positive_iff in H.
  split; apply not_true_is_false; intros Hlt;
    apply ltb_finite_positive_iff in Hlt; lia.
Qed.

(* --------------------------------------------------------------------- *)
(** ** [PerformanceTracker.format_time] *)
(* --------------------------------------------------------------------- *)

Lemma int_of_finite (q : float) :
  Float.is_finite q = true -> int_of_float q = Return (Float.trunc q).
Proof. destruct q; try discriminate; reflexivity. Qed.

(** Below one second. *)
Lemma format_time_milliseconds (seconds : float) :
  Float.is_float seconds -> Float.is_finite seconds = true ->
  Float.leb Float.zero seconds = true ->
  Float.ltb seconds Float.one = true ->
  exists t,
    format_time seconds = Return (sign_of seconds ++ t ++ py "ms")
    /\ format_f 1 (Float.mul seconds Float.thousand) = sign_of seconds ++ t
    /\ fixed_notation 1 t.
Proof.
  intros Hf Hfin Hle Hlt. unfold format_time. rewrite Hlt.
  destruct (nonnegative_finite seconds Hfin Hle) as [[s ->] | (m & e & ->)].
  - exists (fixed_digits 1 0). repeat split.
    + destruct s; reflexivity.
    + destruct s; reflexivity.
    + apply fixed_digits_fixed.
  - destruct (mul_thousand_below_one _ Hf Hfin eq_refl Hlt) as [Hmag Hsign].
    destruct (format_f_fixed 0 _ (mag_le_finite _ _ Hmag)) as (t & Ht & Hfix).
    unfold sign_of in Ht. rewrite Hsign in Ht.
    exists t. rewrite Ht. repeat split. exact Hfix.
Qed.

(** From one second to one minute. *)
Lemma format_time_seconds (seconds : float) :
  Float.is_finite seconds = true ->
  Float.leb Float.zero seconds = true ->
  Float.leb Float.one seconds = true ->
  Float.ltb seconds Float.sixty = true ->
  exists t,
    format_time seconds = Return (t ++ py "s")
    /\ format_f 2 seconds = t
    /\ fixed_notation 2 t.
Proof.
  intros Hfin Hle Hone Hlt.
  destruct (nonnegative_finite seconds Hfin Hle) as [[s ->] | (m & e & ->)].
  - destruct s; discriminate Hone.
  - unfold format_time.
    rewrite (at_least_one_not_below m e Hone), Hlt.
    destruct (format_f_fixed 1 (S754_finite false m e) eq_refl)
      as (t & Ht & Hfix).
    change (format_f 2 (S754_finite false m e) = t) in Ht.
    exists t. rewrite Ht. repeat split. exact Hfix.
Qed.

(** One minute and over. *)
Lemma format_time_minutes (seconds : float) :
  Float.is_float seconds -> Float.is_finite seconds = true ->
  Float.leb Float.zero seconds = true ->
  Float.leb Float.sixty seconds = true ->
  exists q minutes secs t,
    float_floordiv seconds Float.sixty = Return q
    /\ int_of_float q = Return minutes
    /\ 0 <= minutes
    /\ float_rem seconds Float.sixty = Return secs
    /\ format_f 1 secs = t
    /\ fixed_notation 1 t
    /\ format_time seconds
       = Return (dec_Z minutes ++ py "m " ++ t ++ py "s").
Proof.
  intros Hf Hfin Hle Hsixty.
  destruct (nonnegative_finite seconds Hfin Hle) as [[s ->] | (m & e & ->)].
  - destruct s; discriminate Hsixty.
  - destruct (at_least_sixty_not_below m e Hsixty) as [Hone Hlt].
    destruct (div_mod_sixty _ Hf Hfin eq_refl) as (Hq & Hmod & Hsign).
    unfold format_time, float_floordiv, float_rem.
    rewrite Hone, Hlt.
    change (Float.eqb Float.sixty Float.zero) with false. cbv iota.
    set (dm := Float.div_mod (S754_finite false m e) Float.sixty) in *.
    pose proof (int_of_finite _ (mag_le_finite _ _ Hq)) as Hint.
    assert (0 <= Float.trunc (fst dm)) as Hpos.
    { apply trunc_nonneg, floordiv_sixty_sign; [ exact Hf | ].
      unfold Float.sixty in Hsixty.
      apply leb_finite_positive_iff in Hsixty. lia. }
    destruct (format_f_fixed 0 _ (mag_le_finite _ _ Hmod)) as (t & Ht & Hfix).
    unfold sign_of in Ht. rewrite Hsign in Ht.
    change (format_f 1 (snd dm) = t) in Ht.
    exists (fst dm), (Float.trunc (fst dm)), (snd dm), t.
    split; [ reflexivity | ].
    split; [ exact Hint | ].
    split; [ exact Hpos | ].
    split; [ reflexivity | ].
    split; [ exact Ht | ].
    split; [ exact Hfix | ].
    rewrite Hint, Ht. reflexivity.
Qed.

(** C5.  For every finite float [seconds] that is at least zero,
    [format_time] returns, and:  below one second the result is
    [seconds * 1000] in fixed notation with one decimal place followed
    by "ms" (behind a minus sign for the negative zero);  from one second
    to below sixty it is [seconds] in fixed notation with two decimal
    places followed by "s";  from sixty seconds on it is the integer
    [int(seconds // 60)], which is not negative, "m ", and
    [seconds % 60] in fixed notation with one decimal place followed by
    "s".  In particular 0.5 gives "500.0ms", 1.234 gives "1.23s" and
    75.4 gives "1m 15.4s". *)
#[warning="-inexact-float"]
Theorem format_time_renders :
  (forall seconds : float,
      Float.is_float seconds -> Float.is_finite seconds = true ->
      Float.leb Float.zero seconds = true ->
      (Float.ltb seconds Float.one = true ->
       exists t,
         format_time seconds = Return (sign_of seconds ++ t ++ py "ms")
         /\ format_f 1 (Float.mul seconds Float.thousand)
            = sign_of seconds ++ t
         /\ fixed_notation 1 t)
      /\ (Float.leb Float.one seconds = true ->
          Float.ltb seconds Float.sixty = true ->
          exists t,
            format_time seconds = Return (t ++ py "s")
            /\ format_f 2 seconds = t
            /\ fixed_notation 2 t)
      /\ (Float.leb Float.sixty seconds = true ->
          exists q minutes secs t,
            float_floordiv seconds Float.sixty = Return q
            /\ int_of_float q = Return minutes
            /\ 0 <= minutes
            /\ float_rem seconds Float.sixty = Return secs
            /\ format_f 1 secs = t
            /\ fixed_notation 1 t
            /\ format_time seconds
               = Return (dec_Z minutes ++ py "m " ++ t ++ py "s")))
  /\ format_time (Float.lit 0.5) = Return (py "500.0ms")
  /\ format_time (Float.lit 1.234) = Return (py "1.23s")
  /\ format_time (Float.lit 75.4) = Return (py "1m 15.4s").
Proof.
  split.
  - intros seconds Hf Hfin Hle. repeat split.
    + apply format_time_milliseconds; assumption.
    + apply format_time_seconds; assumption.
    + apply format_time_minutes; assumption.
  - repeat split; vm_compute; reflexivity.
Qed.

(** C5, witness: the three branches at 0.25 s, 2.5 s and 150 s. *)
Lemma format_time_renders_witness :
  (exists t, format_time (Float.lit 0.25) = Return (t ++ py "ms")
             /\ fixed_notation 1 t)
  /\ (exists t, format_time (Float.lit 2.5) = Return (t ++ py "s")
                /\ fixed_notation 2 t)
  /\ (exists minutes t,
         0 <= minutes
         /\ format_time (Float.lit 150)
            = Return (dec_Z minutes ++ py "m " ++ t ++ py "s")
         /\ fixed_notation 1 t).
Proof.
  destruct format_time_renders as [H _].
  repeat split.
  - destruct (H (Float.lit 0.25)) as (Hms & _ & _);
      [ vm_compute; reflexivity .. | ].
    destruct (Hms ltac:(vm_compute; reflexivity)) as (t & Ht & _ & Hfix).
    exists t. split; [ exact Ht | exact Hfix ].
  - destruct (H (Float.lit 2.5)) as (_ & Hs & _);
      [ vm_compute; reflexivity .. | ].
    destruct (Hs ltac:(vm_compute; reflexivity) ltac:(vm_compute; reflexivity))
      as (t & Ht & _ & Hfix).
    exists t. split; [ exact Ht | exact Hfix ].
  - destruct (H (Float.lit 150)) as (_ & _ & Hm);
      [ vm_compute; reflexivity .. | ].
    destruct (Hm ltac:(vm_compute; reflexivity))
      as (q & minutes & secs & t & _ & _ & Hpos & _ & _ & Hfix & Ht).
    exists minutes, t.
    split; [ exact Hpos | split; [ exact Ht | exact Hfix ] ].
Defined.

(* --------------------------------------------------------------------- *)
(** ** [app.py]: the comparison of the two results *)
(* --------------------------------------------------------------------- *)

(** C1, counterexample.  Two results with the same execution time of
    half a second: the engine reported faster is "Tree", not "Vector". *)
Lemma faster_engine_tie_is_not_vector :
  let vector_result :=
    {| response := py "A"; source_nodes := [];
       execution_time := Float.half; timestamp := Float.one |} in
  let tree_result :=
    {| response := py "B"; source_nodes := [];
       execution_time := Float.half; timestamp := Float.sixty |} in
  Float.eqb (execution_time vector_result) (execution_time tree_result) = true
  /\ faster_engine vector_result tree_result <> py "Vector".
Proof. split; [ reflexivity | discriminate ]. Qed.

(** C1, amended.  "Vector" is reported exactly when the Vector result is
    strictly faster, so equal execution times report "Tree"; the time
    difference is the absolute value of the difference of the execution
    times, it is never negative, and it is at least zero whenever both
    execution times are finite. *)
Theorem faster_engine_and_time_diff (vector_result tree_result : QueryResult) :
  let v := execution_time vector_result in
  let t := execution_time tree_result in
  (Float.eqb v t = true -> faster_engine vector_result tree_result = py "Tree")
  /\ (faster_engine vector_result tree_result = py "Vector"
      <-> Float.ltb v t = true)
  /\ time_diff vector_result tree_result = Float.abs (Float.sub v t)
  /\ Float.ltb (time_diff vector_result tree_result) Float.zero = false
  /\ (Float.is_finite v = true -> Float.is_finite t = true ->
      Float.leb Float.zero (time_diff vector_result tree_result) = true).
Proof.
  intros v t. unfold faster_engine, time_diff. fold v t.
  repeat split.
  - intros H. rewrite (eqb_not_ltb v t H). reflexivity.
  - destruct (Float.ltb v t); [ reflexivity | discriminate ].
  - intros H. rewrite H. reflexivity.
  - apply abs_not_negative.
  - intros Hv Ht. apply abs_nonnegative, sub_finite_not_nan; assumption.
Qed.

(** C1, witness: the amended statement at the two results of the
    counterexample. *)
Lemma faster_engine_and_time_diff_witness :
  let vector_result :=
    {| response := py "A"; source_nodes := [];
       execution_time := Float.half; timestamp := Float.one |} in
  let tree_result :=
    {| response := py "B"; source_nodes := [];
       execution_time := Float.half; timestamp := Float.sixty |} in
  faster_engine vector_result tree_result = py "Tree"
  /\ Float.leb Float.zero (time_diff vector_result tree_result) = true.
Proof.
  intros vector_result tree_result.
  pose proof (faster_engine_and_time_diff vector_result tree_result)
    as (Htie & _ & _ & _ & Hnonneg).
  split; [ apply Htie | apply Hnonneg ]; reflexivity.
Defined.

(* --------------------------------------------------------------------- *)
(** ** [QueryResult.get_source_text] *)
(* --------------------------------------------------------------------- *)

(** C8, counterexample.  A result whose only fragment has the text
    "No sources retrieved": the sequence of fragments is not empty, yet
    the placeholder string is what is returned. *)
Lemma get_source_text_placeholder_from_fragment :
  let result :=
    {| response := py "A";
       source_nodes := [NodeWithText (py "No sources retrieved")];
       execution_time := Float.half; timestamp := Float.one |} in
  source_nodes result <> []
  /\ get_source_text result = py "No sources retrieved".
Proof. split; [ discriminate | reflexivity ]. Qed.

(** C8, amended.  An empty sequence of fragments gives the placeholder;
    a non-empty one gives the texts of its first three fragments (of all
    of them when there are fewer), in their stored order, joined by the
    separator; so a non-empty sequence gives the placeholder only when
    that joined text happens to spell it. *)
Theorem get_source_text_spec (result : QueryResult) :
  (source_nodes result = [] ->
   get_source_text result = py "No sources retrieved")
  /\ (source_nodes result <> [] ->
      get_source_text result
      = join source_separator (map node_text (take 3 (source_nodes result)))
      /\ (length (take 3 (source_nodes result)) <= 3)%nat
      /\ take 3 (source_nodes result) `prefix_of` source_nodes result).
Proof.
  unfold get_source_text. split.
  - intros ->. reflexivity.
  - intros Hne. destruct (source_nodes result) as [ | n ns] eqn:E.
    + congruence.
    + simpl truthy. simpl negb. cbv iota.
      rewrite <- fmap_take. repeat split.
      * rewrite length_take. lia.
      * exists (drop 3 (n :: ns)). symmetry. apply take_drop.
Qed.

(** C8, witness: four fragments, of which the first three are joined. *)
Lemma get_source_text_spec_witness :
  let result :=
    {| response := py "A";
       source_nodes := [NodeWithText (py "a"); NodeWithContent (py "b");
                        NodeOther (py "c"); NodeWithText (py "d")];
       execution_time := Float.half; timestamp := Float.one |} in
  get_source_text result
  = py "a" ++ source_separator ++ py "b" ++ source_separator ++ py "c".
Proof.
  intros result.
  destruct (get_source_text_spec result) as [_ H].
  destruct H as [H _]; [ discriminate | ]. rewrite H. reflexivity.
Defined.

(* --------------------------------------------------------------------- *)
(** ** Statements: how [bind] and [try_except] run *)
(* --------------------------------------------------------------------- *)

Lemma bind_inv {S A B : Type} (m : M S A) (k : A -> M S B) s r s' :
  bind m k s = (r, s') ->
  (exists e, m s = (Raise e, s') /\ r = Raise e)
  \/ (exists a s1, m s = (Return a, s1) /\ k a s1 = (r, s')).
Proof.
  unfold bind. destruct (m s) as [[a | e] s1] eqn:E; intros H.
  - right. exists a, s1. split; [ reflexivity | exact H ].
  - left. exists e. inversion H; subst. split; reflexivity.
Qed.

Lemma try_except_inv {S A : Type} (body : M S A) (handler : pystr -> M S A)
    s r s' :
  try_except body handler s = (r, s') ->
  (exists a, body s = (Return a, s') /\ r = Return a)
  \/ (exists e s1, body s = (Raise e, s1) /\ handler e s1 = (r, s')).
Proof.
  unfold try_except. destruct (body s) as [[a | e] s1] eqn:E; intros H.
  - left. exists a. inversion H; subst. split; reflexivity.
  - right. exists e, s1. split; [ reflexivity | exact H ].
Qed.

(* --------------------------------------------------------------------- *)
(** ** The engines: what touches the engine object *)
(* --------------------------------------------------------------------- *)

Section EngineObject.

Context {Docs Index : Type} (B : backend Docs Index).

Lemma keeps_self_ret {A : Type} (a : A) : keeps_self (Index := Index) (ret a).
Proof. intros w r w' H. inversion H; reflexivity. Qed.

Lemma keeps_self_raise {A : Type} (e : pystr) :
  keeps_self (Index := Index) (A := A) (raise e).
Proof. intros w r w' H. inversion H; reflexivity. Qed.

Lemma keeps_self_lift {A : Type} (o : outcome A) :
  keeps_self (Index := Index) (lift o).
Proof. intros w r w' H. inversion H; reflexivity. Qed.

Lemma keeps_self_get : keeps_self (Index := Index) get.
Proof. intros w r w' H. inversion H; reflexivity. Qed.

Lemma keeps_self_now : keeps_self (now Docs Index B).
Proof. intros w r w' H. inversion H; reflexivity. Qed.

Lemma keeps_self_request {A : Type} ev (answer : list event -> outcome A) :
  keeps_self (request Index ev answer).
Proof. intros w r w' H. inversion H; reflexivity. Qed.

Lemma keeps_self_set_fs f (w : world Index) : self (set_fs Index f w) = self w.
Proof. reflexivity. Qed.

Lemma keeps_self_bind {A C : Type} (m : M (world Index) A)
    (k : A -> M (world Index) C) :
  keeps_self m -> (forall a, keeps_self (k a)) -> keeps_self (bind m k).
Proof.
  intros Hm Hk w r w' H.
  apply bind_inv in H as [(e & H & _) | (a & w1 & H1 & H2)].
  - eapply Hm, H.
  - rewrite (Hk _ _ _ _ H2). eapply Hm, H1.
Qed.

Lemma keeps_self_try_except {A : Type} (body : M (world Index) A) handler :
  keeps_self body -> (forall e, keeps_self (handler e)) ->
  keeps_self (try_except body handler).
Proof.
  intros Hb Hh w r w' H.
  apply try_except_inv in H as [(a & H & _) | (e & w1 & H1 & H2)].
  - eapply Hb, H.
  - rewrite (Hh _ _ _ _ H2). eapply Hb, H1.
Qed.

Lemma keeps_self_for_each {A : Type} (xs : list A)
    (body : A -> M (world Index) unit) :
  (forall x, keeps_self (body x)) -> keeps_self (for_each xs body).
Proof.
  intros Hb. induction xs as [ | x xs IH]; simpl.
  - apply keeps_self_ret.
  - apply keeps_self_bind; [ apply Hb | intros _; exact IH ].
Qed.

Lemma keeps_self_makedirs d : keeps_self (makedirs Index d).
Proof.
  intros w r w' H. unfold makedirs in H.
  repeat case_bool_decide; inversion H; reflexivity.
Qed.

Lemma keeps_self_write_text p text : keeps_self (write_text Index p text).
Proof.
  intros w r w' H. unfold write_text in H.
  case_bool_decide; [ destruct (forallb utf8_encodable text) | ];
    inversion H; reflexivity.
Qed.

Lemma keeps_self_os_remove p : keeps_self (os_remove Index p).
Proof.
  intros w r w' H. unfold os_remove in H.
  destruct (files (fs w) !! p); inversion H; reflexivity.
Qed.

Lemma keeps_self_os_rmdir d : keeps_self (os_rmdir Index d).
Proof.
  intros w r w' H. unfold os_rmdir in H.
  repeat case_bool_decide; inversion H; reflexivity.
Qed.

Lemma keeps_self_save_documents v documents :
  forall i doc_files, keeps_self (save_documents Index v i documents doc_files).
Proof.
  induction documents as [ | d ds IH]; intros i doc_files; simpl.
  - apply keeps_self_ret.
  - apply keeps_self_bind; [ apply keeps_self_write_text | intros _; apply IH ].
Qed.

Lemma keeps_self_reader_load_data doc_files :
  keeps_self (reader_load_data Docs Index B doc_files).
Proof.
  unfold reader_load_data.
  apply keeps_self_bind; [ apply keeps_self_get | intros w ].
  apply keeps_self_bind; [ apply keeps_self_lift | intros c ].
  apply keeps_self_request.
Qed.

Lemma keeps_self_initialize v :
  keeps_self (initialize_llm_and_embeddings Docs Index B v).
Proof.
  unfold initialize_llm_and_embeddings.
  apply keeps_self_try_except; [ | intros e; apply keeps_self_raise ].
  apply keeps_self_bind; [ apply keeps_self_get | intros w ].
  apply keeps_self_bind; [ apply keeps_self_request | intros _ ].
  apply keeps_self_bind; [ | intros _; apply keeps_self_ret ].
  intros w0 r w' H. inversion H; reflexivity.
Qed.

(** The part of [build_index] that comes before the index is stored:
    the temporary files, the loading, the call that builds the index. *)
Lemma keeps_self_build_prefix v documents :
  keeps_self
    (bind (makedirs Index (temp_dir v)) (fun _ =>
     bind (save_documents Index v 0 documents []) (fun doc_files =>
     bind (reader_load_data Docs Index B doc_files) (fun docs =>
     bind (for_each doc_files (os_remove Index)) (fun _ =>
     bind (os_rmdir Index (temp_dir v)) (fun _ =>
     request Index (EvFromDocuments v (chunk_size v) (chunk_overlap v))
       (fun l => from_documents Docs Index B l v docs))))))).
Proof.
  apply keeps_self_bind; [ apply keeps_self_makedirs | intros _ ].
  apply keeps_self_bind; [ apply keeps_self_save_documents | intros fs ].
  apply keeps_self_bind; [ apply keeps_self_reader_load_data | intros docs ].
  apply keeps_self_bind;
    [ apply keeps_self_for_each, keeps_self_os_remove | intros _ ].
  apply keeps_self_bind; [ apply keeps_self_os_rmdir | intros _ ].
  apply keeps_self_request.
Qed.

End EngineObject.

Section EngineCalls.

Context {Docs Index : Type} (B : backend Docs Index).

(** One statement of a sequence: either it raises, or it returns and the
    rest of the sequence runs; either way the engine object is as it was
    before the statement. *)
Local Ltac step H Hkeep :=
  let e := fresh "e" in
  let a := fresh "a" in
  let w := fresh "w" in
  let Hs := fresh "Hs" in
  let Hr := fresh "Hr" in
  apply bind_inv in H as [(e & Hs & Hr) | (a & w & Hs & H)];
  apply Hkeep in Hs;
  [ try discriminate Hr; try (inversion Hr; subst; clear Hr) | ].

(** What a call of [build_index] does to the engine object: when it
    raises, nothing; when it returns, the index is set and the build time
    is the value returned. *)
Lemma build_index_self v documents (w : world Index) r w' :
  build_index B v documents w = (r, w') ->
  (exists e, r = Raise e /\ self w' = self w)
  \/ (exists idx t, r = Return t
      /\ self w' = {| model_name := model_name (self w);
                      index := Some idx; build_time := t |}).
Proof.
  unfold build_index. intros H.
  step H (keeps_self_now B); [ left; eauto | ].
  apply try_except_inv in H as [(t & H & ->) | (e1 & w1 & H & Hh)].
  - right.
    step H (keeps_self_makedirs (Index := Index) (temp_dir v));
      [ ].
    step H (keeps_self_save_documents (Index := Index) v documents 0%nat []);
      [ ].
    step H (keeps_self_reader_load_data B a1); [ ].
    step H (keeps_self_for_each a1 (os_remove Index)
              (keeps_self_os_remove (Index := Index)));
      [ ].
    step H (keeps_self_os_rmdir (Index := Index) (temp_dir v));
      [ ].
    step H (keeps_self_request (Index := Index)
              (EvFromDocuments v (chunk_size v) (chunk_overlap v))
              (fun l => from_documents Docs Index B l v a2));
      [ ].
    unfold bind, modify, now, ret in H. simpl in H.
    inversion H; subst; clear H. simpl.
    exists a5. eexists. split; [ reflexivity | ].
    simpl. f_equal. congruence.
  - left. inversion Hh; subst; clear Hh.
    eexists. split; [ reflexivity | ].
    assert (self w' = self w0) as ->; [ | assumption ].
    step H (keeps_self_makedirs (Index := Index) (temp_dir v));
      [ congruence | ].
    step H (keeps_self_save_documents (Index := Index) v documents 0%nat []);
      [ congruence | ].
    step H (keeps_self_reader_load_data B a1); [ congruence | ].
    step H (keeps_self_for_each a1 (os_remove Index)
              (keeps_self_os_remove (Index := Index)));
      [ congruence | ].
    step H (keeps_self_os_rmdir (Index := Index) (temp_dir v));
      [ congruence | ].
    step H (keeps_self_request (Index := Index)
              (EvFromDocuments v (chunk_size v) (chunk_overlap v))
              (fun l => from_documents Docs Index B l v a2));
      [ congruence | ].
    unfold bind, modify, now, ret in H. simpl in H. discriminate H.
Qed.

(** [query] on an engine without an index raises at once: the world is
    left as it was, so nothing was asked of the backend and the clock
    was not read. *)
Lemma query_without_index v query_text (w : world Index) :
  index (self w) = None ->
  query B v query_text w = (Raise not_built, w).
Proof.
  intros H. unfold query, bind, get. rewrite H. reflexivity.
Qed.

(** [query] on an engine with an index leaves the engine object alone,
    and whatever it raises is a failure of the query itself. *)
Lemma query_with_index v query_text (w : world Index) idx r w' :
  index (self w) = Some idx ->
  query B v query_text w = (r, w') ->
  self w' = self w
  /\ (forall e, r = Raise e -> exists e', e = py "Query failed: " ++ e').
Proof.
  intros Hidx H. unfold query in H.
  apply bind_inv in H as [(e & H & Hr) | (w0 & w1 & Hg & H)];
    [ discriminate H | ].
  inversion Hg; subst; clear Hg. rewrite Hidx in H.
  apply bind_inv in H as [(e & H & Hr) | (start_time & w2 & Hs & H)];
    [ discriminate H | ].
  apply (keeps_self_now B) in Hs. rewrite <- Hs.
  apply try_except_inv in H as [(t & H & ->) | (e1 & w3 & H & Hh)].
  - split; [ | discriminate ].
    step H (keeps_self_request (Index := Index)
              (EvQuery v (similarity_top_k v) query_text)
              (fun l => run_query Docs Index B l v idx query_text)); [ ].
    unfold bind, now, ret in H. simpl in H. inversion H; subst; clear H.
    simpl. congruence.
  - inversion Hh; subst; clear Hh. split; [ | intros e He; inversion He; eauto ].
    step H (keeps_self_request (Index := Index)
              (EvQuery v (similarity_top_k v) query_text)
              (fun l => run_query Docs Index B l v idx query_text));
      [ congruence | ].
    unfold bind, now, ret in H. simpl in H. discriminate H.
Qed.

(** A failure of the query itself is not the missing-index failure. *)
Lemma query_failed_is_not_not_built (e' : pystr) :
  py "Query failed: " ++ e' <> not_built.
Proof. discriminate. Qed.

Lemma query_keeps_self v query_text : keeps_self (query B v query_text).
Proof.
  intros w r w' H. destruct (index (self w)) as [idx | ] eqn:E.
  - eapply query_with_index; eassumption.
  - rewrite (query_without_index _ _ _ E) in H. inversion H; reflexivity.
Qed.

(** A constructed engine has no index and a build time of zero. *)
Lemma init_self v name (w w' : world Index) :
  init B v name w = (Return tt, w') ->
  self w' = {| model_name := name; index := None; build_time := Float.zero |}.
Proof.
  unfold init. intros H.
  apply bind_inv in H as [(e & H & Hr) | (a & w1 & Hm & H)];
    [ discriminate Hr | ].
  inversion Hm; subst; clear Hm.
  step H (keeps_self_initialize B v); [ ].
  inversion H; subst; clear H. rewrite Hs. reflexivity.
Qed.

(** The engine object along a history: it has an index exactly when a
    call of [build_index] has returned, and until then its build time is
    the zero it was constructed with. *)
Lemma reachable_index v built (w : world Index) :
  reachable B v built w ->
  is_initialized (self w) = built
  /\ (built = false -> build_time (self w) = Float.zero).
Proof.
  induction 1 as [ name w w' Hinit
                 | built documents w t w' _ IH Hb
                 | built documents w e w' _ IH Hb
                 | built query_text w r w' _ IH Hq
                 | built w w' _ IH Hs ].
  - rewrite (init_self _ _ _ _ Hinit). split; reflexivity.
  - apply build_index_self in Hb as [(e & He & _) | (idx & t' & _ & Hs)];
      [ discriminate He | ].
    rewrite Hs. split; [ reflexivity | discriminate ].
  - apply build_index_self in Hb as [(e' & _ & Hs) | (idx & t' & Hr & _)];
      [ | discriminate Hr ].
    rewrite Hs. exact IH.
  - rewrite (query_keeps_self _ _ _ _ _ Hq). exact IH.
  - rewrite Hs. exact IH.
Qed.

End EngineCalls.

(* --------------------------------------------------------------------- *)
(** ** The engines: [query] before and after [build_index] *)
(* --------------------------------------------------------------------- *)

(** C4.  For both engines and along every history of an engine object:
    as long as no call of [build_index] has returned, [query] raises the
    missing-index exception and leaves the world as it was, so the
    backend is not asked anything; once a call of [build_index] has
    returned, whatever [query] does, it does not raise that exception. *)
Theorem query_requires_a_built_index {Docs Index : Type}
    (B : backend Docs Index) (v : variant) (built : bool)
    (w : world Index) (query_text : pystr) :
  reachable B v built w ->
  (built = false -> query B v query_text w = (Raise not_built, w))
  /\ (built = true ->
      forall r w', query B v query_text w = (r, w') -> r <> Raise not_built).
Proof.
  intros Hreach. apply reachable_index in Hreach as [Hinit _].
  unfold is_initialized in Hinit. split; intros ->.
  - apply query_without_index. destruct (index (self w)); congruence.
  - intros r w' Hq. destruct (index (self w)) as [idx | ] eqn:E;
      [ | discriminate Hinit ].
    destruct (query_with_index B v query_text w idx r w' E Hq) as [_ Hr].
    intros ->. destruct (Hr _ eq_refl) as [e' He'].
    symmetry in He'. exact (query_failed_is_not_not_built e' He').
Qed.

(** C4, witness: a Vector engine over the echo backend is constructed in
    an empty world; a first [build_index], of no document at all, raises;
    [query] then raises the missing-index exception and changes nothing.
    A second [build_index], of one document, returns; [query] then
    returns a result. *)
Lemma query_requires_a_built_index_witness :
  let w0 := empty_world blank_engine in
  let w1 := (init echo_backend Vector (py "llama3.1") w0).2 in
  let w2 := (build_index echo_backend Vector [] w1).2 in
  let w3 := (build_index echo_backend Vector [py "One. Two."] w2).2 in
  query echo_backend Vector (py "What?") w2 = (Raise not_built, w2)
  /\ (query echo_backend Vector (py "What?") w3).1 <> Raise not_built.
Proof.
  intros w0 w1 w2 w3.
  assert (reachable echo_backend Vector false w1) as H1.
  { apply (reach_init _ _ (py "llama3.1") w0). vm_compute. reflexivity. }
  assert (reachable echo_backend Vector false w2) as H2.
  { apply (reach_build_raises _ _ false [] w1
             (py "Failed to build vector index: no documents") w2 H1).
    vm_compute. reflexivity. }
  assert (reachable echo_backend Vector true w3) as H3.
  { eapply (reach_build_returns _ _ false [py "One. Two."] w2 _ w3 H2).
    vm_compute. reflexivity. }
  split.
  - apply (query_requires_a_built_index echo_backend Vector false w2 _ H2).
    reflexivity.
  - destruct (query echo_backend Vector (py "What?") w3) as [r w4] eqn:E.
    apply (proj2 (query_requires_a_built_index echo_backend Vector true w3
                    (py "What?") H3) eq_refl r w4 E).
Defined.

(* --------------------------------------------------------------------- *)
(** ** The engines: the build time and the index after a failed build *)
(* --------------------------------------------------------------------- *)

(** C10.  For both engines: a freshly constructed engine reports a build
    time of 0.0 and is not initialized; a call of [build_index] that
    raises leaves the engine object as it was, so [get_build_time] and
    [is_initialized] answer as before; and along every history in which
    no call of [build_index] has returned, the engine is still not
    initialized and its build time is still 0.0. *)
Theorem failed_build_keeps_engine {Docs Index : Type}
    (B : backend Docs Index) (v : variant) :
  (forall name w w',
      init B v name w = (Return tt, w') ->
      get_build_time (self w') = Float.zero
      /\ is_initialized (self w') = false)
  /\ (forall documents w e w',
         build_index B v documents w = (Raise e, w') ->
         self w' = self w
         /\ get_build_time (self w') = get_build_time (self w)
         /\ is_initialized (self w') = is_initialized (self w))
  /\ (forall w,
         reachable B v false w ->
         is_initialized (self w) = false
         /\ get_build_time (self w) = Float.zero).
Proof.
  repeat split.
  - rewrite (init_self B v name w w' H). reflexivity.
  - rewrite (init_self B v name w w' H). reflexivity.
  - apply build_index_self in H as [(e' & _ & Hs) | (idx & t & Hr & _)];
      [ exact Hs | discriminate Hr ].
  - apply build_index_self in H as [(e' & _ & Hs) | (idx & t & Hr & _)];
      [ rewrite Hs; reflexivity | discriminate Hr ].
  - apply build_index_self in H as [(e' & _ & Hs) | (idx & t & Hr & _)];
      [ rewrite Hs; reflexivity | discriminate Hr ].
  - apply (reachable_index B v false w H).
  - apply (reachable_index B v false w H). reflexivity.
Qed.

(** C10, witness: a Tree engine over the echo backend, constructed in an
    empty world and then asked to build an index of no document, which
    raises. *)
Lemma failed_build_keeps_engine_witness :
  let w0 := empty_world blank_engine in
  let w1 := (init echo_backend Tree (py "llama3.1") w0).2 in
  let w2 := (build_index echo_backend Tree [] w1).2 in
  (get_build_time (self w1) = Float.zero
   /\ is_initialized (self w1) = false)
  /\ (build_index echo_backend Tree [] w1).1
     = Raise (py "Failed to build tree index: no documents")
  /\ (get_build_time (self w2) = get_build_time (self w1)
      /\ is_initialized (self w2) = is_initialized (self w1))
  /\ (is_initialized (self w2) = false
      /\ get_build_time (self w2) = Float.zero).
Proof.
  intros w0 w1 w2.
  destruct (failed_build_keeps_engine echo_backend Tree)
    as (Hfresh & Hfail & Hhist).
  assert (init echo_backend Tree (py "llama3.1") w0 = (Return tt, w1)) as E1
    by (vm_compute; reflexivity).
  assert (build_index echo_backend Tree [] w1
          = (Raise (py "Failed to build tree index: no documents"), w2)) as E2
    by (vm_compute; reflexivity).
  split; [ exact (Hfresh _ _ _ E1) | ].
  split; [ rewrite E2; reflexivity | ].
  split; [ exact (proj2 (Hfail _ _ _ _ E2)) | ].
  apply Hhist.
  exact (reach_build_raises _ _ false [] w1 _ w2
           (reach_init _ _ _ w0 w1 E1) E2).
Defined.

(* --------------------------------------------------------------------- *)
(** ** The engines: the temporary files of [build_index] *)
(* --------------------------------------------------------------------- *)

Section TemporaryFiles.

Context {Docs Index : Type} (B : backend Docs Index).

(** When [os.rmdir] returns, the directory is gone and no file is left
    in it. *)
Lemma os_rmdir_returns d (w w' : world Index) :
  os_rmdir Index d w = (Return tt, w') ->
  (d ∉ dirs (fs w'))
  /\ (forall name, files (fs w') !! (d, name) = None).
Proof.
  unfold os_rmdir. repeat case_bool_decide; intros Hrun; inversion Hrun; subst.
  simpl. split.
  { intros Hin. apply elem_of_difference in Hin as [_ Hn].
    apply Hn, elem_of_singleton. reflexivity. }
  intros name. destruct (files (fs w) !! (d, name)) as [text | ] eqn:E;
    [ | reflexivity ].
  match goal with Hall : map_Forall _ _ |- _ => specialize (Hall _ _ E) end.
  simpl in *. congruence.
Qed.

(** When [build_index] returns, its temporary directory is gone and no
    file is left in it. *)
Lemma build_index_returns_clean v documents (w : world Index) t w' :
  build_index B v documents w = (Return t, w') ->
  (temp_dir v ∉ dirs (fs w'))
  /\ (forall name, files (fs w') !! (temp_dir v, name) = None).
Proof.
  unfold build_index. intros H.
  apply bind_inv in H as [(e & _ & Hr) | (start & w0 & _ & H)];
    [ discriminate Hr | ].
  apply try_except_inv in H as [(t' & H & _) | (e1 & w1 & _ & Hh)];
    [ | discriminate Hh ].
  do 4 (apply bind_inv in H as [(e & _ & Hr) | (? & ? & _ & H)];
        [ discriminate Hr | ]).
  apply bind_inv in H as [(e & _ & Hr) | ([] & wr & Hrm & H)];
    [ discriminate Hr | ].
  apply os_rmdir_returns in Hrm.
  apply bind_inv in H as [(e & _ & Hr) | (idx & wi & Hreq & H)];
    [ discriminate Hr | ].
  unfold request in Hreq. inversion Hreq; subst; clear Hreq.
  unfold bind, modify, now, ret in H. simpl in H.
  inversion H; subst; clear H. simpl. exact Hrm.
Qed.

End TemporaryFiles.

(** C2, the failing run.  For both engines, over any backend and in a
    world without directories or files: [build_index] of one document
    that consists of a lone surrogate (which the 'utf-8' codec refuses to
    write) raises, and the world it leaves behind holds the temporary
    directory and, in it, the temporary file [doc_0.txt]. *)
Theorem build_index_failure_leaves_temp_files {Docs Index : Type}
    (B : backend Docs Index) (v : variant) (e : engine Index) :
  let documents : list pystr := [[55296%N]] in
  build_index B v documents (empty_world e)
  = (Raise (py "Failed to build " ++ index_name v ++ py " index: "
            ++ py "'utf-8' codec can't encode character: surrogates not allowed"),
     {| self := e;
        fs := {| dirs := {[ temp_dir v ]};
                 files := {[ (temp_dir v, py "doc_0.txt") := [] ]} |};
        settings := None; ticks := 1; log := [] |}).
Proof.
  intros documents. destruct v; vm_compute; reflexivity.
Qed.

(* --------------------------------------------------------------------- *)
(** ** [DocumentProcessor.validate_pdf] *)
(* --------------------------------------------------------------------- *)

(** C6.  [validate_pdf] always returns a pair and never raises, whatever
    the argument and whatever the PDF library does with it.  When reading
    the stream, opening it or reading its pages raises, the pair is
    [False] with the message "Invalid PDF file: " followed by the text of
    the exception; when there are no pages, it is [False] with the
    message "PDF file appears to be empty"; both messages are non-empty.
    Otherwise the pair is [True] with the empty message. *)
Theorem validate_pdf_never_raises (pypdf : pdf_library)
    (pdf_file : pdf_input) (f : stream) :
  exists ok message f',
    validate_pdf pypdf pdf_file f = (Return (ok, message), f')
    /\ match pdf_pages pypdf pdf_file f with
       | Raise e =>
           ok = false /\ message = py "Invalid PDF file: " ++ e
           /\ message <> []
       | Return [] =>
           ok = false /\ message = py "PDF file appears to be empty"
           /\ message <> []
       | Return (_ :: _) => ok = true /\ message = []
       end.
Proof.
  unfold validate_pdf, pdf_pages, try_except, bind, lift, ret.
  destruct pdf_file as [ | p].
  - unfold stream_read, stream_seek.
    destruct (closed f) eqn:Hc.
    + do 3 eexists. split; [ reflexivity | ].
      repeat split. discriminate.
    + destruct (open_bytes pypdf (drop (pos f) (data f))) as [reader | e].
      * simpl. destruct (pages reader) as [[ | pg pgs] | e]; simpl;
          do 3 eexists; (split; [ reflexivity | ]);
          repeat split; discriminate.
      * do 3 eexists. split; [ reflexivity | ]. repeat split. discriminate.
  - destruct (open_path pypdf p) as [reader | e].
    + destruct (pages reader) as [[ | pg pgs] | e]; simpl;
        do 3 eexists; (split; [ reflexivity | ]);
        repeat split; discriminate.
    + do 3 eexists. split; [ reflexivity | ]. repeat split. discriminate.
Qed.

(** C7, counterexample.  A stream of five bytes of which two have been
    read already, and a PDF library that opens the remaining three as a
    document of three pages: [validate_pdf] returns [True] and leaves
    the read position at 0, not at 2 where it was. *)
Lemma validate_pdf_moves_read_position :
  let f := {| data := [Byte.x25; Byte.x50; Byte.x44; Byte.x46; Byte.x2d];
              pos := 2; closed := false |} in
  (validate_pdf bytewise_pdf FileObject f).1 = Return (true, [])
  /\ pos (validate_pdf bytewise_pdf FileObject f).2 = 0%nat
  /\ pos (validate_pdf bytewise_pdf FileObject f).2 <> pos f.
Proof. repeat split. discriminate. Qed.

(** C7, amended.  For a stream that can be read and whose remaining
    bytes the PDF library opens, [validate_pdf] returns with the read
    position at 0, the start of the stream, whatever it answers (valid,
    no pages, or pages that cannot be read); the next [read()] therefore
    gives the whole contents.  That position is the one before the call
    exactly when the stream was at its start. *)
Theorem validate_pdf_rewinds (pypdf : pdf_library) (f : stream)
    (reader : PdfReader) :
  closed f = false ->
  open_bytes pypdf (drop (pos f) (data f)) = Return reader ->
  let f' := (validate_pdf pypdf FileObject f).2 in
  f' = {| data := data f; pos := 0; closed := false |}
  /\ (stream_read f').1 = Return (data f)
  /\ (pos f' = pos f <-> pos f = 0%nat).
Proof.
  intros Hc Ho.
  assert ((validate_pdf pypdf FileObject f).2
          = {| data := data f; pos := 0; closed := false |}) as E.
  { unfold validate_pdf, try_except, bind, lift, ret, stream_read, stream_seek.
    rewrite Hc, Ho. simpl.
    destruct (pages reader) as [[ | pg pgs] | e]; reflexivity. }
  simpl. rewrite E. repeat split; simpl; congruence.
Qed.

(** C7, witness: a stream at its start whose five bytes the library
    opens. *)
Lemma validate_pdf_rewinds_witness :
  let f := {| data := [Byte.x25; Byte.x50; Byte.x44; Byte.x46; Byte.x2d];
              pos := 0; closed := false |} in
  (validate_pdf bytewise_pdf FileObject f).2 = f
  /\ (stream_read (validate_pdf bytewise_pdf FileObject f).2).1
     = Return (data f).
Proof.
  intros f.
  destruct (validate_pdf_rewinds bytewise_pdf f
              {| pages := Return (map (fun _ => Return (py "page")) (data f)) |}
              eq_refl eq_refl) as (E & Hread & _).
  split; [ exact E | exact Hread ].
Defined.

(* --------------------------------------------------------------------- *)
(** ** Strings: [split], [join] and [strip] *)
(* --------------------------------------------------------------------- *)

Lemma split_go_not_nil (sep : pystr) (s : pystr) :
  forall skip cur, split_go sep skip cur s <> [].
Proof.
  induction s as [ | c s IH]; intros skip cur; simpl.
  - discriminate.
  - destruct skip as [ | k]; [ | apply IH ].
    destruct (startswith sep (c :: s)); [ discriminate | apply IH ].
Qed.

(** The characters of a matched separator are passed over. *)
Lemma split_go_skip (sep : pystr) (pre rest : pystr) :
  forall cur,
    split_go sep (length pre) cur (pre ++ rest) = split_go sep 0 cur rest.
Proof.
  induction pre as [ | c pre IH]; intros cur; simpl; [ reflexivity | apply IH ].
Qed.

Lemma startswith_app (sep s : pystr) :
  startswith sep s = true -> exists rest, s = sep ++ rest.
Proof.
  revert s. induction sep as [ | a sep IH]; intros s H.
  - exists s. reflexivity.
  - destruct s as [ | b s]; simpl in H; [ discriminate | ].
    apply andb_true_iff in H as [Hab H].
    apply N.eqb_eq in Hab as ->.
    destruct (IH s H) as [rest ->]. exists rest. reflexivity.
Qed.

Lemma join_cons (sep p : pystr) (rest : list pystr) :
  rest <> [] -> join sep (p :: rest) = p ++ sep ++ join sep rest.
Proof. destruct rest; [ congruence | reflexivity ]. Qed.

(** Joining the pieces of a split with the separator gives the string
    back. *)
Lemma join_split_go (sep : pystr) :
  sep <> [] ->
  forall n s cur, (length s <= n)%nat ->
    join sep (split_go sep 0 cur s) = cur ++ s.
Proof.
  intros Hsep. induction n as [ | n IH]; intros s cur Hlen.
  - destruct s; [ | simpl in Hlen; lia ]. simpl. rewrite app_nil_r. reflexivity.
  - destruct s as [ | c s]; [ simpl; rewrite app_nil_r; reflexivity | ].
    simpl in Hlen. simpl split_go.
    destruct (startswith sep (c :: s)) eqn:Hstart.
    + destruct (startswith_app _ _ Hstart) as [rest Hrest].
      destruct sep as [ | a sep]; [ congruence | ].
      simpl in Hrest. inversion Hrest; subst c s.
      replace (length (a :: sep) - 1)%nat with (length sep) by (simpl; lia).
      rewrite split_go_skip.
      rewrite join_cons by apply split_go_not_nil.
      rewrite IH by (rewrite length_app in Hlen; lia).
      reflexivity.
    + rewrite IH by lia. rewrite <- app_assoc. reflexivity.
Qed.

Lemma join_split (sep s : pystr) : sep <> [] -> join sep (split sep s) = s.
Proof.
  intros Hsep. unfold split.
  apply (join_split_go sep Hsep (length s) s []). lia.
Qed.

(** When the last piece is empty, the pieces before it, each followed by
    the separator, spell the joined string. *)
Lemma join_last_empty (sep : pystr) (pieces : list pystr) :
  last pieces = Some [] ->
  join sep pieces = concat (map (fun p => p ++ sep) (removelast pieces)).
Proof.
  induction pieces as [ | p [ | q rest] IH]; intros Hlast.
  - discriminate.
  - simpl in Hlast. inversion Hlast. reflexivity.
  - change (last (p :: q :: rest)) with (last (q :: rest)) in Hlast.
    change (join sep (p :: q :: rest)) with (p ++ sep ++ join sep (q :: rest)).
    change (removelast (p :: q :: rest)) with (p :: removelast (q :: rest)).
    rewrite (IH Hlast). simpl. rewrite <- app_assoc. reflexivity.
Qed.

Lemma inked_app (a b : pystr) : inked (a ++ b) = inked a || inked b.
Proof. apply existsb_app. Qed.

Lemma inked_rev (s : pystr) : inked (rev s) = inked s.
Proof.
  induction s as [ | c s IH]; [ reflexivity | ].
  simpl rev. rewrite inked_app, IH. simpl. rewrite orb_false_r.
  apply orb_comm.
Qed.

Lemma inked_lstrip (s : pystr) : inked (lstrip s) = inked s.
Proof.
  induction s as [ | c s IH]; [ reflexivity | ].
  simpl. destruct (isspace c) eqn:E; simpl; rewrite ?E; simpl; auto.
Qed.

Lemma inked_strip (s : pystr) : inked (strip s) = inked s.
Proof.
  unfold strip, rstrip.
  rewrite inked_rev, inked_lstrip, inked_rev, inked_lstrip. reflexivity.
Qed.

Lemma inked_truthy (s : pystr) : inked s = true -> truthy s = true.
Proof. destruct s; [ discriminate | reflexivity ]. Qed.

(** A string that is empty or has ink is empty exactly when its trim is. *)
Lemma truthy_strip (s : pystr) :
  truthy s = inked s -> truthy (strip s) = truthy s.
Proof.
  intros H. destruct (inked s) eqn:E.
  - rewrite H. apply inked_truthy. rewrite inked_strip. exact E.
  - destruct s; [ reflexivity | discriminate H ].
Qed.

Lemma lstrip_idempotent (s : pystr) : lstrip (lstrip s) = lstrip s.
Proof.
  induction s as [ | c s IH]; [ reflexivity | ].
  simpl. destruct (isspace c) eqn:E; [ exact IH | ].
  simpl. rewrite E. reflexivity.
Qed.

(** Trimming on the right keeps a first character that is not white
    space. *)
Lemma rstrip_cons_ink (c : N) (s : pystr) :
  isspace c = false -> exists s', rstrip (c :: s) = c :: s'.
Proof.
  intros Hc. unfold rstrip. simpl rev.
  assert (forall t, exists t', lstrip (t ++ [c]) = t' ++ [c]) as H.
  { induction t as [ | d t [t' IH]]; simpl.
    - rewrite Hc. exists []. reflexivity.
    - destruct (isspace d); [ exists t'; exact IH | ].
      exists (d :: t). reflexivity. }
  destruct (H (rev s)) as [t' ->].
  rewrite rev_app_distr. simpl. eauto.
Qed.

Lemma lstrip_starts_with_ink (s : pystr) :
  lstrip s = [] \/ exists c s', lstrip s = c :: s' /\ isspace c = false.
Proof.
  induction s as [ | c s IH]; [ left; reflexivity | ].
  simpl. destruct (isspace c) eqn:E; [ exact IH | ].
  right. eauto.
Qed.

(** Trimming twice is trimming once. *)
Lemma strip_idempotent (s : pystr) : strip (strip s) = strip s.
Proof.
  unfold strip at 1 2.
  assert (lstrip (rstrip (lstrip s)) = rstrip (lstrip s)) as ->.
  { destruct (lstrip_starts_with_ink s) as [-> | (c & s' & -> & Hc)].
    - reflexivity.
    - destruct (rstrip_cons_ink c s' Hc) as [t ->]. simpl. rewrite Hc.
      reflexivity. }
  unfold strip, rstrip. rewrite rev_involutive, lstrip_idempotent.
  reflexivity.
Qed.

(* --------------------------------------------------------------------- *)
(** ** [DocumentProcessor.chunk_text] *)
(* --------------------------------------------------------------------- *)

Lemma chunk_text_unfold (text : pystr) (chunk_size : Z) :
  chunk_text text chunk_size
  = chunk_final (fold_left (chunk_step (chunk_size * 4))
                   (split (py ". ") text) ([], [])).
Proof.
  unfold chunk_text, chunk_final.
  destruct (fold_left _ _ _) as [chunks current_chunk]. reflexivity.
Qed.

Lemma trimmed_cons (c : pystr) (raw : list pystr) :
  trimmed (c :: raw) = if truthy c then strip c :: trimmed raw else trimmed raw.
Proof.
  unfold trimmed. rewrite filter_cons.
  destruct (decide (truthy c = true)) as [H | H].
  - rewrite H. reflexivity.
  - destruct (truthy c); [ congruence | reflexivity ].
Qed.

Lemma kept_sentences_cons (p : pystr) (pieces : list pystr) :
  kept_sentences (p :: pieces)
  = if truthy p then (p ++ py ". ") :: kept_sentences pieces
    else kept_sentences pieces.
Proof.
  unfold kept_sentences. rewrite filter_cons.
  destruct (decide (truthy p = true)) as [H | H].
  - rewrite H. reflexivity.
  - destruct (truthy p); [ congruence | reflexivity ].
Qed.

Lemma sentence_inked (p : pystr) : inked (p ++ py ". ") = true.
Proof. rewrite inked_app. apply orb_true_r. Qed.

(** The loop of [chunk_text] against the accumulator.  Either the loop
    holds the accumulator's current chunk, or (an empty piece having come
    after a chunk that is over the limit) it has flushed that chunk
    already and holds the empty string. *)
Lemma chunk_loop_accumulate (limit : Z) (pieces : list pystr) :
  (forall chunks current,
      truthy current = inked current ->
      chunk_final (fold_left (chunk_step limit) pieces (chunks, current))
      = chunks ++ trimmed (accumulate limit current (kept_sentences pieces)))
  /\ (forall chunks current,
         inked current = true ->
         limit < Z.of_nat (length current) ->
         chunk_final (fold_left (chunk_step limit) pieces
                        (chunks ++ [strip current], []))
         = chunks ++ trimmed (accumulate limit current
                                (kept_sentences pieces))).
Proof.
  induction pieces as [ | p pieces [IHsync IHflushed]].
  - split; intros chunks current.
    + intros Hc. simpl. unfold chunk_final. simpl.
      rewrite trimmed_cons, (truthy_strip _ Hc).
      destruct (truthy current); [ reflexivity | ].
      rewrite app_nil_r. reflexivity.
    + intros Hink _. simpl. unfold chunk_final. simpl.
      rewrite trimmed_cons, (inked_truthy _ Hink). reflexivity.
  - split; intros chunks current.
    + intros Hc. simpl fold_left. rewrite kept_sentences_cons.
      destruct (truthy p) eqn:Hp.
      * (* a sentence *)
        simpl accumulate.
        destruct (limit <? Z.of_nat (length (current ++ p ++ py ". "))) eqn:Hl.
        -- rewrite trimmed_cons.
           rewrite IHsync
             by (rewrite sentence_inked; apply inked_truthy, sentence_inked).
           destruct (truthy current); [ | reflexivity ].
           rewrite <- app_assoc. reflexivity.
        -- apply IHsync.
           rewrite inked_app, sentence_inked, orb_true_r.
           apply inked_truthy. rewrite inked_app, sentence_inked.
           apply orb_true_r.
      * (* an empty piece *)
        rewrite app_nil_r.
        destruct (limit <? Z.of_nat (length current)) eqn:Hl.
        -- destruct (truthy current) eqn:Ht.
           ++ apply IHflushed; [ congruence | apply Z.ltb_lt, Hl ].
           ++ destruct current; [ | discriminate Ht ]. apply IHsync, Hc.
        -- apply IHsync, Hc.
    + intros Hink Hover. simpl fold_left. rewrite kept_sentences_cons.
      destruct (truthy p) eqn:Hp.
      * simpl accumulate.
        assert ((limit <? Z.of_nat (length (current ++ p ++ py ". "))) = true)
          as -> by (apply Z.ltb_lt; rewrite length_app; lia).
        rewrite trimmed_cons, (inked_truthy _ Hink).
        assert (forall st,
                   st = (chunks ++ [strip current], p ++ py ". ") ->
                   chunk_final (fold_left (chunk_step limit) pieces st)
                   = chunks ++ strip current
                       :: trimmed (accumulate limit (p ++ py ". ")
                                     (kept_sentences pieces))) as Hnext.
        { intros st ->. rewrite IHsync
            by (rewrite sentence_inked; apply inked_truthy, sentence_inked).
          rewrite <- app_assoc. reflexivity. }
        destruct (limit <? Z.of_nat (length (p ++ py ". ")));
          apply Hnext; reflexivity.
      * simpl length.
        destruct (limit <? Z.of_nat 0); simpl; apply IHflushed; assumption.
Qed.

(** [chunk_text] gives the non-empty chunks, trimmed, of the greedy
    accumulator run over the sentences it keeps. *)
Lemma chunk_text_accumulate (text : pystr) (chunk_size : Z) :
  chunk_text text chunk_size
  = trimmed (accumulate (chunk_size * 4) []
               (kept_sentences (split (py ". ") text))).
Proof.
  rewrite chunk_text_unfold.
  apply (proj1 (chunk_loop_accumulate _ _) [] []). reflexivity.
Qed.

(** The accumulator neither drops nor alters what it is given. *)
Lemma concat_accumulate (limit : Z) (sentences : list pystr) :
  forall current,
    concat (accumulate limit current sentences)
    = current ++ concat sentences.
Proof.
  induction sentences as [ | s rest IH]; intros current; simpl.
  - reflexivity.
  - destruct (limit <? _); simpl; rewrite IH.
    + reflexivity.
    + rewrite <- app_assoc. reflexivity.
Qed.

Lemma kept_sentences_drop_last_empty (pieces : list pystr) :
  kept_sentences (pieces ++ [[]]) = kept_sentences pieces.
Proof.
  unfold kept_sentences. rewrite filter_app. simpl.
  rewrite app_nil_r. reflexivity.
Qed.

(** C3, counterexample.  On the text "a. . b. " with the default chunk
    size, [chunk_text] gives the single chunk "a. b.", the accumulator of
    the specification gives "a. . b. ": the empty sentence between the
    two periods is dropped and the chunk is trimmed, so the chunks do not
    spell the input. *)
Lemma chunk_text_is_not_greedy_chunks :
  let text := py "a. . b. " in
  chunk_text text 512 = [py "a. b."]
  /\ greedy_chunks text 512 = [py "a. . b. "]
  /\ chunk_text text 512 <> greedy_chunks text 512
  /\ concat (chunk_text text 512) <> text.
Proof.
  repeat split; vm_compute; congruence.
Qed.

(** C3, amended.  For a text in which every sentence is terminated (the
    last piece of the split on ". " is empty, so the pieces before it,
    each followed by ". ", spell the text): [chunk_text] gives the
    non-empty chunks, each trimmed, of the greedy accumulator run with
    the limit [chunk_size * 4] over the non-empty pieces, each followed
    by ". "; and the chunks of that accumulator, before they are trimmed,
    spell those sentences in order, none dropped or altered. *)
Theorem chunk_text_greedy (text : pystr) (chunk_size : Z) :
  last (split (py ". ") text) = Some [] ->
  let pieces := removelast (split (py ". ") text) in
  let sentences := kept_sentences pieces in
  let raw := accumulate (chunk_size * 4) [] sentences in
  concat (map (fun p => p ++ py ". ") pieces) = text
  /\ chunk_text text chunk_size = trimmed raw
  /\ concat raw = concat sentences.
Proof.
  intros Hlast pieces sentences raw. repeat split.
  - unfold pieces. rewrite <- (join_last_empty _ _ Hlast).
    apply join_split. discriminate.
  - rewrite chunk_text_accumulate. unfold raw, sentences, pieces.
    apply last_Some in Hlast as [init ->].
    rewrite removelast_last, kept_sentences_drop_last_empty. reflexivity.
  - apply concat_accumulate.
Qed.

(** C3, witness: two terminated sentences and a chunk size of two tokens,
    so that the second sentence begins a second chunk. *)
Lemma chunk_text_greedy_witness :
  chunk_text (py "One.  Two. ") 2 = [py "One."; py "Two."]
  /\ concat (accumulate (2 * 4) []
               (kept_sentences (removelast (split (py ". ") (py "One.  Two. ")))))
     = py "One.  Two. ".
Proof.
  destruct (chunk_text_greedy (py "One.  Two. ") 2 eq_refl) as (_ & H & Hc).
  split.
  - rewrite H. vm_compute. reflexivity.
  - rewrite Hc. vm_compute. reflexivity.
Defined.

(** The chunks of the accumulator are empty or have ink when the
    sentences have ink. *)
Lemma accumulate_inked (limit : Z) (sentences : list pystr) :
  Forall (fun s => inked s = true) sentences ->
  forall current,
    truthy current = inked current ->
    Forall (fun c => truthy c = inked c) (accumulate limit current sentences).
Proof.
  induction 1 as [ | s rest Hs _ IH]; intros current Hc; simpl.
  - constructor; [ exact Hc | constructor ].
  - destruct (limit <? _).
    + constructor; [ exact Hc | ].
      apply IH. rewrite Hs. apply inked_truthy, Hs.
    + apply IH. rewrite inked_app, Hs, orb_true_r.
      apply inked_truthy. rewrite inked_app, Hs. apply orb_true_r.
Qed.

Lemma kept_sentences_inked (pieces : list pystr) :
  Forall (fun s => inked s = true) (kept_sentences pieces).
Proof.
  unfold kept_sentences. apply Forall_forall. intros s Hs.
  apply list_elem_of_fmap in Hs as (p & -> & _). apply sentence_inked.
Qed.

(** Every chunk that [chunk_text] returns is non-empty and is its own
    trim; the empty text has no chunk. *)
Lemma chunk_text_chunks_trimmed (text : pystr) (chunk_size : Z) (c : pystr) :
  c ∈ chunk_text text chunk_size -> c <> [] /\ strip c = c.
Proof.
  rewrite chunk_text_accumulate. unfold trimmed. intros Hc.
  apply list_elem_of_fmap in Hc as (x & -> & Hx).
  apply list_elem_of_filter in Hx as [Htruthy Hx].
  split; [ | apply strip_idempotent ].
  pose proof (accumulate_inked (chunk_size * 4) _
                (kept_sentences_inked (split (py ". ") text)) [] eq_refl) as H.
  rewrite Forall_forall in H. specialize (H x Hx).
  assert (inked (strip x) = true) as Hink
      by (rewrite inked_strip; congruence).
  destruct (strip x); [ discriminate Hink | discriminate ].
Qed.

Lemma chunk_text_empty (chunk_size : Z) : chunk_text [] chunk_size = [].
Proof. rewrite chunk_text_accumulate. reflexivity. Qed.

(** C9, the failing input.  On the text that is a single space,
    [chunk_text] returns one chunk, the period it appended to the only
    piece, where the claim has no chunk at all. *)
Theorem chunk_text_whitespace_only :
  inked (py " ") = false
  /\ chunk_text (py " ") 512 = [py "."]
  /\ chunk_text (py " ") 512 <> [].
Proof.
  repeat split; vm_compute; congruence.
Qed.

(* --------------------------------------------------------------------- *)
(** ** [DocumentProcessor.extract_text_from_pdf] *)
(* --------------------------------------------------------------------- *)

(** The loop over the pages returns when every page gives its text: the
    texts in order, each followed by a line feed. *)
Lemma extract_pages_texts (texts : list pystr) :
  forall text_content,
    extract_pages (map Return texts) text_content
    = Return (text_content ++ concat (map (fun t => t ++ [10%N]) texts)).
Proof.
  induction texts as [ | t texts IH]; intros text_content; simpl.
  - rewrite app_nil_r. reflexivity.
  - rewrite IH, <- !app_assoc. reflexivity.
Qed.

(** It raises the exception of the first page that fails. *)
Lemma extract_pages_failure (texts : list pystr) (cause : pystr)
    (rest : list (outcome pystr)) :
  forall text_content,
    extract_pages (map Return texts ++ Raise cause :: rest) text_content
    = Raise cause.
Proof.
  induction texts as [ | t texts IH]; intros text_content; simpl.
  - reflexivity.
  - apply IH.
Qed.

(** What [extract_text_from_pdf] answers, from what the PDF library makes
    of its argument. *)
Lemma extract_text_from_pdf_run (pypdf : pdf_library) (pdf_file : pdf_input)
    (f : stream) :
  (extract_text_from_pdf pypdf pdf_file f).1
  = match pdf_pages pypdf pdf_file f with
    | Raise cause => Raise (py "Error processing PDF: " ++ cause)
    | Return pgs =>
        match extract_pages pgs [] with
        | Return text_content => Return (strip text_content)
        | Raise cause => Raise (py "Error processing PDF: " ++ cause)
        end
    end.
Proof.
  unfold extract_text_from_pdf, pdf_pages, try_except, bind, lift, ret, raise.
  destruct pdf_file as [ | p].
  - unfold stream_read. destruct (closed f); [ reflexivity | ].
    destruct (open_bytes pypdf (drop (pos f) (data f))) as [reader | e];
      [ | reflexivity ].
    destruct (pages reader) as [pgs | e]; [ | reflexivity ].
    destruct (extract_pages pgs []); reflexivity.
  - destruct (open_path pypdf p) as [reader | e]; [ | reflexivity ].
    destruct (pages reader) as [pgs | e]; [ | reflexivity ].
    destruct (extract_pages pgs []); reflexivity.
Qed.

(** The stream that [extract_text_from_pdf] leaves behind. *)
Lemma extract_text_from_pdf_stream (pypdf : pdf_library)
    (pdf_file : pdf_input) (f : stream) :
  (extract_text_from_pdf pypdf pdf_file f).2
  = match pdf_file with
    | FileObject =>
        if closed f then f
        else {| data := data f; pos := Nat.max (pos f) (length (data f));
                closed := false |}
    | PathLike _ => f
    end.
Proof.
  unfold extract_text_from_pdf, try_except, bind, lift, ret, raise.
  destruct pdf_file as [ | p].
  - unfold stream_read. destruct (closed f); [ reflexivity | ].
    destruct (open_bytes pypdf (drop (pos f) (data f))) as [reader | e];
      [ | reflexivity ].
    destruct (pages reader) as [pgs | e]; [ | reflexivity ].
    destruct (extract_pages pgs []); reflexivity.
  - destruct (open_path pypdf p) as [reader | e]; [ | reflexivity ].
    destruct (pages reader) as [pgs | e]; [ | reflexivity ].
    destruct (extract_pages pgs []); reflexivity.
Qed.

(** The stream that [validate_pdf] leaves behind. *)
Lemma validate_pdf_stream (pypdf : pdf_library) (pdf_file : pdf_input)
    (f : stream) :
  (validate_pdf pypdf pdf_file f).2
  = match pdf_file with
    | FileObject =>
        if closed f then f
        else match open_bytes pypdf (drop (pos f) (data f)) with
             | Return _ => {| data := data f; pos := 0; closed := false |}
             | Raise _ =>
                 {| data := data f; pos := Nat.max (pos f) (length (data f));
                    closed := false |}
             end
    | PathLike _ => f
    end.
Proof.
  unfold validate_pdf, try_except, bind, lift, ret.
  destruct pdf_file as [ | p].
  - unfold stream_read, stream_seek. destruct (closed f); [ reflexivity | ].
    destruct (open_bytes pypdf (drop (pos f) (data f))) as [reader | e];
      [ | reflexivity ].
    simpl. destruct (pages reader) as [[ | pg pgs] | e]; reflexivity.
  - destruct (open_path pypdf p) as [reader | e]; [ | reflexivity ].
    destruct (pages reader) as [[ | pg pgs] | e]; reflexivity.
Qed.

(** X1.  [extract_text_from_pdf] raises exactly when reading the stream,
    opening the document, reading its pages or extracting the text of a
    page raises, and then with the message "Error processing PDF: "
    followed by the message of that first failure; no partial text is
    returned.  When every page gives its text, it returns the texts in
    page order, each followed by a line feed, with the white space at
    both ends removed; so what it returns is always its own trim, and it
    is the empty string for a document without pages. *)
Theorem extract_text_from_pdf_spec (pypdf : pdf_library)
    (pdf_file : pdf_input) (f : stream) :
  let result := (extract_text_from_pdf pypdf pdf_file f).1 in
  match pdf_pages pypdf pdf_file f with
  | Raise cause => result = Raise (py "Error processing PDF: " ++ cause)
  | Return pgs =>
      (forall texts,
          pgs = map Return texts ->
          result
          = Return (strip (concat (map (fun t => t ++ [10%N]) texts))))
      /\ (forall texts cause rest,
             pgs = map Return texts ++ Raise cause :: rest ->
             result = Raise (py "Error processing PDF: " ++ cause))
      /\ (pgs = [] -> result = Return [])
  end
  /\ (forall text, result = Return text -> strip text = text)
  /\ (forall e, result = Raise e ->
      exists cause, e = py "Error processing PDF: " ++ cause).
Proof.
  intros result. unfold result. rewrite extract_text_from_pdf_run.
  destruct (pdf_pages pypdf pdf_file f) as [pgs | cause].
  - repeat split.
    + intros texts ->. rewrite extract_pages_texts. reflexivity.
    + intros texts cause rest ->. rewrite extract_pages_failure. reflexivity.
    + intros ->. reflexivity.
    + intros text H. destruct (extract_pages pgs []); inversion H.
      apply strip_idempotent.
    + intros e H. destruct (extract_pages pgs []); inversion H. eauto.
  - repeat split.
    + intros text H. discriminate H.
    + intros e H. inversion H. eauto.
Qed.

(** X2.  Neither [validate_pdf] nor [extract_text_from_pdf] alters the
    bytes of the stream or closes it, and with a path argument they leave
    the stream alone.  [extract_text_from_pdf] does not rewind: on an
    open stream it leaves the read position at the end, whatever it
    answers, so that the next [read()] returns no byte; a second
    extraction, or a validation, of the same stream then judges the empty
    byte string, and when the PDF library refuses that, [validate_pdf]
    answers that the file is invalid and leaves the position at the
    end. *)
Theorem extract_text_from_pdf_consumes_stream (pypdf : pdf_library) :
  (forall pdf_file f,
      let f1 := (validate_pdf pypdf pdf_file f).2 in
      let f2 := (extract_text_from_pdf pypdf pdf_file f).2 in
      data f1 = data f /\ closed f1 = closed f
      /\ data f2 = data f /\ closed f2 = closed f)
  /\ (forall p f,
         (validate_pdf pypdf (PathLike p) f).2 = f
         /\ (extract_text_from_pdf pypdf (PathLike p) f).2 = f)
  /\ (forall f,
         closed f = false ->
         let f' := (extract_text_from_pdf pypdf FileObject f).2 in
         (length (data f) <= pos f')%nat
         /\ (stream_read f').1 = Return []
         /\ pdf_pages pypdf FileObject f'
            = match open_bytes pypdf [] with
              | Return reader => pages reader
              | Raise e => Raise e
              end
         /\ (forall e,
                open_bytes pypdf [] = Raise e ->
                validate_pdf pypdf FileObject f'
                = (Return (false, py "Invalid PDF file: " ++ e), f')
                /\ (extract_text_from_pdf pypdf FileObject f').1
                   = Raise (py "Error processing PDF: " ++ e))).
Proof.
  split; [ | split ].
  - intros pdf_file f. cbv zeta.
    rewrite validate_pdf_stream, extract_text_from_pdf_stream.
    destruct pdf_file as [ | p]; [ | repeat split ].
    destruct (closed f) eqn:Hc; [ repeat split; congruence | ].
    destruct (open_bytes pypdf (drop (pos f) (data f)));
      repeat split; simpl; congruence.
  - intros p f. rewrite validate_pdf_stream, extract_text_from_pdf_stream.
    split; reflexivity.
  - intros f Hc f'.
    assert (f' = {| data := data f; pos := Nat.max (pos f) (length (data f));
                    closed := false |}) as Ef'.
    { unfold f'. rewrite extract_text_from_pdf_stream, Hc. reflexivity. }
    clearbody f'. subst f'.
    assert (drop (Nat.max (pos f) (length (data f))) (data f) = []) as Edrop
        by (apply drop_ge; lia).
    assert (pdf_pages pypdf FileObject
              {| data := data f; pos := Nat.max (pos f) (length (data f));
                 closed := false |}
            = match open_bytes pypdf [] with
              | Return reader => pages reader
              | Raise e => Raise e
              end) as Epages.
    { unfold pdf_pages. simpl. rewrite Edrop. reflexivity. }
    split; [ simpl; lia | ].
    split; [ unfold stream_read; simpl; rewrite Edrop; reflexivity | ].
    split; [ exact Epages | ].
    intros e He. split.
    + unfold validate_pdf, try_except, bind, lift, ret, stream_read.
      simpl. rewrite Edrop, He.
      rewrite Nat.max_l by lia. reflexivity.
    + rewrite extract_text_from_pdf_run, Epages, He. reflexivity.
Qed.

(** X2, witness: a stream of five bytes at its start, over a library that
    refuses the empty byte string.  The first extraction returns the text
    of five pages; the validation that follows finds the file invalid. *)
Lemma extract_text_from_pdf_consumes_stream_witness :
  let f := {| data := [Byte.x25; Byte.x50; Byte.x44; Byte.x46; Byte.x2d];
              pos := 0; closed := false |} in
  let f' := (extract_text_from_pdf bytewise_pdf FileObject f).2 in
  (extract_text_from_pdf bytewise_pdf FileObject f).1
  = Return (py "page" ++ [10%N] ++ py "page" ++ [10%N] ++ py "page"
            ++ [10%N] ++ py "page" ++ [10%N] ++ py "page")
  /\ (stream_read f').1 = Return []
  /\ validate_pdf bytewise_pdf FileObject f'
     = (Return (false, py "Invalid PDF file: Cannot read an empty file"), f').
Proof.
  intros f f'.
  destruct (extract_text_from_pdf_consumes_stream bytewise_pdf)
    as (_ & _ & H).
  destruct (H f eq_refl) as (_ & Hread & _ & Hinvalid).
  split; [ vm_compute; reflexivity | ].
  split; [ exact Hread | ].
  exact (proj1 (Hinvalid _ eq_refl)).
Defined.

(** X3.  Validation followed by extraction, as [main] runs them on an
    upload.  When [validate_pdf] accepts a stream that is at its start,
    it leaves the stream as it found it, the document has at least one
    page, and [extract_text_from_pdf] then opens the same bytes: it
    returns the trimmed text of the pages, or raises for the first page
    whose text cannot be extracted, and for no other reason. *)
Theorem validate_then_extract (pypdf : pdf_library) (f f' : stream) :
  pos f = 0%nat ->
  validate_pdf pypdf FileObject f = (Return (true, []), f') ->
  f' = f
  /\ exists pg pgs,
      pdf_pages pypdf FileObject f = Return (pg :: pgs)
      /\ (extract_text_from_pdf pypdf FileObject f').1
         = match extract_pages (pg :: pgs) [] with
           | Return text_content => Return (strip text_content)
           | Raise cause => Raise (py "Error processing PDF: " ++ cause)
           end.
Proof.
  intros Hpos Hv.
  assert (f' = (validate_pdf pypdf FileObject f).2) as Ef'
      by (rewrite Hv; reflexivity).
  rewrite validate_pdf_stream in Ef'.
  unfold validate_pdf, try_except, bind, lift, ret, stream_read, stream_seek
    in Hv.
  destruct (closed f) eqn:Hc; [ discriminate Hv | ].
  destruct (open_bytes pypdf (drop (pos f) (data f))) as [reader | e] eqn:Eo;
    [ | discriminate Hv ].
  simpl in Hv.
  destruct (pages reader) as [[ | pg pgs] | e] eqn:Epages;
    [ discriminate Hv | | discriminate Hv ].
  assert (f' = f) as ->.
  { rewrite Ef'. destruct f; simpl in *. subst. reflexivity. }
  assert (pdf_pages pypdf FileObject f = Return (pg :: pgs)) as Ep.
  { unfold pdf_pages. rewrite Hc, Eo. exact Epages. }
  split; [ reflexivity | ].
  exists pg, pgs. split; [ exact Ep | ].
  rewrite extract_text_from_pdf_run, Ep. reflexivity.
Qed.

(** X3, witness: five bytes that the library opens as five pages. *)
Lemma validate_then_extract_witness :
  let f := {| data := [Byte.x25; Byte.x50; Byte.x44; Byte.x46; Byte.x2d];
              pos := 0; closed := false |} in
  (validate_pdf bytewise_pdf FileObject f).2 = f
  /\ exists pg pgs,
      pdf_pages bytewise_pdf FileObject f = Return (pg :: pgs).
Proof.
  intros f.
  destruct (validate_then_extract bytewise_pdf f
              (validate_pdf bytewise_pdf FileObject f).2 eq_refl eq_refl)
    as (E & pg & pgs & Hp & _).
  split; [ exact E | ]. exists pg, pgs. exact Hp.
Defined.

(* --------------------------------------------------------------------- *)
(** ** [PerformanceTracker]: the recorded metrics *)
(* --------------------------------------------------------------------- *)

(** What [track_time] leaves behind: the state after the body, with the
    clock read once more and the elapsed time stored. *)
Lemma track_time_run {W A : Type} (time_time : W -> float * W)
    (self : PerformanceTracker) (operation_name : pystr)
    (body : M (tracking W) A) (s : tracking W) :
  let start_time := (time_time (rest s)).1 in
  let s0 := {| dicts := dicts s; allocated := allocated s;
               rest := (time_time (rest s)).2 |} in
  let s1 := (body s0).2 in
  let end_time := (time_time (rest s1)).1 in
  track_time time_time self operation_name body s
  = ((body s0).1,
     {| dicts := fun i =>
          if (i =? metrics self)%nat
          then <[ operation_name := Float.sub end_time start_time ]>
                 (dicts s1 i)
          else dicts s1 i;
        allocated := allocated s1;
        rest := (time_time (rest s1)).2 |}).
Proof.
  cbv zeta.
  unfold track_time, try_finally, bind, tracker_now, dict_setitem, modify.
  simpl. destruct (body _) as [r s1]. reflexivity.
Qed.

(** X4.  A block [with tracker.track_time(name): body] reads the clock
    before and after the body and ends as the body ends: with its value,
    or with the very exception the body raised.  On both exits
    [get_metric(name)] afterwards returns the second reading minus the
    first (a later block of the same name replaces it); the metric of
    every other name, and every dict other than the tracker's own, is as
    the body left it. *)
Theorem track_time_records {W A : Type} (time_time : W -> float * W)
    (self : PerformanceTracker) (operation_name : pystr)
    (body : M (tracking W) A) (s : tracking W) :
  let start_time := (time_time (rest s)).1 in
  let s0 := {| dicts := dicts s; allocated := allocated s;
               rest := (time_time (rest s)).2 |} in
  let s1 := (body s0).2 in
  let end_time := (time_time (rest s1)).1 in
  let s' := (track_time time_time self operation_name body s).2 in
  (track_time time_time self operation_name body s).1 = (body s0).1
  /\ get_metric self operation_name s'
     = (Return (Float.sub end_time start_time), s')
  /\ (forall other,
         other <> operation_name ->
         get_metric self other s' = ((get_metric self other s1).1, s'))
  /\ (forall id, id <> metrics self -> dicts s' id = dicts s1 id)
  /\ allocated s' = allocated s1
  /\ rest s' = (time_time (rest s1)).2.
Proof.
  cbv zeta. rewrite track_time_run. cbv zeta.
  unfold get_metric, dict_get. cbn [snd fst dicts allocated rest].
  rewrite Nat.eqb_refl.
  repeat split.
  - rewrite lookup_insert_eq. reflexivity.
  - intros other Hother. rewrite lookup_insert_ne by congruence. reflexivity.
  - intros id Hid. apply Nat.eqb_neq in Hid. rewrite Hid. reflexivity.
Qed.

(** X5.  A new tracker has no metric: [get_metric] returns 0.0 for every
    name.  [get_all_metrics] returns a dict object of its own with the
    items of the tracker's dict: an assignment to the returned dict does
    not change what [get_metric] returns, and a timed block does not
    change the returned dict. *)
Theorem get_all_metrics_is_a_copy {W : Type} (time_time : W -> float * W) :
  (forall (s : tracking W) name,
      exists self s',
        tracker_init s = (Return self, s')
        /\ (metrics self < allocated s')%nat
        /\ get_metric self name s' = (Return Float.zero, s'))
  /\ (forall (self : PerformanceTracker) (s : tracking W),
         (metrics self < allocated s)%nat ->
         exists snapshot s1,
           get_all_metrics self s = (Return snapshot, s1)
           /\ snapshot <> metrics self
           /\ dicts s1 snapshot = dicts s (metrics self)
           /\ dicts s1 (metrics self) = dicts s (metrics self)
           /\ (forall key value name,
                  (get_metric self name
                     (dict_setitem snapshot key value s1).2).1
                  = (get_metric self name s).1)
           /\ (forall A name (body : M (tracking W) A),
                  (forall s2, dicts (body s2).2 snapshot = dicts s2 snapshot) ->
                  dicts (track_time time_time self name body s1).2 snapshot
                  = dicts s1 snapshot)).
Proof.
  split.
  - intros s name. do 2 eexists. split; [ reflexivity | ].
    cbn [metrics allocated]. split; [ lia | ].
    unfold get_metric, dict_get. cbn [metrics dicts]. rewrite Nat.eqb_refl.
    rewrite lookup_empty. reflexivity.
  - intros self s Hself. do 2 eexists. split; [ reflexivity | ].
    assert ((metrics self =? allocated s)%nat = false) as Hne
        by (apply Nat.eqb_neq; lia).
    assert ((allocated s =? metrics self)%nat = false) as Hne'
        by (apply Nat.eqb_neq; lia).
    cbn [dicts allocated rest fst snd]. rewrite Nat.eqb_refl, Hne.
    split; [ lia | ]. split; [ reflexivity | ]. split; [ reflexivity | ].
    split.
    + intros key value name.
      unfold get_metric, dict_get, dict_setitem, modify.
      cbn [dicts allocated rest fst snd]. rewrite !Hne. reflexivity.
    + intros A name body Hbody. rewrite track_time_run. cbv zeta.
      cbn [dicts allocated rest fst snd].
      rewrite Hne', Hbody. cbn [dicts]. rewrite Nat.eqb_refl. reflexivity.
Qed.

(** X5, witness: a tracker made in an empty state, over a clock that
    counts; its copy is the dict 1, the tracker's own is the dict 0. *)
Lemma get_all_metrics_is_a_copy_witness :
  let time_time := fun n : nat => (float_of_nat n, S n) in
  let s := {| dicts := fun _ => ∅; allocated := 1; rest := 0%nat |} in
  let self := {| metrics := 0 |} in
  exists snapshot s1,
    get_all_metrics self s = (Return snapshot, s1)
    /\ snapshot <> metrics self.
Proof.
  intros time_time s self.
  destruct (get_all_metrics_is_a_copy time_time) as [_ H].
  destruct (H self s ltac:(simpl; lia)) as (snapshot & s1 & Hrun & Hne & _).
  exists snapshot, s1. split; [ exact Hrun | exact Hne ].
Defined.

(* --------------------------------------------------------------------- *)
(** ** The engines: what a call leaves alone *)
(* --------------------------------------------------------------------- *)

Section Respects.

Context {Index : Type} (R : world Index -> world Index -> Prop).
Hypothesis R_refl : forall w, R w w.
Hypothesis R_trans : forall w1 w2 w3, R w1 w2 -> R w2 w3 -> R w1 w3.

Lemma respects_ret {A : Type} (a : A) : respects R (ret a).
Proof. intros w r w' H. inversion H; subst. apply R_refl. Qed.

Lemma respects_raise {A : Type} (e : pystr) : respects R (A := A) (raise e).
Proof. intros w r w' H. inversion H; subst. apply R_refl. Qed.

Lemma respects_lift {A : Type} (o : outcome A) : respects R (lift o).
Proof. intros w r w' H. inversion H; subst. apply R_refl. Qed.

Lemma respects_get : respects R get.
Proof. intros w r w' H. inversion H; subst. apply R_refl. Qed.

Lemma respects_bind {A C : Type} (m : M (world Index) A)
    (k : A -> M (world Index) C) :
  respects R m -> (forall a, respects R (k a)) -> respects R (bind m k).
Proof.
  intros Hm Hk w r w' H.
  apply bind_inv in H as [(e & H & _) | (a & w1 & H1 & H2)].
  - eapply Hm, H.
  - eapply R_trans; [ eapply Hm, H1 | eapply Hk, H2 ].
Qed.

Lemma respects_try_except {A : Type} (body : M (world Index) A) handler :
  respects R body -> (forall e, respects R (handler e)) ->
  respects R (try_except body handler).
Proof.
  intros Hb Hh w r w' H.
  apply try_except_inv in H as [(a & H & _) | (e & w1 & H1 & H2)].
  - eapply Hb, H.
  - eapply R_trans; [ eapply Hb, H1 | eapply Hh, H2 ].
Qed.

Lemma respects_for_each {A : Type} (xs : list A)
    (body : A -> M (world Index) unit) :
  Forall (fun x => respects R (body x)) xs -> respects R (for_each xs body).
Proof.
  induction 1 as [ | x xs Hx _ IH]; simpl.
  - apply respects_ret.
  - apply respects_bind; [ exact Hx | intros _; exact IH ].
Qed.

End Respects.

Section BuildFrame.

Context {Docs Index : Type} (B : backend Docs Index) (v : variant).

Lemma build_frame_refl (w : world Index) : build_frame v w w.
Proof. repeat split; auto. Qed.

Lemma build_frame_trans (w1 w2 w3 : world Index) :
  build_frame v w1 w2 -> build_frame v w2 w3 -> build_frame v w1 w3.
Proof.
  intros (Hs1 & Hm1 & Hd1 & Hf1 & Ht1 & Hl1) (Hs2 & Hm2 & Hd2 & Hf2 & Ht2 & Hl2).
  split; [ congruence | ]. split; [ congruence | ].
  split; [ intros d Hd; specialize (Hd1 d Hd); specialize (Hd2 d Hd); tauto | ].
  split; [ intros p Hp; rewrite Hf2, Hf1 by assumption; reflexivity | ].
  split; [ lia | etransitivity; eassumption ].
Qed.

Lemma build_frame_now : respects (build_frame v) (now Docs Index B).
Proof.
  intros w r w' H. inversion H; subst. repeat split; simpl; auto.
Qed.

Lemma build_frame_request {A : Type} ev (answer : list event -> outcome A) :
  respects (build_frame v) (request Index ev answer).
Proof.
  intros w r w' H. inversion H; subst. repeat split; simpl; auto.
  apply prefix_app_r. reflexivity.
Qed.

Lemma build_frame_makedirs :
  respects (build_frame v) (makedirs Index (temp_dir v)).
Proof.
  intros w r w' H. unfold makedirs in H.
  repeat case_bool_decide; inversion H; subst;
    try apply build_frame_refl.
  repeat split; simpl; auto.
  - intros Hd. apply elem_of_union in Hd as [Hd | Hd]; [ | exact Hd ].
    apply elem_of_singleton in Hd. congruence.
  - intros Hd. apply elem_of_union. right. exact Hd.
Qed.

Lemma build_frame_write_text (p : path) text :
  p.1 = temp_dir v -> respects (build_frame v) (write_text Index p text).
Proof.
  intros Hp w r w' H. unfold write_text in H.
  case_bool_decide; [ destruct (forallb utf8_encodable text) | ];
    inversion H; subst; try apply build_frame_refl;
    repeat split; simpl; auto;
    intros q Hq; apply lookup_insert_ne; congruence.
Qed.

Lemma build_frame_os_remove (p : path) :
  p.1 = temp_dir v -> respects (build_frame v) (os_remove Index p).
Proof.
  intros Hp w r w' H. unfold os_remove in H.
  destruct (files (fs w) !! p); inversion H; subst;
    try apply build_frame_refl.
  repeat split; simpl; auto.
  intros q Hq. apply lookup_delete_ne. congruence.
Qed.

Lemma build_frame_os_rmdir :
  respects (build_frame v) (os_rmdir Index (temp_dir v)).
Proof.
  intros w r w' H. unfold os_rmdir in H.
  repeat case_bool_decide; inversion H; subst;
    try apply build_frame_refl.
  repeat split; simpl; auto.
  - intros Hd. apply elem_of_difference in Hd as [Hd _]. exact Hd.
  - intros Hd. apply elem_of_difference. split; [ exact Hd | ].
    intros Hs. apply elem_of_singleton in Hs. congruence.
Qed.

(** The paths that [save_documents] appends are in the temporary
    directory. *)
Lemma save_documents_paths documents :
  forall i doc_files w r w',
    Forall (fun p : path => p.1 = temp_dir v) doc_files ->
    save_documents Index v i documents doc_files w = (Return r, w') ->
    Forall (fun p : path => p.1 = temp_dir v) r.
Proof.
  induction documents as [ | d ds IH]; intros i doc_files w r w' Hacc H;
    simpl in H.
  - inversion H; subst. exact Hacc.
  - apply bind_inv in H as [(e & _ & Hr) | ([] & w1 & _ & H)];
      [ discriminate Hr | ].
    eapply IH; [ | exact H ].
    apply Forall_app. split; [ exact Hacc | ].
    constructor; [ reflexivity | constructor ].
Qed.

Lemma build_frame_save_documents documents :
  forall i doc_files,
    respects (build_frame v) (save_documents Index v i documents doc_files).
Proof.
  induction documents as [ | d ds IH]; intros i doc_files; simpl.
  - apply respects_ret, build_frame_refl.
  - apply respects_bind; [ apply build_frame_trans | | intros _; apply IH ].
    apply build_frame_write_text. reflexivity.
Qed.

Lemma build_frame_reader_load_data doc_files :
  respects (build_frame v) (reader_load_data Docs Index B doc_files).
Proof.
  unfold reader_load_data.
  apply respects_bind; [ apply build_frame_trans | | intros w ].
  { apply respects_get, build_frame_refl. }
  apply respects_bind; [ apply build_frame_trans | | intros c ].
  { apply respects_lift, build_frame_refl. }
  apply build_frame_request.
Qed.

Lemma build_frame_build_index documents :
  respects (build_frame v) (build_index B v documents).
Proof.
  unfold build_index.
  apply respects_bind; [ apply build_frame_trans | apply build_frame_now | ].
  intros start_time.
  apply respects_try_except;
    [ apply build_frame_trans | | intros e; apply respects_raise, build_frame_refl ].
  apply respects_bind;
    [ apply build_frame_trans | apply build_frame_makedirs | intros _ ].
  intros w r w' H.
  apply bind_inv in H as [(e & H & _) | (doc_files & w1 & Hsave & H)].
  { eapply build_frame_save_documents, H. }
  pose proof (save_documents_paths _ _ _ _ _ _ ltac:(constructor) Hsave) as Hpaths.
  apply (build_frame_trans _ w1);
    [ eapply build_frame_save_documents, Hsave | ].
  revert H. generalize w1 r w'. clear w r w' w1 Hsave.
  change (respects (build_frame v)
    (bind (reader_load_data Docs Index B doc_files) (fun docs =>
     bind (for_each doc_files (os_remove Index)) (fun _ =>
     bind (os_rmdir Index (temp_dir v)) (fun _ =>
     bind (request Index (EvFromDocuments v (chunk_size v) (chunk_overlap v))
             (fun l => from_documents Docs Index B l v docs)) (fun idx =>
     bind (modify (set_self Index
                     (fun e => {| model_name := model_name e;
                                  index := Some idx;
                                  build_time := build_time e |}))) (fun _ =>
     bind (now Docs Index B) (fun end_time =>
     bind (modify (set_self Index
                     (fun e => {| model_name := model_name e;
                                  index := index e;
                                  build_time := Float.sub end_time start_time |})))
          (fun _ => ret (Float.sub end_time start_time)))))))))).
  apply respects_bind;
    [ apply build_frame_trans | apply build_frame_reader_load_data | intros docs ].
  apply respects_bind; [ apply build_frame_trans | | intros _ ].
  { apply respects_for_each; [ apply build_frame_refl | apply build_frame_trans | ].
    eapply Forall_impl; [ exact Hpaths | ].
    intros p Hp. apply build_frame_os_remove, Hp. }
  apply respects_bind;
    [ apply build_frame_trans | apply build_frame_os_rmdir | intros _ ].
  apply respects_bind;
    [ apply build_frame_trans | apply build_frame_request | intros idx ].
  apply respects_bind; [ apply build_frame_trans | | intros _ ].
  { intros w r w' H. inversion H; subst. repeat split; simpl; auto. }
  apply respects_bind;
    [ apply build_frame_trans | apply build_frame_now | intros end_time ].
  apply respects_bind; [ apply build_frame_trans | | intros _ ].
  { intros w r w' H. inversion H; subst. repeat split; simpl; auto. }
  apply respects_ret, build_frame_refl.
Qed.

(** What [query] does on an engine that has an index. *)
Lemma query_run query_text (w : world Index) idx :
  index (self w) = Some idx ->
  query B v query_text w
  = match run_query Docs Index B (log w) v idx query_text with
    | Return resp =>
        (Return {| response := response_str resp;
                   source_nodes := default [] (response_source_nodes resp);
                   execution_time :=
                     Float.sub (clock Docs Index B (S (ticks w))) (clock Docs Index B (ticks w));
                   timestamp := clock Docs Index B (S (S (ticks w))) |},
         {| self := self w; fs := fs w; settings := settings w;
            ticks := S (S (S (ticks w)));
            log := log w ++ [EvQuery v (similarity_top_k v) query_text] |})
    | Raise e =>
        (Raise (py "Query failed: " ++ e),
         {| self := self w; fs := fs w; settings := settings w;
            ticks := S (ticks w);
            log := log w ++ [EvQuery v (similarity_top_k v) query_text] |})
    end.
Proof.
  intros Hidx.
  unfold query, bind, get, now, try_except, request, ret, raise.
  rewrite Hidx. simpl.
  destruct (run_query Docs Index B (log w) v idx query_text); reflexivity.
Qed.

(** What [__init__] does. *)
Lemma init_run name (w : world Index) :
  init B v name w
  = match make_models Docs Index B (log w) name with
    | Return _ =>
        (Return tt,
         {| self := {| model_name := name; index := None;
                       build_time := Float.zero |};
            fs := fs w;
            settings := Some {| llm := name;
                                embed_model := py "BAAI/bge-small-en-v1.5";
                                settings_chunk_size := chunk_size v |};
            ticks := ticks w;
            log := log w ++ [EvModels name] |})
    | Raise e =>
        (Raise (py "Failed to initialize LLM/embeddings: " ++ e),
         {| self := {| model_name := name; index := None;
                       build_time := Float.zero |};
            fs := fs w; settings := settings w; ticks := ticks w;
            log := log w ++ [EvModels name] |})
    end.
Proof.
  unfold init, initialize_llm_and_embeddings, bind, modify, try_except, get,
    request, ret, raise.
  simpl. destruct (make_models Docs Index B (log w) name) as [[] | e]; reflexivity.
Qed.

End BuildFrame.

(** X6.  For both engines and whatever the outcome, [build_index]
    touches the file system only inside its temporary directory: every
    other directory and every file outside that directory is as it was.
    It does not change the global settings nor the model name of the
    engine; the clock only advances and the requests made before stay
    in front of the ones it adds. *)
Theorem build_index_frame {Docs Index : Type} (B : backend Docs Index)
    (v : variant) (documents : list pystr) (w : world Index) :
  let w' := (build_index B v documents w).2 in
  settings w' = settings w
  /\ model_name (self w') = model_name (self w)
  /\ (forall d, d <> temp_dir v -> d ∈ dirs (fs w') <-> d ∈ dirs (fs w))
  /\ (forall p : path, p.1 <> temp_dir v ->
                       files (fs w') !! p = files (fs w) !! p)
  /\ (ticks w <= ticks w')%nat
  /\ log w `prefix_of` log w'.
Proof.
  intros w'.
  apply (build_frame_build_index B v documents w
           (build_index B v documents w).1 w').
  unfold w'. destruct (build_index B v documents w); reflexivity.
Qed.

(** X7.  [query] never touches the engine object, the file system or the
    settings.  On an engine without an index it asks nothing and does not
    read the clock.  On an engine with an index it asks the backend
    exactly once, for the query text with the [similarity_top_k] of its
    variant (3 for Vector, 2 for Tree).  When the backend answers, the
    result holds the [str] of the response, its source nodes (none when
    the response has no such attribute, in which case [get_source_text]
    gives the placeholder), as execution time the second clock reading
    minus the first, and as timestamp a third reading.  When the backend
    raises, [query] raises "Query failed: " followed by its message. *)
Theorem query_asks_once {Docs Index : Type} (B : backend Docs Index)
    (v : variant) (query_text : pystr) (w : world Index) :
  let r := (query B v query_text w).1 in
  let w' := (query B v query_text w).2 in
  self w' = self w /\ fs w' = fs w /\ settings w' = settings w
  /\ match index (self w) with
     | None => log w' = log w /\ ticks w' = ticks w
     | Some idx =>
         log w' = log w ++ [EvQuery v (similarity_top_k v) query_text]
         /\ match run_query Docs Index B (log w) v idx query_text with
            | Return resp =>
                exists result,
                  r = Return result
                  /\ response result = response_str resp
                  /\ source_nodes result
                     = default [] (response_source_nodes resp)
                  /\ execution_time result
                     = Float.sub (clock Docs Index B (S (ticks w)))
                                 (clock Docs Index B (ticks w))
                  /\ timestamp result = clock Docs Index B (S (S (ticks w)))
                  /\ ticks w' = S (S (S (ticks w)))
                  /\ (response_source_nodes resp = None ->
                      get_source_text result = py "No sources retrieved")
            | Raise e =>
                r = Raise (py "Query failed: " ++ e)
                /\ ticks w' = S (ticks w)
            end
     end.
Proof.
  intros r w'. unfold r, w'. clear r w'.
  destruct (index (self w)) as [idx | ] eqn:Hidx.
  - rewrite (query_run B v query_text w idx Hidx).
    destruct (run_query Docs Index B (log w) v idx query_text) as [resp | e];
      simpl; repeat split.
    eexists. repeat split.
    intros Hnone. unfold get_source_text. simpl. rewrite Hnone. reflexivity.
  - rewrite (query_without_index B v query_text w Hidx). repeat split.
Qed.

(** X8.  Constructing an engine asks for the models of the given name
    once.  When that succeeds, the global settings are overwritten with
    that model, the embedding model "BAAI/bge-small-en-v1.5" and the
    chunk size of the variant (512 for Vector, 1024 for Tree), whatever
    they were: the engine constructed last decides, so after a Vector
    and then a Tree engine the chunk size is 1024.  When it fails, the
    constructor raises "Failed to initialize LLM/embeddings: " followed
    by the message, and the settings are as before.  The file system and
    the clock are not touched. *)
Theorem init_sets_global_settings {Docs Index : Type}
    (B : backend Docs Index) :
  (forall v name (w : world Index),
      let r := (init B v name w).1 in
      let w' := (init B v name w).2 in
      fs w' = fs w /\ ticks w' = ticks w
      /\ log w' = log w ++ [EvModels name]
      /\ match make_models Docs Index B (log w) name with
         | Return _ =>
             r = Return tt
             /\ settings w'
                = Some {| llm := name;
                          embed_model := py "BAAI/bge-small-en-v1.5";
                          settings_chunk_size := chunk_size v |}
         | Raise e =>
             r = Raise (py "Failed to initialize LLM/embeddings: " ++ e)
             /\ settings w' = settings w
         end)
  /\ (forall name1 name2 (w w1 w2 : world Index),
         init B Vector name1 w = (Return tt, w1) ->
         init B Tree name2 w1 = (Return tt, w2) ->
         settings_chunk_size <$> settings w1 = Some 512
         /\ settings_chunk_size <$> settings w2 = Some 1024).
Proof.
  split.
  - intros v name w r w'. unfold r, w'. clear r w'. rewrite init_run.
    destruct (make_models Docs Index B (log w) name); simpl; repeat split.
  - intros name1 name2 w w1 w2 H1 H2.
    rewrite init_run in H1, H2.
    destruct (make_models Docs Index B (log w) name1); inversion H1; subst.
    simpl in H2.
    destruct (make_models Docs Index B _ name2); inversion H2; subst.
    split; reflexivity.
Qed.

(* --------------------------------------------------------------------- *)
(** ** [TreeRAGEngine.get_tree_structure_info] *)
(* --------------------------------------------------------------------- *)

Lemma info_keys_distinct :
  py "num_nodes" <> py "index_type" /\ py "num_nodes" <> py "model_used"
  /\ py "index_type" <> py "model_used" /\ py "error" <> py "num_nodes"
  /\ py "error" <> py "index_type" /\ py "error" <> py "model_used".
Proof. repeat split; intros H; vm_compute in H; discriminate H. Qed.

(** X9.  [get_tree_structure_info] returns a dict that has the key
    "num_nodes" exactly when the engine has an index whose document store
    can be counted; it then holds that count, the index type "TreeIndex"
    and the model name of the engine, and no key "error".  In every
    other case the dict holds the key "error" alone: with the message
    "Index not built" when there is no index, with the message of the
    exception when counting raised.  Along every history of a Tree engine
    in which no [build_index] has returned, the answer is the former. *)
Theorem tree_structure_info_keys {Docs Index : Type}
    (B : backend Docs Index) (docstore_len : Index -> outcome Z) :
  (forall e : engine Index,
      let info := get_tree_structure_info docstore_len e in
      match index e with
      | None => info = {[ py "error" := InfoStr (py "Index not built") ]}
      | Some idx =>
          match docstore_len idx with
          | Return n =>
              info !! py "num_nodes" = Some (InfoInt n)
              /\ info !! py "index_type" = Some (InfoStr (py "TreeIndex"))
              /\ info !! py "model_used" = Some (InfoStr (model_name e))
              /\ info !! py "error" = None
          | Raise err => info = {[ py "error" := InfoStr err ]}
          end
      end
      /\ (is_Some (info !! py "num_nodes")
          <-> exists idx n, index e = Some idx /\ docstore_len idx = Return n)
      /\ (is_Some (info !! py "error")
          <-> ~ is_Some (info !! py "num_nodes")))
  /\ (forall w : world Index,
         reachable B Tree false w ->
         get_tree_structure_info docstore_len (self w)
         = {[ py "error" := InfoStr (py "Index not built") ]}).
Proof.
  destruct info_keys_distinct as (H1 & H2 & H3 & H4 & H5 & H6).
  assert (forall s : pystr,
             ({[ py "error" := InfoStr s ]} : gmap pystr info_value)
             !! py "num_nodes" = None) as Herr.
  { intros s. apply lookup_singleton_ne. exact H4. }
  split.
  - intros e info. unfold info, get_tree_structure_info. clear info.
    destruct (index e) as [idx | ] eqn:Hidx.
    + destruct (docstore_len idx) as [n | err] eqn:Hlen.
      * assert ((<[ py "num_nodes" := InfoInt n ]>
                 (<[ py "index_type" := InfoStr (py "TreeIndex") ]>
                  ({[ py "model_used" := InfoStr (model_name e) ]}
                   : gmap pystr info_value))) !! py "error" = None) as Hnoerr.
        { rewrite !lookup_insert_ne by congruence.
          apply lookup_singleton_ne. congruence. }
        split; [ | split ].
        -- split; [ apply lookup_insert_eq | ].
           split; [ rewrite lookup_insert_ne by congruence;
                    apply lookup_insert_eq | ].
           split; [ | exact Hnoerr ].
           rewrite !lookup_insert_ne by congruence.
           apply lookup_singleton_eq.
        -- rewrite lookup_insert_eq. split; [ eauto | ].
           intros _. eexists. reflexivity.
        -- rewrite Hnoerr, lookup_insert_eq. split.
           ++ intros [x Hx]. discriminate Hx.
           ++ intros Hn. exfalso. apply Hn. eexists. reflexivity.
      * split; [ reflexivity | split ].
        -- rewrite Herr. split.
           ++ intros [x Hx]. discriminate Hx.
           ++ intros (idx' & n & Hi & Hl). congruence.
        -- rewrite Herr, lookup_singleton_eq. split.
           ++ intros _ [x Hx]. discriminate Hx.
           ++ intros _. eexists. reflexivity.
    + split; [ reflexivity | split ].
      * rewrite Herr. split.
        -- intros [x Hx]. discriminate Hx.
        -- intros (idx' & n & Hi & Hl). discriminate Hi.
      * rewrite Herr, lookup_singleton_eq. split.
        -- intros _ [x Hx]. discriminate Hx.
        -- intros _. eexists. reflexivity.
  - intros w Hreach. apply reachable_index in Hreach as [Hinit _].
    unfold get_tree_structure_info.
    unfold is_initialized in Hinit.
    destruct (index (self w)); [ discriminate Hinit | reflexivity ].
Qed.

(** X9, witness: a Tree engine over the echo backend, constructed and
    not yet built. *)
Lemma tree_structure_info_keys_witness :
  let w0 := empty_world blank_engine in
  let w1 := (init echo_backend Tree (py "llama3.1") w0).2 in
  get_tree_structure_info (fun idx => Return (Z.of_nat (length idx))) (self w1)
  = {[ py "error" := InfoStr (py "Index not built") ]}.
Proof.
  intros w0 w1.
  apply (proj2 (tree_structure_info_keys echo_backend
                  (fun idx => Return (Z.of_nat (length idx))))).
  apply (reach_init _ _ (py "llama3.1") w0). vm_compute. reflexivity.
Defined.

(* --------------------------------------------------------------------- *)
(** ** The engines: a [build_index] that returns *)
(* --------------------------------------------------------------------- *)

(** Distinct numbers are written with distinct digits, so that distinct
    documents get distinct temporary files. *)
Lemma uint_digits_inj (u u' : Decimal.uint) :
  uint_digits u = uint_digits u' -> u = u'.
Proof.
  revert u'.
  induction u as [ | u IH | u IH | u IH | u IH | u IH | u IH | u IH | u IH
                 | u IH | u IH ];
    intros u'; destruct u'; simpl; intros H;
    try discriminate H; try reflexivity;
    inversion H; f_equal; apply IH; assumption.
Qed.

Lemma dec_inj (n n' : N) : dec n = dec n' -> n = n'.
Proof.
  intros H. apply uint_digits_inj in H.
  rewrite <- (DecimalN.Unsigned.of_to n), <- (DecimalN.Unsigned.of_to n').
  f_equal. exact H.
Qed.

Lemma doc_path_inj (v : variant) (i j : nat) :
  doc_path v i = doc_path v j -> i = j.
Proof.
  unfold doc_path. intros H.
  pose proof (f_equal snd H) as Hname. cbn [snd] in Hname.
  apply app_inv_head in Hname. apply app_inv_tail in Hname.
  apply dec_inj in Hname. apply Nat2N.inj. exact Hname.
Qed.

Lemma NoDup_doc_paths (v : variant) (i n : nat) :
  NoDup (map (doc_path v) (seq i n)).
Proof.
  assert (Inj eq eq (doc_path v)) by (intros a b; apply doc_path_inj).
  apply (NoDup_fmap_2 (doc_path v)), NoDup_seq.
Qed.

Lemma doc_paths_in_temp_dir (v : variant) (i n : nat) (p : path) :
  p ∈ map (doc_path v) (seq i n) -> p.1 = temp_dir v.
Proof.
  intros H. apply list_elem_of_fmap in H as (j & -> & _). reflexivity.
Qed.

(** Writing and removing lists of files, read pointwise. *)
Lemma write_all_lookup_ne (contents : list (path * pystr))
    (p : path) :
  forall m, p ∉ contents.*1 -> write_all contents m !! p = m !! p.
Proof.
  induction contents as [ | [q t] contents IH]; intros m Hp; simpl.
  - reflexivity.
  - apply not_elem_of_cons in Hp as [Hq Hp].
    unfold write_all in *. simpl. rewrite IH by exact Hp.
    apply lookup_insert_ne. simpl in Hq. congruence.
Qed.

Lemma write_all_lookup (ps : list path) :
  forall (ds : list pystr) m,
    NoDup ps -> length ps = length ds ->
    forall j p d,
      ps !! j = Some p -> ds !! j = Some d ->
      write_all (zip ps ds) m !! p = Some d.
Proof.
  induction ps as [ | p0 ps IH]; intros ds m Hnd Hlen j p d Hp Hd.
  - discriminate Hp.
  - destruct ds as [ | d0 ds]; [ discriminate Hlen | ].
    apply NoDup_cons in Hnd as [Hnotin Hnd].
    simpl in Hlen. unfold write_all in *. simpl.
    destruct j as [ | j]; simpl in Hp, Hd.
    + inversion Hp; inversion Hd; subst.
      fold (write_all (zip ps ds) (<[ p := d ]> m)).
      rewrite write_all_lookup_ne.
      * apply lookup_insert_eq.
      * rewrite fst_zip by lia. exact Hnotin.
    + eapply IH; eauto.
Qed.

Lemma remove_all_lookup_ne (ps : list path) (q : path) :
  forall m, q ∉ ps -> remove_all ps m !! q = m !! q.
Proof.
  induction ps as [ | p ps IH]; intros m Hq; simpl.
  - reflexivity.
  - apply not_elem_of_cons in Hq as [Hne Hq].
    unfold remove_all in *. simpl. rewrite IH by exact Hq.
    apply lookup_delete_ne. congruence.
Qed.

Lemma remove_all_lookup (ps : list path) (q : path) :
  forall m, q ∈ ps -> remove_all ps m !! q = None.
Proof.
  induction ps as [ | p ps IH]; intros m Hq.
  - inversion Hq.
  - unfold remove_all in *. simpl.
    destruct (decide (q ∈ ps)) as [Hin | Hout].
    + apply IH, Hin.
    + fold (remove_all ps (delete p m)).
      rewrite remove_all_lookup_ne by exact Hout.
      apply elem_of_cons in Hq as [-> | Hq]; [ | contradiction ].
      apply lookup_delete_eq.
Qed.

(** [SimpleDirectoryReader] finds the texts that were written. *)
Lemma read_files_zip (s : filesystem) (ps : list path) :
  forall ds : list pystr,
    length ps = length ds ->
    (forall j p d, ps !! j = Some p -> ds !! j = Some d ->
                   files s !! p = Some d) ->
    read_files s ps = Return (zip ps ds).
Proof.
  induction ps as [ | p ps IH]; intros ds Hlen Hall.
  - reflexivity.
  - destruct ds as [ | d ds]; [ discriminate Hlen | ].
    simpl. rewrite (Hall 0%nat p d eq_refl eq_refl).
    rewrite (IH ds); [ reflexivity | simpl in Hlen; lia | ].
    intros j q t Hq Ht. apply (Hall (S j) q t Hq Ht).
Qed.

Section BuildReturns.

Context {Docs Index : Type} (B : backend Docs Index) (v : variant).

Lemma same_but_fs_trans (w1 w2 w3 : world Index) :
  same_but_fs w1 w2 -> same_but_fs w2 w3 -> same_but_fs w1 w3.
Proof.
  unfold same_but_fs. intros (? & ? & ? & ?) (? & ? & ? & ?).
  repeat split; congruence.
Qed.

(** The loop that saves the documents, when they can all be encoded:
    every document is written to its own file. *)
Lemma save_documents_run (documents : list pystr) :
  forall i doc_files (w : world Index),
    temp_dir v ∈ dirs (fs w) ->
    Forall (fun d => forallb utf8_encodable d = true) documents ->
    exists w',
      save_documents Index v i documents doc_files w
      = (Return (doc_files
                 ++ map (doc_path v) (seq i (length documents))), w')
      /\ same_but_fs w w'
      /\ dirs (fs w') = dirs (fs w)
      /\ files (fs w')
         = write_all (zip (map (doc_path v) (seq i (length documents)))
                          documents)
             (files (fs w)).
Proof.
  induction documents as [ | d ds IH]; intros i doc_files w Hdir Henc.
  - exists w. simpl. rewrite app_nil_r.
    repeat split; reflexivity.
  - apply Forall_cons in Henc as [Hd Hds].
    change (save_documents Index v i (d :: ds) doc_files)
      with (bind (write_text Index (doc_path v i) d)
              (fun _ => save_documents Index v (S i) ds
                          (doc_files ++ [doc_path v i]))).
    unfold bind at 1.
    assert (write_text Index (doc_path v i) d w
            = (Return tt,
               set_fs Index
                 (fun s => {| dirs := dirs s;
                              files := <[ doc_path v i := d ]> (files s) |})
                 w)) as Hw.
    { unfold write_text. rewrite bool_decide_eq_true_2 by exact Hdir.
      rewrite Hd. reflexivity. }
    rewrite Hw.
    destruct (IH (S i) (doc_files ++ [doc_path v i])
                (set_fs Index
                   (fun s => {| dirs := dirs s;
                                files := <[ doc_path v i := d ]> (files s) |})
                   w) Hdir Hds)
      as (w' & Hrun & Hsame & Hdirs & Hfiles).
    exists w'. rewrite Hrun. split; [ | split; [ | split ] ].
    + simpl. rewrite <- app_assoc. reflexivity.
    + exact Hsame.
    + exact Hdirs.
    + exact Hfiles.
Qed.

(** The loop that removes the files, when they are all there and none
    is named twice. *)
Lemma remove_files_run (ps : list path) :
  forall w : world Index,
    NoDup ps ->
    (forall p, p ∈ ps -> is_Some (files (fs w) !! p)) ->
    exists w',
      for_each ps (os_remove Index) w = (Return tt, w')
      /\ same_but_fs w w'
      /\ dirs (fs w') = dirs (fs w)
      /\ files (fs w') = remove_all ps (files (fs w)).
Proof.
  induction ps as [ | p ps IH]; intros w Hnd Hall.
  - exists w. repeat split; reflexivity.
  - apply NoDup_cons in Hnd as [Hnotin Hnd].
    change (for_each (p :: ps) (os_remove Index))
      with (bind (os_remove Index p)
              (fun _ => for_each ps (os_remove Index))).
    unfold bind at 1.
    destruct (Hall p ltac:(left)) as [t Ht].
    assert (os_remove Index p w
            = (Return tt,
               set_fs Index
                 (fun s => {| dirs := dirs s;
                              files := delete p (files s) |}) w)) as Hrm.
    { unfold os_remove. rewrite Ht. reflexivity. }
    rewrite Hrm.
    edestruct (IH (set_fs Index
                     (fun s => {| dirs := dirs s;
                                  files := delete p (files s) |}) w) Hnd)
      as (w' & Hrun & Hsame & Hdirs & Hfiles).
    { intros q Hq. simpl. rewrite lookup_delete_ne.
      - apply Hall. right. exact Hq.
      - intros ->. contradiction. }
    exists w'. rewrite Hrun. repeat split; try apply Hsame.
    + exact Hdirs.
    + exact Hfiles.
Qed.

End BuildReturns.

Lemma bind_returns {S A C : Type} (m : M S A) (k : A -> M S C) s a s1 :
  m s = (Return a, s1) -> bind m k s = k a s1.
Proof. intros H. unfold bind. rewrite H. reflexivity. Qed.

(** X10.  A [build_index] that returns.  Let the documents be texts that
    the 'utf-8' codec encodes, let the temporary directory exist or its
    name be free, and let there be no file in it.  Then [build_index]
    writes the document at position [i] to the file [doc_<i>.txt] of the
    temporary directory, and the reader is given exactly these files with
    exactly the texts of the documents, in order.  When loading and then
    building the index succeed, [build_index] returns the second clock
    reading minus the first; the engine then holds the index and that
    build time; the temporary directory is gone and the files are the
    ones there were before; the settings are untouched; and the backend
    has been asked twice, to load and to build with the chunk size and
    overlap of the variant (512 and 50 for Vector, 1024 and 100 for
    Tree). *)
Theorem build_index_returns {Docs Index : Type} (B : backend Docs Index)
    (v : variant) (documents : list pystr) (w : world Index)
    (docs : Docs) (idx : Index) :
  let paths := doc_paths v (length documents) in
  let t := Float.sub (clock Docs Index B (S (ticks w)))
                     (clock Docs Index B (ticks w)) in
  Forall (fun d => forallb utf8_encodable d = true) documents ->
  (temp_dir v ∈ dirs (fs w) \/ files (fs w) !! (([] : pystr), temp_dir v) = None) ->
  (forall name, files (fs w) !! (temp_dir v, name) = None) ->
  load_data Docs Index B (log w) (zip paths documents) = Return docs ->
  from_documents Docs Index B (log w ++ [EvLoadData paths]) v docs
  = Return idx ->
  build_index B v documents w
  = (Return t,
     {| self := {| model_name := model_name (self w);
                   index := Some idx;
                   build_time := t |};
        fs := {| dirs := dirs (fs w) ∖ {[ temp_dir v ]};
                 files := files (fs w) |};
        settings := settings w;
        ticks := S (S (ticks w));
        log := log w ++ [EvLoadData paths;
                         EvFromDocuments v (chunk_size v) (chunk_overlap v)] |}).
Proof.
  intros paths t Henc Hname Hempty Hload Hfrom.
  assert (length paths = length documents) as Hlen
      by (unfold paths, doc_paths; rewrite length_map, length_seq; reflexivity).
  assert (NoDup paths) as Hnd by apply NoDup_doc_paths.
  unfold build_index.
  set (w0 := {| self := self w; fs := fs w; settings := settings w;
                ticks := S (ticks w); log := log w |}).
  rewrite (bind_returns _ _ w (clock Docs Index B (ticks w)) w0 eq_refl).
  unfold try_except.
  (* the temporary directory *)
  assert (exists w1,
             makedirs Index (temp_dir v) w0 = (Return tt, w1)
             /\ same_but_fs w0 w1
             /\ temp_dir v ∈ dirs (fs w1)
             /\ dirs (fs w1) ∖ {[ temp_dir v ]} = dirs (fs w) ∖ {[ temp_dir v ]}
             /\ files (fs w1) = files (fs w))
    as (w1 & Hrun1 & Hsame1 & Hdir1 & Hdirs1 & Hfiles1).
  { unfold makedirs. case_bool_decide as Hin.
    - exists w0. repeat split. exact Hin.
    - destruct Hname as [Hname | Hname]; [ contradiction | ].
      rewrite bool_decide_eq_false_2
        by (simpl; rewrite Hname; intros [x Hx]; discriminate Hx).
      eexists. split; [ reflexivity | ]. repeat split.
      + apply elem_of_union. left. apply elem_of_singleton. reflexivity.
      + simpl. apply set_eq. intros x.
        rewrite !elem_of_difference, elem_of_union, elem_of_singleton.
        tauto. }
  rewrite (bind_returns _ _ _ _ _ Hrun1).
  (* the documents are written *)
  destruct (save_documents_run v documents 0 [] w1 Hdir1 Henc)
    as (w2 & Hrun2 & Hsame2 & Hdirs2 & Hfiles2).
  change ([] ++ map (doc_path v) (seq 0 (length documents))) with paths
    in Hrun2.
  change (map (doc_path v) (seq 0 (length documents))) with paths in Hfiles2.
  rewrite (bind_returns _ _ _ _ _ Hrun2).
  (* and read back *)
  assert (forall j p d, paths !! j = Some p -> documents !! j = Some d ->
                        files (fs w2) !! p = Some d) as Hwritten.
  { intros j p d Hp Hd. rewrite Hfiles2.
    eapply write_all_lookup; eauto. }
  set (w3 := {| self := self w2; fs := fs w2; settings := settings w2;
                ticks := ticks w2; log := log w ++ [EvLoadData paths] |}).
  assert (log w2 = log w) as Hlog2.
  { destruct Hsame1 as (_ & _ & _ & H1). destruct Hsame2 as (_ & _ & _ & H2).
    rewrite H2, H1. reflexivity. }
  assert (reader_load_data Docs Index B paths w2 = (Return docs, w3)) as Hrun3.
  { unfold reader_load_data, bind, get, lift, request.
    rewrite (read_files_zip (fs w2) paths documents Hlen Hwritten).
    rewrite Hlog2, Hload. reflexivity. }
  rewrite (bind_returns _ _ _ _ _ Hrun3).
  (* the files are removed *)
  destruct (remove_files_run paths w3 Hnd) as (w4 & Hrun4 & Hsame4 & Hdirs4 & Hfiles4).
  { intros p Hp. apply list_elem_of_lookup in Hp as [j Hj].
    destruct (lookup_lt_is_Some_2 documents j) as [d Hd].
    { rewrite <- Hlen. eapply lookup_lt_Some, Hj. }
    exists d. apply (Hwritten j p d Hj Hd). }
  rewrite (bind_returns _ _ _ _ _ Hrun4).
  assert (files (fs w4) = files (fs w)) as Hfiles.
  { rewrite Hfiles4. simpl. rewrite Hfiles2, Hfiles1.
    apply map_eq. intros q.
    destruct (decide (q ∈ paths)) as [Hin | Hout].
    - rewrite remove_all_lookup by exact Hin.
      pose proof (doc_paths_in_temp_dir v 0 (length documents) q Hin) as Hq.
      destruct q as [d name]. simpl in Hq. subst d.
      symmetry. apply Hempty.
    - rewrite remove_all_lookup_ne by exact Hout.
      apply write_all_lookup_ne. rewrite fst_zip by lia. exact Hout. }
  (* and the directory *)
  set (w5 := set_fs Index
               (fun s => {| dirs := dirs s ∖ {[ temp_dir v ]};
                            files := files s |}) w4).
  assert (os_rmdir Index (temp_dir v) w4 = (Return tt, w5)) as Hrun5.
  { unfold os_rmdir.
    rewrite bool_decide_eq_true_2
      by (rewrite Hdirs4; simpl; rewrite Hdirs2; exact Hdir1).
    rewrite bool_decide_eq_true_2; [ reflexivity | ].
    rewrite Hfiles. intros [d name] text Hq Hd. simpl in Hd. subst d.
    rewrite Hempty in Hq. discriminate Hq. }
  rewrite (bind_returns _ _ _ _ _ Hrun5).
  (* the index is built *)
  destruct Hsame1 as (Hself1 & Hset1 & Htick1 & Hlog1).
  destruct Hsame2 as (Hself2 & Hset2 & Htick2 & _).
  destruct Hsame4 as (Hself4 & Hset4 & Htick4 & Hlog4).
  unfold bind, request, modify, now, ret, set_self. simpl.
  rewrite Hlog4. simpl. rewrite Hfrom. simpl.
  rewrite Hself4, Hset4, Htick4, Hfiles, Hdirs4. simpl.
  rewrite Hself2, Hset2, Htick2, Hdirs2, Hself1, Hset1, Htick1, Hdirs1.
  simpl. rewrite <- app_assoc. reflexivity.
Qed.

(** X10, witness: a Vector engine over the echo backend, constructed in
    an empty world, builds the index of one document. *)
Lemma build_index_returns_witness :
  let w0 := empty_world blank_engine in
  let w1 := (init echo_backend Vector (py "llama3.1") w0).2 in
  let w2 := (build_index echo_backend Vector [py "One. Two."] w1).2 in
  index (self w2) = Some [py "One. Two."]
  /\ fs w2 = fs w1
  /\ log w2 = log w1 ++ [EvLoadData [(py "temp_docs", py "doc_0.txt")];
                          EvFromDocuments Vector 512 50].
Proof.
  intros w0 w1 w2.
  assert (build_index echo_backend Vector [py "One. Two."] w1
          = (Return (Float.sub (float_of_nat 1) (float_of_nat 0)),
             {| self := {| model_name := model_name (self w1);
                           index := Some [py "One. Two."];
                           build_time :=
                             Float.sub (float_of_nat 1) (float_of_nat 0) |};
                fs := {| dirs := dirs (fs w1) ∖ {[ temp_dir Vector ]};
                         files := files (fs w1) |};
                settings := settings w1;
                ticks := 2;
                log := log w1
                       ++ [EvLoadData (doc_paths Vector 1);
                           EvFromDocuments Vector 512 50] |})) as E.
  { apply (build_index_returns echo_backend Vector [py "One. Two."] w1
             [py "One. Two."] [py "One. Two."]).
    - repeat constructor.
    - right. apply lookup_empty.
    - intros name. apply lookup_empty.
    - reflexivity.
    - reflexivity. }
  unfold w2. rewrite E. simpl.
  split; [ reflexivity | ]. split; [ | reflexivity ].
  vm_compute. reflexivity.
Defined.

(* --------------------------------------------------------------------- *)
(** ** [chunk_text]: the size of the chunks *)
(* --------------------------------------------------------------------- *)

Lemma length_lstrip (s : pystr) : (length (lstrip s) <= length s)%nat.
Proof.
  induction s as [ | c s IH]; simpl; [ lia | ].
  destruct (isspace c); simpl; lia.
Qed.

Lemma length_strip (s : pystr) : (length (strip s) <= length s)%nat.
Proof.
  unfold strip, rstrip. rewrite length_rev.
  etransitivity; [ apply length_lstrip | ].
  rewrite length_rev. apply length_lstrip.
Qed.

(** A chunk of the accumulator is empty, within the limit, or one of the
    sentences by itself. *)
Lemma accumulate_sizes (limit : Z) (all : list pystr)
    (sentences : list pystr) :
  sentences ⊆ all ->
  forall current,
    (current = [] \/ Z.of_nat (length current) <= limit \/ current ∈ all) ->
    Forall (fun c => c = [] \/ Z.of_nat (length c) <= limit \/ c ∈ all)
      (accumulate limit current sentences).
Proof.
  induction sentences as [ | s rest IH]; intros Hsub current Hc; simpl.
  - constructor; [ exact Hc | constructor ].
  - assert (rest ⊆ all) as Hrest
        by (intros x Hx; apply Hsub; right; exact Hx).
    destruct (limit <? Z.of_nat (length (current ++ s))) eqn:Hl.
    + constructor; [ exact Hc | ].
      apply IH; [ exact Hrest | ]. right. right. apply Hsub. left.
    + apply IH; [ exact Hrest | ]. right. left. apply Z.ltb_ge, Hl.
Qed.

(** X11.  Every chunk that [chunk_text] returns is non-empty and has no
    white space at its ends.  It is at most [chunk_size * 4] characters
    long, unless it consists of a single sentence: a non-empty piece of
    the split on ". " followed by a period.  Sentences are never cut, so
    a sentence longer than the limit makes a chunk longer than the
    limit. *)
Theorem chunk_text_chunk_sizes (text : pystr) (chunk_size : Z) (c : pystr) :
  c ∈ chunk_text text chunk_size ->
  c <> [] /\ strip c = c
  /\ (Z.of_nat (length c) <= chunk_size * 4
      \/ exists p, p ∈ split (py ". ") text /\ p <> []
                   /\ c = strip (p ++ py ". ")).
Proof.
  intros Hc.
  destruct (chunk_text_chunks_trimmed text chunk_size c Hc) as [Hne Hstrip].
  split; [ exact Hne | ]. split; [ exact Hstrip | ].
  rewrite chunk_text_accumulate in Hc. unfold trimmed in Hc.
  apply list_elem_of_fmap in Hc as (x & -> & Hx).
  apply list_elem_of_filter in Hx as [Htruthy Hx].
  pose proof (accumulate_sizes (chunk_size * 4)
                (kept_sentences (split (py ". ") text))
                (kept_sentences (split (py ". ") text))
                ltac:(intros y Hy; exact Hy) [] ltac:(left; reflexivity)) as H.
  rewrite Forall_forall in H.
  destruct (H x Hx) as [-> | [Hlen | Hsentence]].
  - discriminate Htruthy.
  - left. pose proof (length_strip x). lia.
  - right. unfold kept_sentences in Hsentence.
    apply list_elem_of_fmap in Hsentence as (p & -> & Hp).
    apply list_elem_of_filter in Hp as [Hp Hin].
    exists p. split; [ exact Hin | ]. split; [ | reflexivity ].
    intros ->. discriminate Hp.
Qed.

(** X11, witness: with a chunk size of one token, the second chunk of
    "One.  Two words. " is the sentence "Two words.", longer than the
    four characters of the limit. *)
Lemma chunk_text_chunk_sizes_witness :
  chunk_text (py "One.  Two words. ") 1 = [py "One."; py "Two words."]
  /\ (Z.of_nat (length (py "Two words.")) <= 1 * 4
      \/ exists p, p ∈ split (py ". ") (py "One.  Two words. ") /\ p <> []
                   /\ py "Two words." = strip (p ++ py ". ")).
Proof.
  assert (chunk_text (py "One.  Two words. ") 1
          = [py "One."; py "Two words."]) as E by (vm_compute; reflexivity).
  split; [ exact E | ].
  apply (chunk_text_chunk_sizes (py "One.  Two words. ") 1 (py "Two words.")).
  rewrite E. right. left.
Defined.

(* --------------------------------------------------------------------- *)
(** ** [format_time]: when it raises *)
(* --------------------------------------------------------------------- *)

(** A finite float that is at least zero and not below sixty is at least
    sixty. *)
Lemma not_below_sixty (m : positive) (e : Z) :
  Float.ltb (S754_finite false m e) Float.sixty = false ->
  Float.leb Float.sixty (S754_finite false m e) = true.
Proof.
  unfold Float.sixty. intros H.
  apply leb_finite_positive_iff.
  destruct (Z.lt_trichotomy e (-47)) as [Hlt | [Heq | Hgt]].
  - assert (Float.ltb (S754_finite false m e)
              (S754_finite false 8444249301319680 (-47)) = true) as Habs
        by (apply ltb_finite_positive_iff; left; exact Hlt).
    congruence.
  - destruct (Z_lt_le_dec (Zpos m) (Zpos 8444249301319680)) as [Hm | Hm].
    + assert (Float.ltb (S754_finite false m e)
                (S754_finite false 8444249301319680 (-47)) = true) as Habs
          by (apply ltb_finite_positive_iff; right; split; assumption).
      congruence.
    + right. split; [ symmetry; exact Heq | exact Hm ].
  - left. exact Hgt.
Qed.

(** [format_time] returns on every finite float. *)
Lemma format_time_finite_returns (seconds : float) :
  Float.is_float seconds -> Float.is_finite seconds = true ->
  exists t, format_time seconds = Return t.
Proof.
  intros Hf Hfin. destruct seconds as [s | s | | [ | ] m e];
    try discriminate Hfin.
  - destruct s; eexists; vm_compute; reflexivity.
  - eexists. unfold format_time.
    change (Float.ltb (S754_finite true m e) Float.one) with true.
    reflexivity.
  - destruct (Float.ltb (S754_finite false m e) Float.one) eqn:Hone.
    { eexists. unfold format_time. rewrite Hone. reflexivity. }
    destruct (Float.ltb (S754_finite false m e) Float.sixty) eqn:Hsixty.
    { eexists. unfold format_time. rewrite Hone, Hsixty. reflexivity. }
    destruct (format_time_minutes (S754_finite false m e) Hf eq_refl eq_refl
                (not_below_sixty m e Hsixty))
      as (q & minutes & secs & t & _ & _ & _ & _ & _ & _ & Ht).
    eexists. exact Ht.
Qed.

(** X12.  [format_time] returns for every float except a NaN and the
    positive infinity; for these two it raises, the conversion [int()]
    of the whole minutes being refused ("cannot convert float NaN to
    integer" for both, since [inf // 60] is a NaN).  In particular it
    returns for every finite float and for the negative infinity. *)
Theorem format_time_raises_iff (seconds : float) :
  Float.is_float seconds ->
  match seconds with
  | S754_nan | S754_infinity false =>
      format_time seconds
      = Raise (py "cannot convert float NaN to integer")
  | _ => exists t, format_time seconds = Return t
  end.
Proof.
  intros Hf. destruct seconds as [s | [ | ] | | s m e].
  - apply (format_time_finite_returns _ Hf eq_refl).
  - eexists. vm_compute. reflexivity.
  - vm_compute. reflexivity.
  - vm_compute. reflexivity.
  - apply (format_time_finite_returns _ Hf eq_refl).
Qed.

(** X12, witness: the positive infinity. *)
Lemma format_time_raises_iff_witness :
  format_time (S754_infinity false)
  = Raise (py "cannot convert float NaN to integer").
Proof.
  apply (format_time_raises_iff (S754_infinity false)). reflexivity.
Defined.

(* --------------------------------------------------------------------- *)
(** ** Floats: a rounded result is a float of the format *)
(* --------------------------------------------------------------------- *)

Lemma Zdigits2_mono (a b : Z) : 0 <= a <= b -> Zdigits2 a <= Zdigits2 b.
Proof.
  intros [Ha Hab].
  destruct a as [ | p | p]; [ apply Zdigits2_nonneg | | lia ].
  destruct b as [ | q | q]; try lia. simpl.
  pose proof (digits2_pos_le p) as Hp. pose proof (digits2_pos_lt q) as Hq.
  destruct (Z_le_gt_dec (Zpos (digits2_pos p)) (Zpos (digits2_pos q)))
    as [H | H]; [ exact H | exfalso ].
  assert (2 ^ Zpos (digits2_pos q) <= 2 ^ (Zpos (digits2_pos p) - 1))
    by (apply Z.pow_le_mono_r; lia).
  lia.
Qed.

Lemma round_nearest_even_ge (m : Z) (l : location) :
  m <= round_nearest_even m l.
Proof.
  destruct l as [ | [ | | ] ]; simpl; try lia.
  destruct (Z.even m); lia.
Qed.

(** Rounding a positive number whose exponent is not above the one of
    the format gives a float of the format. *)
Lemma binary_round_aux_valid (sx : bool) (mx : positive) (ex : Z) :
  ex <= fexp Float.prec Float.emax (Zpos (digits2_pos mx) + ex) ->
  Float.is_float
    (binary_round_aux Float.prec Float.emax sx (Zpos mx) ex loc_Exact).
Proof.
  intros Hex. unfold Float.is_float, binary_round_aux.
  assert (0 <= Zpos mx) as Hmx by lia.
  pose proof (shr_fexp_nonneg (Zpos mx) ex loc_Exact Hmx) as Hm1.
  pose proof (shr_exponent (shr_record_of_loc (Zpos mx) loc_Exact) ex
                (fexp Float.prec Float.emax (Zdigits2 (Zpos mx) + ex) - ex))
    as He1.
  pose proof (shr_digits (shr_record_of_loc (Zpos mx) loc_Exact) ex
                (fexp Float.prec Float.emax (Zdigits2 (Zpos mx) + ex) - ex))
    as Hd1.
  rewrite shr_m_of_loc in Hd1. specialize (Hd1 Hmx).
  fold (shr_fexp Float.prec Float.emax (Zpos mx) ex loc_Exact) in He1, Hd1.
  destruct (shr_fexp Float.prec Float.emax (Zpos mx) ex loc_Exact)
    as [mrs' e'].
  simpl in Hm1, He1, Hd1.
  set (m'' := round_nearest_even (shr_m mrs') (loc_of_shr_record mrs')).
  pose proof (round_nearest_even_nonneg _ (loc_of_shr_record mrs') Hm1) as Hm2.
  pose proof (round_nearest_even_digits _ (loc_of_shr_record mrs') Hm1) as Hd2.
  pose proof (round_nearest_even_ge (shr_m mrs') (loc_of_shr_record mrs'))
    as Hge.
  fold m'' in Hm2, Hd2, Hge.
  pose proof (Zdigits2_mono (shr_m mrs') m'' (conj Hm1 Hge)) as Hd2'.
  pose proof (shr_fexp_nonneg m'' e' loc_Exact Hm2) as Hm3.
  pose proof (shr_exponent (shr_record_of_loc m'' loc_Exact) e'
                (fexp Float.prec Float.emax (Zdigits2 m'' + e') - e')) as He3.
  pose proof (shr_digits (shr_record_of_loc m'' loc_Exact) e'
                (fexp Float.prec Float.emax (Zdigits2 m'' + e') - e')) as Hd3.
  rewrite shr_m_of_loc in Hd3. specialize (Hd3 Hm2).
  fold (shr_fexp Float.prec Float.emax m'' e' loc_Exact) in He3, Hd3.
  destruct (shr_fexp Float.prec Float.emax m'' e' loc_Exact) as [mrs'' e''].
  simpl in Hm3, He3, Hd3.
  rewrite fexp_binary64 in *.
  simpl Zdigits2 in *.
  pose proof (Zdigits2_nonneg m''). pose proof (Zdigits2_nonneg (shr_m mrs')).
  assert (0 < Zpos (digits2_pos mx)) by lia.
  destruct (shr_m mrs'') as [ | m | m ] eqn:Em; [ reflexivity | | reflexivity ].
  simpl in Hd3.
  change (Float.emax - Float.prec) with 971.
  destruct (e'' <=? 971) eqn:Hfin; [ | reflexivity ].
  apply Z.leb_le in Hfin.
  unfold SpecFloat.valid_binary, bounded, canonical_mantissa.
  rewrite fexp_binary64.
  change (Float.emax - Float.prec) with 971.
  apply andb_true_intro. split; [ apply Z.eqb_eq | apply Z.leb_le ]; lia.
Qed.

Lemma binary_round_valid (sx : bool) (mx : positive) (ex : Z) :
  Float.is_float (binary_round Float.prec Float.emax sx mx ex).
Proof.
  unfold binary_round.
  pose proof (shl_align_spec mx ex
                (fexp Float.prec Float.emax (Zpos (digits2_pos mx) + ex)))
    as H.
  destruct (shl_align mx ex _) as [mz ez]. destruct H as (Hez & _ & Hd).
  apply binary_round_aux_valid. rewrite Hd. lia.
Qed.

Lemma binary_normalize_valid (m e : Z) (szero : bool) :
  Float.is_float (binary_normalize Float.prec Float.emax m e szero).
Proof.
  destruct m as [ | p | p]; simpl; [ reflexivity | | ];
    apply binary_round_valid.
Qed.

(** The difference of two floats of the format is one, and so is an
    absolute value. *)
Lemma sub_valid (x y : float) :
  Float.is_float x -> Float.is_float y -> Float.is_float (Float.sub x y).
Proof.
  intros Hx Hy.
  destruct x as [sx | sx | | sx mx ex], y as [sy | sy | | sy my ey];
    try reflexivity; try exact Hx; try exact Hy.
  - destruct sx, sy; reflexivity.
  - destruct sx, sy; reflexivity.
  - apply binary_normalize_valid.
Qed.

Lemma abs_valid (x : float) : Float.is_float x -> Float.is_float (Float.abs x).
Proof. destruct x; intros H; solve [ reflexivity | exact H ]. Qed.

(* --------------------------------------------------------------------- *)
(** ** Floats: the difference of two clock readings *)
(* --------------------------------------------------------------------- *)

(** A float of the format has 53 binary digits, or the least exponent. *)
Lemma is_float_canonical (s : bool) (m : positive) (e : Z) :
  Float.is_float (S754_finite s m e) ->
  Zpos (digits2_pos m) = 53 \/ e = -1074.
Proof.
  unfold Float.is_float. simpl. unfold bounded, canonical_mantissa.
  rewrite fexp_binary64. intros H.
  apply andb_true_iff in H as [Hc _]. apply Z.eqb_eq in Hc. lia.
Qed.

(** The mantissa of a float of the format, aligned to a lower exponent,
    is not above the largest float of the format. *)
Lemma aligned_bound (s : bool) (m : positive) (e ez : Z) :
  Float.is_float (S754_finite s m e) -> ez <= e ->
  Zpos m * 2 ^ (e - ez) <= (2 ^ 53 - 1) * 2 ^ (971 - ez).
Proof.
  intros Hf Hez. apply is_float_finite in Hf as [Hd He].
  assert (Zpos m <= 2 ^ 53 - 1) as Hm.
  { pose proof (digits2_pos_lt m).
    assert (2 ^ Zpos (digits2_pos m) <= 2 ^ 53)
      by (apply Z.pow_le_mono_r; lia).
    lia. }
  assert (0 < 2 ^ (e - ez)) by (apply Z.pow_pos_nonneg; lia).
  assert (2 ^ (e - ez) <= 2 ^ (971 - ez)) by (apply Z.pow_le_mono_r; lia).
  change (2 ^ 53 - 1) with 9007199254740991 in *.
  apply (Z.le_trans _ (9007199254740991 * 2 ^ (e - ez))).
  - apply Z.mul_le_mono_nonneg_r; lia.
  - apply Z.mul_le_mono_nonneg_l; lia.
Qed.

(** The difference of two finite floats that are not negative does not
    overflow. *)
Lemma sub_nonneg_mag (x y : float) :
  Float.is_float x -> Float.is_float y ->
  Float.is_finite x = true -> Float.is_finite y = true ->
  Float.signbit x = false -> Float.signbit y = false ->
  mag_le (Float.sub x y) 1024.
Proof.
  intros Hfx Hfy Hx Hy Hsx Hsy.
  destruct x as [sx | sx | | sx mx ex]; try discriminate Hx;
    simpl in Hsx; subst sx;
    destruct y as [sy | sy | | sy my ey]; try discriminate Hy;
    simpl in Hsy; subst sy.
  - exact I.
  - apply is_float_finite in Hfy. simpl. lia.
  - apply is_float_finite in Hfx. simpl. lia.
  - unfold Float.sub. simpl SFsub. cbv zeta.
    set (ez := Z.min ex ey).
    pose proof (shl_align_spec mx ex ez) as Hxx.
    pose proof (shl_align_spec my ey ez) as Hyy.
    destruct (shl_align mx ex ez) as [X ezx].
    destruct (shl_align my ey ez) as [R ezy].
    destruct Hxx as (Hezx & HX & _). destruct Hyy as (Hezy & HR & _).
    replace (Z.min ex ez) with ez in Hezx by lia.
    replace (Z.min ey ez) with ez in Hezy by lia.
    subst ezx ezy. simpl fst. simpl cond_Zopp.
    pose proof (aligned_bound false mx ex ez Hfx ltac:(lia)) as HbX.
    pose proof (aligned_bound false my ey ez Hfy ltac:(lia)) as HbR.
    rewrite <- HX in HbX. rewrite <- HR in HbR.
    apply is_float_finite in Hfx as [_ Hex].
    apply is_float_finite in Hfy as [_ Hey].
    destruct (Zpos X - Zpos R) as [ | p | p] eqn:E; simpl.
    + exact I.
    + apply binary_round_bounded; [ lia | ].
      apply (Z.le_trans _ (Zpos X)); [ lia | exact HbX ].
    + apply binary_round_bounded; [ lia | ].
      apply (Z.le_trans _ (Zpos R)); [ lia | exact HbR ].
Qed.

(** Taking a float from one that is at least as large leaves no
    negative sign. *)
Lemma sub_ordered_sign (x y : float) :
  Float.is_float x -> Float.is_float y ->
  Float.is_finite x = true -> Float.is_finite y = true ->
  Float.signbit x = false -> Float.signbit y = false ->
  Float.leb y x = true ->
  Float.signbit (Float.sub x y) = false.
Proof.
  intros Hfx Hfy Hx Hy Hsx Hsy Hle.
  destruct x as [sx | sx | | sx mx ex]; try discriminate Hx;
    simpl in Hsx; subst sx;
    destruct y as [sy | sy | | sy my ey]; try discriminate Hy;
    simpl in Hsy; subst sy.
  - reflexivity.
  - discriminate Hle.
  - reflexivity.
  - apply leb_finite_positive_iff in Hle.
    unfold Float.sub. simpl SFsub. cbv zeta.
    set (ez := Z.min ex ey).
    pose proof (shl_align_spec mx ex ez) as Hxx.
    pose proof (shl_align_spec my ey ez) as Hyy.
    destruct (shl_align mx ex ez) as [X ezx].
    destruct (shl_align my ey ez) as [R ezy].
    destruct Hxx as (Hezx & HX & _). destruct Hyy as (Hezy & HR & _).
    replace (Z.min ex ez) with ez in Hezx by lia.
    replace (Z.min ey ez) with ez in Hezy by lia.
    subst ezx ezy. simpl fst. simpl cond_Zopp.
    rewrite binary_normalize_sign.
    assert (Zpos R <= Zpos X) as Hord.
    { rewrite HX, HR. destruct Hle as [Hlt | [Heq Hm]].
      - replace ez with ey by (unfold ez; lia).
        rewrite Z.sub_diag. change (2 ^ 0) with 1. rewrite Z.mul_1_r.
        destruct (is_float_canonical false mx ex Hfx) as [Hd | He].
        + pose proof (digits2_pos_le mx) as Hlow. rewrite Hd in Hlow.
          pose proof (digits2_pos_lt my) as Hhigh.
          apply is_float_finite in Hfy as [Hdy _].
          assert (2 ^ Zpos (digits2_pos my) <= 2 ^ 53)
            by (apply Z.pow_le_mono_r; lia).
          assert (2 ^ 1 <= 2 ^ (ex - ey)) by (apply Z.pow_le_mono_r; lia).
          change (2 ^ (53 - 1)) with 4503599627370496 in Hlow.
          change (2 ^ 53) with 9007199254740992 in *.
          change (2 ^ 1) with 2 in *.
          apply (Z.le_trans _ (4503599627370496 * 2)); [ lia | ].
          apply Z.mul_le_mono_nonneg; lia.
        + apply is_float_finite in Hfy. lia.
      - subst ey. replace ez with ex by (unfold ez; lia).
        rewrite Z.sub_diag. change (2 ^ 0) with 1. lia. }
    destruct (Zpos X - Zpos R) as [ | p | p] eqn:E; [ reflexivity .. | lia ].
Qed.

(** A float that is not a NaN and has no negative sign is at least
    zero. *)
Lemma signbit_false_nonnegative (x : float) :
  Float.is_nan x = false -> Float.signbit x = false ->
  Float.leb Float.zero x = true.
Proof.
  destruct x as [s | s | | s m e]; simpl; intros Hn Hs;
    try discriminate Hn; subst s; reflexivity.
Qed.

(** The difference of two clock readings, the later one first, is a
    duration. *)
Lemma elapsed_duration (start_time end_time : float) :
  duration start_time -> duration end_time ->
  Float.leb start_time end_time = true ->
  duration (Float.sub end_time start_time).
Proof.
  intros (Hfs & Hs & Hss) (Hfe & He & Hse) Hle.
  split; [ apply sub_valid; assumption | ]. split.
  - eapply mag_le_finite. apply sub_nonneg_mag; assumption.
  - apply sub_ordered_sign; assumption.
Qed.

(** The absolute difference of two durations is a duration. *)
Lemma abs_sub_duration (x y : float) :
  duration x -> duration y -> duration (Float.abs (Float.sub x y)).
Proof.
  intros (Hfx & Hx & Hsx) (Hfy & Hy & Hsy).
  pose proof (sub_valid x y Hfx Hfy) as Hv.
  pose proof (mag_le_finite _ _ (sub_nonneg_mag x y Hfx Hfy Hx Hy Hsx Hsy))
    as Hfin.
  destruct (Float.sub x y) as [s | s | | s m e]; try discriminate Hfin.
  - repeat split.
  - split; [ exact Hv | ]. split; reflexivity.
Qed.

Lemma duration_nonnegative (x : float) :
  duration x -> Float.leb Float.zero x = true.
Proof.
  intros (_ & Hfin & Hs). apply signbit_false_nonnegative; [ | exact Hs ].
  destruct x; solve [ reflexivity | discriminate Hfin ].
Qed.

(* --------------------------------------------------------------------- *)
(** ** The engines: the times they measure *)
(* --------------------------------------------------------------------- *)

Section Ticks.

Context {Docs Index : Type} (B : backend Docs Index) (v : variant).

Lemma same_ticks_refl (w : world Index) : same_ticks w w.
Proof. reflexivity. Qed.

Lemma same_ticks_trans (w1 w2 w3 : world Index) :
  same_ticks w1 w2 -> same_ticks w2 w3 -> same_ticks w1 w3.
Proof. unfold same_ticks. congruence. Qed.

Lemma same_ticks_request {A : Type} ev (answer : list event -> outcome A) :
  respects same_ticks (request Index ev answer).
Proof. intros w r w' H. inversion H; subst. reflexivity. Qed.

Lemma same_ticks_makedirs d : respects same_ticks (makedirs Index d).
Proof.
  intros w r w' H. unfold makedirs in H.
  repeat case_bool_decide; inversion H; subst; reflexivity.
Qed.

Lemma same_ticks_write_text p text :
  respects same_ticks (write_text Index p text).
Proof.
  intros w r w' H. unfold write_text in H.
  case_bool_decide; [ destruct (forallb utf8_encodable text) | ];
    inversion H; subst; reflexivity.
Qed.

Lemma same_ticks_os_remove p : respects same_ticks (os_remove Index p).
Proof.
  intros w r w' H. unfold os_remove in H.
  destruct (files (fs w) !! p); inversion H; subst; reflexivity.
Qed.

Lemma same_ticks_os_rmdir d : respects same_ticks (os_rmdir Index d).
Proof.
  intros w r w' H. unfold os_rmdir in H.
  repeat case_bool_decide; inversion H; subst; reflexivity.
Qed.

Lemma same_ticks_save_documents documents :
  forall i doc_files,
    respects same_ticks (save_documents Index v i documents doc_files).
Proof.
  induction documents as [ | d ds IH]; intros i doc_files; simpl.
  - apply respects_ret, same_ticks_refl.
  - apply respects_bind;
      [ apply same_ticks_trans | apply same_ticks_write_text | intros _; apply IH ].
Qed.

Lemma same_ticks_reader_load_data doc_files :
  respects same_ticks (reader_load_data Docs Index B doc_files).
Proof.
  unfold reader_load_data.
  apply respects_bind; [ apply same_ticks_trans | | intros w ].
  { apply respects_get, same_ticks_refl. }
  apply respects_bind; [ apply same_ticks_trans | | intros c ].
  { apply respects_lift, same_ticks_refl. }
  apply same_ticks_request.
Qed.

(** What a [build_index] that returns has measured: the second reading
    of the clock minus the first. *)
Lemma build_index_measures documents (w : world Index) t w' :
  build_index B v documents w = (Return t, w') ->
  t = Float.sub (clock Docs Index B (S (ticks w)))
                (clock Docs Index B (ticks w))
  /\ ticks w' = S (S (ticks w))
  /\ build_time (self w') = t
  /\ is_initialized (self w') = true.
Proof.
  unfold build_index. intros H.
  apply bind_inv in H as [(e & _ & Hr) | (start_time & w0 & Hnow & H)];
    [ discriminate Hr | ].
  unfold now in Hnow. inversion Hnow; subst start_time w0; clear Hnow.
  apply try_except_inv in H as [(t' & H & Ht) | (e1 & w1 & _ & Hh)];
    [ | discriminate Hh ].
  inversion Ht; subst t'; clear Ht.
  apply bind_inv in H as [(e & _ & Hr) | ([] & w1 & H1 & H)];
    [ discriminate Hr | ].
  apply same_ticks_makedirs in H1.
  apply bind_inv in H as [(e & _ & Hr) | (doc_files & w2 & H2 & H)];
    [ discriminate Hr | ].
  apply same_ticks_save_documents in H2.
  apply bind_inv in H as [(e & _ & Hr) | (docs & w3 & H3 & H)];
    [ discriminate Hr | ].
  apply same_ticks_reader_load_data in H3.
  apply bind_inv in H as [(e & _ & Hr) | ([] & w4 & H4 & H)];
    [ discriminate Hr | ].
  apply (respects_for_each same_ticks same_ticks_refl same_ticks_trans) in H4;
    [ | apply Forall_forall; intros p _; apply same_ticks_os_remove ].
  apply bind_inv in H as [(e & _ & Hr) | ([] & w5 & H5 & H)];
    [ discriminate Hr | ].
  apply same_ticks_os_rmdir in H5.
  apply bind_inv in H as [(e & _ & Hr) | (idx & w6 & H6 & H)];
    [ discriminate Hr | ].
  apply same_ticks_request in H6.
  unfold same_ticks in *. simpl in H1.
  unfold bind, modify, now, ret, set_self in H. simpl in H.
  inversion H; subst; clear H. simpl.
  assert (ticks w6 = S (ticks w)) as -> by congruence.
  repeat split.
Qed.

End Ticks.

(** X13.  The execution time of a query is a duration that
    [format_time] renders.  When the two clock readings that [query]
    takes around the backend call are finite floats that are not
    negative, the second not before the first, the execution time of the
    result is a finite float that is at least zero, and [format_time]
    returns on it. *)
Theorem query_execution_time_is_a_duration {Docs Index : Type}
    (B : backend Docs Index) (v : variant) (query_text : pystr)
    (w w' : world Index) (result : QueryResult) :
  duration (clock Docs Index B (ticks w)) ->
  duration (clock Docs Index B (S (ticks w))) ->
  Float.leb (clock Docs Index B (ticks w)) (clock Docs Index B (S (ticks w)))
  = true ->
  query B v query_text w = (Return result, w') ->
  duration (execution_time result)
  /\ Float.leb Float.zero (execution_time result) = true
  /\ exists t, format_time (execution_time result) = Return t.
Proof.
  intros Hs He Hle Hq.
  assert (execution_time result
          = Float.sub (clock Docs Index B (S (ticks w)))
                      (clock Docs Index B (ticks w))) as E.
  { destruct (index (self w)) as [idx | ] eqn:Hidx.
    - rewrite (query_run B v query_text w idx Hidx) in Hq.
      destruct (run_query Docs Index B (log w) v idx query_text);
        inversion Hq; subst. reflexivity.
    - rewrite (query_without_index B v query_text w Hidx) in Hq.
      discriminate Hq. }
  pose proof (elapsed_duration _ _ Hs He Hle) as Hd. rewrite <- E in Hd.
  split; [ exact Hd | ]. split; [ apply duration_nonnegative, Hd | ].
  destruct Hd as (Hf & Hfin & _). apply format_time_finite_returns; assumption.
Qed.

(** X13, witness: a query of a Vector engine over the echo backend, whose
    clock counts the seconds. *)
Lemma query_execution_time_is_a_duration_witness :
  let w0 := empty_world blank_engine in
  let w1 := (init echo_backend Vector (py "llama3.1") w0).2 in
  let w2 := (build_index echo_backend Vector [py "One. Two."] w1).2 in
  exists result,
    (query echo_backend Vector (py "What?") w2).1 = Return result
    /\ Float.leb Float.zero (execution_time result) = true.
Proof.
  intros w0 w1 w2.
  destruct (query echo_backend Vector (py "What?") w2) as [r w3] eqn:Hq.
  assert (exists result, r = Return result) as [result ->].
  { assert (r = (query echo_backend Vector (py "What?") w2).1) as ->
        by (rewrite Hq; reflexivity).
    eexists. vm_compute. reflexivity. }
  exists result. split; [ reflexivity | ].
  refine (proj1 (proj2 (query_execution_time_is_a_duration echo_backend Vector
                          (py "What?") w2 w3 result _ _ _ Hq))).
  - repeat split; vm_compute; reflexivity.
  - repeat split; vm_compute; reflexivity.
  - vm_compute. reflexivity.
Defined.

(** X14.  The build time is a duration.  A [build_index] that returns
    has read the clock twice, and returns the second reading minus the
    first; [get_build_time] then returns that value and the engine is
    initialized.  When the two readings are finite floats that are not
    negative, the second not before the first, the value is a finite
    float that is at least zero, and the "%.2f" rendering that [main]
    shows of it is a number in fixed notation with two decimal places,
    without a sign. *)
Theorem build_time_is_a_duration {Docs Index : Type}
    (B : backend Docs Index) (v : variant) (documents : list pystr)
    (w w' : world Index) (t : float) :
  build_index B v documents w = (Return t, w') ->
  t = Float.sub (clock Docs Index B (S (ticks w)))
                (clock Docs Index B (ticks w))
  /\ ticks w' = S (S (ticks w))
  /\ get_build_time (self w') = t
  /\ is_initialized (self w') = true
  /\ (duration (clock Docs Index B (ticks w)) ->
      duration (clock Docs Index B (S (ticks w))) ->
      Float.leb (clock Docs Index B (ticks w))
                (clock Docs Index B (S (ticks w))) = true ->
      duration t
      /\ Float.leb Float.zero t = true
      /\ fixed_notation 2 (format_f 2 t)).
Proof.
  intros Hb.
  destruct (build_index_measures B v documents w t w' Hb)
    as (Ht & Hticks & Hbt & Hinit).
  split; [ exact Ht | ]. split; [ exact Hticks | ].
  split; [ exact Hbt | ]. split; [ exact Hinit | ].
  intros Hs He Hle.
  pose proof (elapsed_duration _ _ Hs He Hle) as Hd. rewrite <- Ht in Hd.
  split; [ exact Hd | ]. split; [ apply duration_nonnegative, Hd | ].
  destruct Hd as (_ & Hfin & Hsign).
  destruct (format_f_fixed 1 t Hfin) as (txt & Htxt & Hfix).
  unfold sign_of in Htxt. rewrite Hsign in Htxt. simpl in Htxt.
  rewrite Htxt. exact Hfix.
Qed.

(** X14, witness: a Vector engine over the echo backend builds the index
    of one document between the readings 0 and 1 of the clock. *)
Lemma build_time_is_a_duration_witness :
  let w0 := empty_world blank_engine in
  let w1 := (init echo_backend Vector (py "llama3.1") w0).2 in
  let w2 := (build_index echo_backend Vector [py "One. Two."] w1).2 in
  get_build_time (self w2) = Float.one
  /\ format_f 2 (get_build_time (self w2)) = py "1.00".
Proof.
  intros w0 w1 w2.
  destruct (build_index echo_backend Vector [py "One. Two."] w1)
    as [r w2'] eqn:Hb.
  assert (r = Return Float.one) as ->.
  { assert (r = (build_index echo_backend Vector [py "One. Two."] w1).1) as ->
        by (rewrite Hb; reflexivity).
    vm_compute. reflexivity. }
  destruct (build_time_is_a_duration echo_backend Vector [py "One. Two."]
              w1 w2' Float.one Hb) as (_ & _ & Hbt & _).
  subst w2. simpl. rewrite Hbt. split; [ reflexivity | ].
  vm_compute. reflexivity.
Defined.

(** X15.  The time difference that [main] shows is rendered.  For two
    results whose execution times are finite floats that are not
    negative, the time difference is such a float too, and
    [format_time] returns on it. *)
Theorem time_diff_is_formatted (vector_result tree_result : QueryResult) :
  duration (execution_time vector_result) ->
  duration (execution_time tree_result) ->
  duration (time_diff vector_result tree_result)
  /\ Float.leb Float.zero (time_diff vector_result tree_result) = true
  /\ exists t, format_time (time_diff vector_result tree_result) = Return t.
Proof.
  intros Hv Ht. unfold time_diff.
  pose proof (abs_sub_duration _ _ Hv Ht) as Hd.
  split; [ exact Hd | ]. split; [ apply duration_nonnegative, Hd | ].
  destruct Hd as (Hf & Hfin & _). apply format_time_finite_returns; assumption.
Qed.

(** X15, witness: execution times of one second and of half a second. *)
Lemma time_diff_is_formatted_witness :
  let vector_result :=
    {| response := py "A"; source_nodes := [];
       execution_time := Float.one; timestamp := Float.one |} in
  let tree_result :=
    {| response := py "B"; source_nodes := [];
       execution_time := Float.half; timestamp := Float.sixty |} in
  exists t, format_time (time_diff vector_result tree_result) = Return t.
Proof.
  intros vector_result tree_result.
  apply (time_diff_is_formatted vector_result tree_result);
    repeat split; vm_compute; reflexivity.
Defined.

(** X16.  The metric of a timed block is a duration that [format_time]
    renders.  When the clock readings before and after the body of a
    [track_time] block are finite floats that are not negative, the
    second not before the first, [get_metric] afterwards returns a
    finite float that is at least zero, on which [format_time]
    returns. *)
Theorem tracked_metric_is_a_duration {W A : Type}
    (time_time : W -> float * W) (self : PerformanceTracker)
    (operation_name : pystr) (body : M (tracking W) A) (s : tracking W) :
  let start_time := (time_time (rest s)).1 in
  let s0 := {| dicts := dicts s; allocated := allocated s;
               rest := (time_time (rest s)).2 |} in
  let end_time := (time_time (rest (body s0).2)).1 in
  let s' := (track_time time_time self operation_name body s).2 in
  duration start_time -> duration end_time ->
  Float.leb start_time end_time = true ->
  exists elapsed,
    get_metric self operation_name s' = (Return elapsed, s')
    /\ duration elapsed
    /\ Float.leb Float.zero elapsed = true
    /\ exists t, format_time elapsed = Return t.
Proof.
  intros start_time s0 end_time s' Hs He Hle.
  exists (Float.sub end_time start_time).
  pose proof (elapsed_duration _ _ Hs He Hle) as Hd.
  split; [ | split; [ exact Hd | split; [ apply duration_nonnegative, Hd | ] ] ].
  - unfold s'. rewrite track_time_run. cbv zeta.
    unfold get_metric, dict_get. cbn [snd fst dicts allocated rest].
    rewrite Nat.eqb_refl, lookup_insert_eq. reflexivity.
  - destruct Hd as (Hf & Hfin & _). apply format_time_finite_returns; assumption.
Qed.

(** X16, witness: a block that does nothing, over a clock that counts
    the seconds. *)
Lemma tracked_metric_is_a_duration_witness :
  let time_time := fun n : nat => (float_of_nat n, S n) in
  let s := {| dicts := fun _ => ∅; allocated := 1; rest := 0%nat |} in
  let self := {| metrics := 0 |} in
  exists elapsed,
    (get_metric self (py "vector_query")
       (track_time time_time self (py "vector_query") (ret tt) s).2).1
    = Return elapsed
    /\ Float.leb Float.zero elapsed = true.
Proof.
  intros time_time s self.
  destruct (tracked_metric_is_a_duration time_time self (py "vector_query")
              (ret tt) s) as (elapsed & Hm & _ & Hle & _).
  - repeat split; vm_compute; reflexivity.
  - repeat split; vm_compute; reflexivity.
  - vm_compute. reflexivity.
  - exists elapsed. rewrite Hm. split; [ reflexivity | exact Hle ].
Defined.

(* --------------------------------------------------------------------- *)
(** ** Statements: pre- and postconditions *)
(* --------------------------------------------------------------------- *)

Section HoareRules.

Context {S : Type}.

Lemma hoare_ret {A : Type} (P : S -> Prop) (a : A) Q E :
  (forall s, P s -> Q a s) -> hoare P (ret a) Q E.
Proof. intros H s Hs. apply H, Hs. Qed.

Lemma hoare_raise {A : Type} (P : S -> Prop) (e : pystr) (Q : A -> S -> Prop)
    E :
  (forall s, P s -> E e s) -> hoare P (raise e) Q E.
Proof. intros H s Hs. apply H, Hs. Qed.

Lemma hoare_lift {A : Type} (P : S -> Prop) (o : outcome A) Q E :
  (forall s, P s -> match o with Return a => Q a s | Raise e => E e s end) ->
  hoare P (lift o) Q E.
Proof. intros H s Hs. unfold lift. specialize (H s Hs). destruct o; exact H. Qed.

Lemma hoare_get (P : S -> Prop) Q E :
  (forall s, P s -> Q s s) -> hoare P get Q E.
Proof. intros H s Hs. apply H, Hs. Qed.

Lemma hoare_modify (P : S -> Prop) (f : S -> S) Q E :
  (forall s, P s -> Q tt (f s)) -> hoare P (modify f) Q E.
Proof. intros H s Hs. apply H, Hs. Qed.

Lemma hoare_bind {A C : Type} (P : S -> Prop) (m : M S A) (k : A -> M S C)
    (Q1 : A -> S -> Prop) Q E :
  hoare P m Q1 E -> (forall a, hoare (Q1 a) (k a) Q E) ->
  hoare P (bind m k) Q E.
Proof.
  intros Hm Hk s Hs. unfold bind. specialize (Hm s Hs).
  destruct (m s) as [[a | e] s1]; [ apply Hk, Hm | exact Hm ].
Qed.

Lemma hoare_try_except {A : Type} (P : S -> Prop) (body : M S A) handler
    Q (E1 : pystr -> S -> Prop) E :
  hoare P body Q E1 -> (forall e, hoare (E1 e) (handler e) Q E) ->
  hoare P (try_except body handler) Q E.
Proof.
  intros Hb Hh s Hs. unfold try_except. specialize (Hb s Hs).
  destruct (body s) as [[a | e] s1]; [ exact Hb | apply Hh, Hb ].
Qed.

Lemma hoare_consequence {A : Type} (P P' : S -> Prop) (m : M S A)
    (Q Q' : A -> S -> Prop) (E E' : pystr -> S -> Prop) :
  hoare P' m Q' E' ->
  (forall s, P s -> P' s) -> (forall a s, Q' a s -> Q a s) ->
  (forall e s, E' e s -> E e s) ->
  hoare P m Q E.
Proof.
  intros Hm HP HQ HE s Hs. specialize (Hm s (HP s Hs)).
  destruct (m s) as [[a | e] s1]; [ apply HQ, Hm | apply HE, Hm ].
Qed.

(** A statement that meets a precondition returns when no exception is
    allowed. *)
Lemma hoare_returns {A : Type} (P : S -> Prop) (m : M S A) Q s :
  hoare P m Q (fun _ _ => False) -> P s ->
  exists a s', m s = (Return a, s') /\ Q a s'.
Proof.
  intros Hm Hs. specialize (Hm s Hs).
  destruct (m s) as [[a | e] s1]; [ eauto | destruct Hm ].
Qed.

End HoareRules.

(* --------------------------------------------------------------------- *)
(** ** [main]: what its statements do to the session state *)
(* --------------------------------------------------------------------- *)

Section AppRules.

Context {Docs Index : Type} (B : backend Docs Index) (pypdf : pdf_library).

Implicit Types I : session_state Index -> Prop.

(** Showing something, working on the upload and constructing an engine
    leave the session state alone. *)
Lemma hoare_st I (ev : shown_event) E :
  hoare (on_session I) (st ev) (fun _ => on_session I) E.
Proof. intros a Ha. exact Ha. Qed.

Lemma hoare_on_upload {A : Type} I (m : M stream A) :
  hoare (on_session I) (on_upload Index m)
    (fun _ => on_session I) (fun _ => on_session I).
Proof.
  intros a Ha. unfold on_upload.
  destruct (m (uploaded_file a)) as [[x | e] f]; exact Ha.
Qed.

Lemma hoare_construct I (v : variant) (name : pystr) :
  hoare (on_session I) (construct Docs Index B v name)
    (fun _ => on_session I) (fun _ => on_session I).
Proof.
  intros a Ha. unfold construct.
  destruct (init B v name (world_of Index blank_engine a)) as [[x | e] w'];
    exact Ha.
Qed.

Lemma hoare_set_session I I' (f : session_state Index -> session_state Index)
    E :
  (forall s, I s -> I' (f s)) ->
  hoare (on_session I) (modify (set_session Index f))
    (fun _ => on_session I') E.
Proof. intros H a Ha. apply H, Ha. Qed.

(** A method call on an engine of the session state. *)
Lemma hoare_call_engine {A : Type} I (v : variant) (method_name : pystr)
    (method : M (world Index) A) (Q : A -> session_state Index -> Prop)
    (E : pystr -> session_state Index -> Prop) :
  (forall s, I s -> engine_slot v s = None ->
             E (none_has_no_attribute method_name) s) ->
  (forall s e w r w',
      I s -> engine_slot v s = Some e -> self w = e ->
      method w = (r, w') ->
      match r with
      | Return x => Q x (set_engine_slot Index v (self w') s)
      | Raise err => E err (set_engine_slot Index v (self w') s)
      end) ->
  hoare (on_session I) (call_engine Index v method_name method)
    (fun x => on_session (Q x)) (fun e => on_session (E e)).
Proof.
  intros Hnone Hsome a Ha. unfold call_engine.
  destruct (engine_slot v (session a)) as [e | ] eqn:Hslot.
  - destruct (method (world_of Index e a)) as [r w'] eqn:Hm.
    specialize (Hsome (session a) e (world_of Index e a) r w' Ha Hslot
                  eq_refl Hm).
    destruct r; exact Hsome.
  - apply Hnone; assumption.
Qed.

(** A statement of the application in a program that tracks. *)
Lemma hoare_in_app {A : Type} (P : app Index -> Prop) (m : M (app Index) A)
    Q E :
  hoare P m Q E ->
  hoare (on_app P) (in_app Index m)
    (fun x => on_app (Q x)) (fun e => on_app (E e)).
Proof.
  intros Hm s Hs. unfold in_app. specialize (Hm (rest s) Hs).
  destruct (m (rest s)) as [[x | e] a]; exact Hm.
Qed.

Lemma hoare_tracker_init (P : app Index -> Prop) E :
  hoare (on_app P) tracker_init (fun _ => on_app P) E.
Proof. intros s Hs. exact Hs. Qed.

(** A timed block, for properties that reading the clock does not
    change. *)
Lemma hoare_track_time {A : Type} (P : app Index -> Prop)
    (Q : A -> app Index -> Prop) (E : pystr -> app Index -> Prop)
    (self : PerformanceTracker) (operation_name : pystr)
    (body : M (tracking (app Index)) A) :
  (forall a, P a -> P (app_time Docs Index B a).2) ->
  (forall x a, Q x a -> Q x (app_time Docs Index B a).2) ->
  (forall e a, E e a -> E e (app_time Docs Index B a).2) ->
  hoare (on_app P) body (fun x => on_app (Q x)) (fun e => on_app (E e)) ->
  hoare (on_app P)
    (track_time (app_time Docs Index B) self operation_name body)
    (fun x => on_app (Q x)) (fun e => on_app (E e)).
Proof.
  intros HP HQ HE Hbody s Hs. rewrite track_time_run. cbv zeta.
  set (s0 := {| dicts := dicts s; allocated := allocated s;
                rest := (app_time Docs Index B (rest s)).2 |}).
  specialize (Hbody s0 (HP _ Hs)).
  destruct (body s0) as [[x | e] s1]; simpl.
  - apply HQ, Hbody.
  - apply HE, Hbody.
Qed.

End AppRules.

(* --------------------------------------------------------------------- *)
(** ** [main]: it never raises *)
(* --------------------------------------------------------------------- *)

Section MainSafety.

Context {Docs Index : Type} (B : backend Docs Index) (pypdf : pdf_library)
  (docstore_len : Index -> outcome Z).

(** Assigning an engine keeps the engines that are there. *)
Lemma set_engine_slot_present (v : variant) (e : engine Index)
    (s : session_state Index) :
  engines_present s -> engines_present (set_engine_slot Index v e s).
Proof.
  unfold engines_present. intros H Hflag.
  destruct v; simpl in *; destruct (H Hflag) as [Hv Ht]; split; eauto.
Qed.

(** A method that leaves the engine object alone leaves the session
    state as it is. *)
Lemma set_engine_slot_same (v : variant) (e : engine Index)
    (s : session_state Index) :
  engine_slot v s = Some e -> set_engine_slot Index v e s = s.
Proof.
  destruct s as [flag ve te text], v; simpl; intros ->; reflexivity.
Qed.

(** [validate_pdf] returns. *)
Lemma validate_pdf_returns (pdf_file : pdf_input) (f : stream) :
  exists validity f', validate_pdf pypdf pdf_file f = (Return validity, f').
Proof.
  unfold validate_pdf, try_except, bind, lift, ret.
  destruct pdf_file as [ | p].
  - unfold stream_read, stream_seek. destruct (closed f); [ eauto | ].
    destruct (open_bytes pypdf (drop (pos f) (data f))) as [reader | e];
      [ | eauto ].
    simpl. destruct (pages reader) as [[ | pg pgs] | e]; simpl; eauto.
  - destruct (open_path pypdf p) as [reader | e]; [ | eauto ].
    destruct (pages reader) as [[ | pg pgs] | e]; simpl; eauto.
Qed.

Lemma hoare_validate (I : session_state Index -> Prop) E :
  hoare (on_session I) (on_upload Index (validate_pdf pypdf FileObject))
    (fun _ => on_session I) E.
Proof.
  intros a Ha. unfold on_upload.
  destruct (validate_pdf_returns FileObject (uploaded_file a))
    as (validity & f' & ->).
  exact Ha.
Qed.

(** A method that only reads the engine object. *)
Lemma hoare_read_engine {A : Type} (I : session_state Index -> Prop)
    (v : variant) (method_name : pystr) (read : engine Index -> A) E :
  (forall s, I s -> is_Some (engine_slot v s)) ->
  hoare (on_session I)
    (call_engine Index v method_name
       (bind get (fun w => ret (read (self w)))))
    (fun x a => on_session I a
                /\ exists e, engine_slot v (session a) = Some e
                             /\ x = read e)
    E.
Proof.
  intros Hsome a Ha. unfold call_engine.
  destruct (Hsome _ Ha) as [e He]. rewrite He.
  unfold bind, get, ret. simpl. unfold on_session. simpl.
  rewrite (set_engine_slot_same v e (session a) He).
  split; [ exact Ha | ]. exists e. split; [ exact He | reflexivity ].
Qed.

(** The handlers of [main] show the exception and return. *)
Lemma hoare_show_twice (I : session_state Index -> Prop)
    (first second : shown_event) E :
  hoare (on_session I) (bind (st first) (fun _ => st second))
    (fun _ => on_session I) E.
Proof.
  eapply hoare_bind; [ apply hoare_st | intros ?; apply hoare_st ].
Qed.

Lemma hoare_show (I : session_state Index -> Prop) (ev : shown_event) E :
  hoare (on_app (on_session I)) (in_app Index (st ev))
    (fun _ => on_app (on_session I)) E.
Proof. intros s Hs. exact Hs. Qed.

(** Processing a document keeps the engines that are there, and says
    that a document has been processed only after it has assigned
    both. *)
Lemma process_document_present (name : pystr) :
  hoare (on_session engines_present) (process_document B pypdf name)
    (fun _ => on_session engines_present) (fun _ _ => False).
Proof.
  unfold process_document.
  apply (hoare_try_except _ _ _ _ (fun _ => on_session engines_present));
    [ | intros e; apply hoare_show_twice ].
  eapply hoare_bind; [ apply hoare_on_upload | intros text_content ].
  eapply hoare_bind;
    [ apply (hoare_set_session engines_present engines_present);
      intros s Hs; exact Hs
    | intros ? ].
  eapply hoare_bind; [ apply hoare_construct | intros new_vector ].
  eapply hoare_bind;
    [ apply (hoare_set_session engines_present
               (fun s => engines_present s /\ is_Some (vector_engine s)));
      intros s Hs; split;
      [ apply set_engine_slot_present, Hs | simpl; eauto ]
    | intros ? ].
  eapply hoare_bind.
  { eapply hoare_consequence;
      [ apply (hoare_construct B
                 (fun s => engines_present s /\ is_Some (vector_engine s)))
      | intros s Hs; exact Hs
      | intros ? ? Hs; exact Hs
      | intros ? ? Hs; exact (proj1 Hs) ]. }
  intros new_tree.
  set (both := fun s : session_state Index =>
                 is_Some (vector_engine s) /\ is_Some (tree_engine s)).
  assert (forall s, both s -> engines_present s) as Hboth
      by (intros s Hs _; exact Hs).
  assert (forall v e s, both s -> both (set_engine_slot Index v e s))
    as Hslot.
  { intros v e s [Hv Ht]. destruct v; split; simpl; eauto. }
  eapply hoare_bind;
    [ apply (hoare_set_session _ both); intros s [_ Hv]; split;
      [ exact Hv | simpl; eauto ]
    | intros ? ].
  assert (forall (A : Type) v method_name (method : M (world Index) A),
             hoare (on_session both)
               (call_engine Index v method_name method)
               (fun _ => on_session both)
               (fun _ => on_session engines_present)) as Hcall.
  { intros A v method_name method.
    apply (hoare_call_engine both v method_name method (fun _ => both)
             (fun _ => engines_present)).
    - intros s Hs _. apply Hboth, Hs.
    - intros s e w r w' Hs _ _ _. destruct r.
      + apply Hslot, Hs.
      + apply Hboth, Hslot, Hs. }
  eapply hoare_bind; [ apply Hcall | intros vector_build_time ].
  eapply hoare_bind; [ apply hoare_st | intros ? ].
  eapply hoare_bind; [ apply Hcall | intros tree_build_time ].
  eapply hoare_bind; [ apply hoare_st | intros ? ].
  eapply hoare_bind;
    [ apply (hoare_set_session both engines_present);
      intros s Hs _; exact Hs
    | intros ? ].
  apply hoare_st.
Qed.

Lemma sidebar_upload_present (i : widgets) :
  hoare (on_session engines_present) (sidebar_upload B pypdf i)
    (fun _ => on_session engines_present) (fun _ _ => False).
Proof.
  unfold sidebar_upload. destruct (has_upload i).
  - eapply hoare_bind; [ apply hoare_validate | intros validity ].
    destruct (negb validity.1).
    + eapply hoare_bind; [ apply hoare_st | intros ? ].
      apply hoare_ret. intros s Hs. exact Hs.
    + eapply hoare_bind;
        [ | intros ?; apply hoare_ret; intros s Hs; exact Hs ].
      destruct (process_clicked i).
      * apply process_document_present.
      * apply hoare_ret. intros s Hs. exact Hs.
  - apply hoare_ret. intros s Hs. exact Hs.
Qed.

(** With both engines there, the statistics are shown and nothing
    changes. *)
Lemma performance_stats_present (I : session_state Index -> Prop) :
  (forall s, I s ->
             is_Some (vector_engine s) /\ is_Some (tree_engine s)) ->
  hoare (on_session I) (performance_stats docstore_len)
    (fun _ => on_session I) (fun _ _ => False).
Proof.
  intros Hboth. unfold performance_stats.
  eapply hoare_bind.
  { apply (hoare_read_engine I Vector). intros s Hs. apply Hboth, Hs. }
  intros vector_time.
  eapply hoare_bind.
  { eapply hoare_consequence;
      [ apply (hoare_read_engine I Tree); intros s Hs; apply Hboth, Hs
      | intros s [Hs _]; exact Hs
      | intros ? ? Hs; exact (proj1 Hs)
      | intros ? ? Hs; exact Hs ]. }
  intros tree_time.
  eapply hoare_bind; [ apply hoare_st | intros ? ].
  eapply hoare_bind; [ apply hoare_st | intros ? ].
  eapply hoare_bind.
  { eapply hoare_consequence;
      [ apply (hoare_read_engine I Tree); intros s Hs; apply Hboth, Hs
      | intros s Hs; exact Hs
      | intros ? ? Hs; exact (proj1 Hs)
      | intros ? ? Hs; exact Hs ]. }
  intros tree_info.
  destruct (tree_info !! py "num_nodes").
  - apply hoare_st.
  - apply hoare_ret. intros s Hs. exact Hs.
Qed.

Lemma engines_not_ready_present (I : session_state Index -> Prop) :
  (forall s, I s ->
             is_Some (vector_engine s) /\ is_Some (tree_engine s)) ->
  hoare (on_session I) engines_not_ready
    (fun _ => on_session I) (fun _ _ => False).
Proof.
  intros Hboth. unfold engines_not_ready.
  eapply hoare_bind.
  { apply (hoare_read_engine I Vector). intros s Hs. apply Hboth, Hs. }
  intros vector_ready.
  destruct (negb vector_ready).
  - apply hoare_ret. intros s Hs. exact (proj1 Hs).
  - eapply hoare_bind.
    { eapply hoare_consequence;
        [ apply (hoare_read_engine I Tree); intros s Hs; apply Hboth, Hs
        | intros s [Hs _]; exact Hs
        | intros ? ? Hs; exact (proj1 Hs)
        | intros ? ? Hs; exact Hs ]. }
    intros tree_ready. apply hoare_ret. intros s Hs. exact Hs.
Qed.

(** What is shown of a result does not change the session state. *)
Lemma show_result_session (I : session_state Index -> Prop)
    (result : QueryResult) (trace : bool) (key : pystr) :
  hoare (on_session I) (show_result Index result trace key)
    (fun _ => on_session I) (fun _ => on_session I).
Proof.
  unfold show_result.
  eapply hoare_bind.
  { apply (hoare_lift (on_session I) _ (fun _ => on_session I)).
    intros s Hs. destruct (format_time _); exact Hs. }
  intros response_time.
  eapply hoare_bind; [ apply hoare_st | intros ? ].
  eapply hoare_bind; [ apply hoare_st | intros ? ].
  destruct trace; [ apply hoare_st | apply hoare_ret; intros s Hs; exact Hs ].
Qed.

(** The analysis leaves the session state as it is, and shows its
    exceptions. *)
Lemma analyze_session (I : session_state Index -> Prop)
    (query_text : pystr) (trace : bool) :
  hoare (on_app (on_session I)) (analyze B query_text trace)
    (fun _ => on_app (on_session I)) (fun _ _ => False).
Proof.
  unfold analyze.
  apply (hoare_try_except _ _ _ _ (fun _ => on_app (on_session I))).
  2:{ intros e. eapply hoare_bind;
        [ apply hoare_show | intros ?; apply hoare_show ]. }
  assert (forall v,
             hoare (on_session I)
               (call_engine Index v (py "query") (query B v query_text))
               (fun _ => on_session I) (fun _ => on_session I)) as Hcall.
  { intros v.
    apply (hoare_call_engine I v (py "query") (query B v query_text)
             (fun _ => I) (fun _ => I)).
    - intros s Hs _. exact Hs.
    - intros s e w r w' Hs He Hself Hq.
      apply query_keeps_self in Hq. rewrite Hq, Hself.
      rewrite (set_engine_slot_same v e s He). destruct r; exact Hs. }
  assert (forall v name (self : PerformanceTracker),
             hoare (on_app (on_session I))
               (track_time (app_time Docs Index B) self name
                  (in_app Index
                     (call_engine Index v (py "query")
                        (query B v query_text))))
               (fun _ => on_app (on_session I))
               (fun _ => on_app (on_session I))) as Htrack.
  { intros v name self.
    apply (hoare_track_time B (on_session I) (fun _ => on_session I)
             (fun _ => on_session I)); try (intros; assumption).
    apply hoare_in_app, Hcall. }
  assert (forall x : outcome pystr,
             hoare (on_app (on_session I)) (lift x)
               (fun _ => on_app (on_session I))
               (fun _ => on_app (on_session I))) as Hlift.
  { intros x. apply hoare_lift. intros s Hs. destruct x; exact Hs. }
  eapply hoare_bind; [ apply hoare_tracker_init | intros perf_tracker ].
  eapply hoare_bind; [ apply Htrack | intros vector_result ].
  eapply hoare_bind; [ apply Htrack | intros tree_result ].
  eapply hoare_bind;
    [ apply (hoare_in_app _ _ _ _ (show_result_session I _ _ _))
    | intros ? ].
  eapply hoare_bind;
    [ apply (hoare_in_app _ _ _ _ (show_result_session I _ _ _))
    | intros ? ].
  eapply hoare_bind; [ apply Hlift | intros vector_response_time ].
  eapply hoare_bind; [ apply hoare_show | intros ? ].
  eapply hoare_bind; [ apply Hlift | intros tree_response_time ].
  eapply hoare_bind; [ apply hoare_show | intros ? ].
  eapply hoare_bind; [ apply Hlift | intros difference ].
  eapply hoare_bind; [ apply hoare_show | intros ? ].
  apply hoare_show.
Qed.

(** The part of [main] that comes after the upload keeps every property
    of the session state that holds both engines whenever a document
    has been processed. *)
Lemma main_after_upload (I : session_state Index -> Prop) (i : widgets) :
  (forall s, I s -> engines_present s) ->
  hoare (on_app (on_session I))
    (bind get (fun t : tracking (app Index) =>
     bind (if document_processed (session (rest t))
           then in_app Index (performance_stats docstore_len)
           else ret tt) (fun _ =>
     bind get (fun t : tracking (app Index) =>
     if negb (document_processed (session (rest t)))
     then in_app Index (st (StInfo please_upload))
     else if truthy (query_input i) && analyze_clicked i
          then bind (in_app Index engines_not_ready) (fun not_ready =>
               if not_ready
               then in_app Index
                      (st (StError (py "Engines not properly initialized")))
               else analyze B (query_input i) (show_trace i))
          else ret tt))))
    (fun _ => on_app (on_session I)) (fun _ _ => False).
Proof.
  intros Hpresent.
  set (ready := fun s : session_state Index =>
                  I s /\ document_processed s = true).
  assert (forall s, ready s ->
                    is_Some (vector_engine s) /\ is_Some (tree_engine s))
    as Hready by (intros s [Hs Hflag]; apply (Hpresent s Hs Hflag)).
  eapply hoare_bind.
  { apply (hoare_get _ (fun x s => on_app (on_session I) s /\ x = s)).
    intros s Hs. split; [ exact Hs | reflexivity ]. }
  intros s0.
  eapply hoare_bind.
  { instantiate (1 := fun _ => on_app (on_session I)).
    destruct (document_processed (session (rest s0))) eqn:Hflag.
    - eapply hoare_consequence;
        [ apply hoare_in_app, (performance_stats_present ready Hready)
        | intros s [Hs ->]; split; [ exact Hs | exact Hflag ]
        | intros ? ? Hs; exact (proj1 Hs)
        | intros ? ? Hs; exact Hs ].
    - apply hoare_ret. intros s [Hs _]. exact Hs. }
  intros ?.
  eapply hoare_bind.
  { apply (hoare_get _ (fun x s => on_app (on_session I) s /\ x = s)).
    intros s Hs. split; [ exact Hs | reflexivity ]. }
  intros s1.
  destruct (document_processed (session (rest s1))) eqn:Hflag; simpl negb.
  - destruct (truthy (query_input i) && analyze_clicked i).
    + eapply hoare_bind.
      { eapply hoare_consequence;
          [ apply hoare_in_app, (engines_not_ready_present ready Hready)
          | intros s [Hs ->]; split; [ exact Hs | exact Hflag ]
          | intros ? ? Hs; exact Hs
          | intros ? ? Hs; exact Hs ]. }
      intros not_ready. destruct not_ready.
      * eapply hoare_consequence;
          [ apply (hoare_show ready)
          | intros s Hs; exact Hs
          | intros ? ? Hs; exact (proj1 Hs)
          | intros ? ? Hs; exact Hs ].
      * eapply hoare_consequence;
          [ apply (analyze_session ready)
          | intros s Hs; exact Hs
          | intros ? ? Hs; exact (proj1 Hs)
          | intros ? ? Hs; exact Hs ].
    + apply hoare_ret. intros s [Hs _]. exact Hs.
  - eapply hoare_consequence;
      [ apply (hoare_show I)
      | intros s [Hs _]; exact Hs
      | intros ? ? Hs; exact Hs
      | intros ? ? Hs; exact Hs ].
Qed.

Lemma hoare_in_app_returns {A : Type} (P : app Index -> Prop)
    (m : M (app Index) A) Q :
  hoare P m Q (fun _ _ => False) ->
  hoare (on_app P) (in_app Index m) (fun x => on_app (Q x))
    (fun _ _ => False).
Proof.
  intros Hm s Hs. unfold in_app. specialize (Hm (rest s) Hs).
  destruct (m (rest s)) as [[x | e] a]; exact Hm.
Qed.

Lemma main_present (i : widgets) :
  hoare (on_app (on_session engines_present))
    (main B pypdf docstore_len i)
    (fun _ => on_app (on_session engines_present)) (fun _ _ => False).
Proof.
  unfold main.
  eapply hoare_bind;
    [ apply hoare_in_app_returns, sidebar_upload_present | intros goes_on ].
  destruct (negb goes_on).
  - apply hoare_ret. intros s Hs. exact Hs.
  - apply (main_after_upload engines_present i).
    intros s Hs. exact Hs.
Qed.

(** Processing a document, in a session state that says that none has
    been processed: it says that one has been only after both indexes
    have been built. *)
Lemma process_document_ready (name : pystr) :
  hoare (on_session (fun s => document_processed s = false))
    (process_document B pypdf name)
    (fun _ => on_session (fun s => document_processed s = true ->
                                   engines_ready s))
    (fun _ _ => False).
Proof.
  set (fresh := fun s : session_state Index => document_processed s = false).
  unfold process_document.
  apply (hoare_try_except _ _ _ _ (fun _ => on_session fresh)).
  2:{ intros e. eapply hoare_consequence;
        [ apply (hoare_show_twice fresh)
        | intros s Hs; exact Hs
        | intros ? s Hs Hflag; unfold on_session, fresh in Hs; congruence
        | intros ? ? Hs; exact Hs ]. }
  assert (forall v e s, fresh s -> fresh (set_engine_slot Index v e s))
    as Hslot by (intros v e s Hs; destruct v; exact Hs).
  eapply hoare_bind; [ apply hoare_on_upload | intros text_content ].
  eapply hoare_bind;
    [ apply (hoare_set_session fresh fresh); intros s Hs; exact Hs
    | intros ? ].
  eapply hoare_bind; [ apply hoare_construct | intros new_vector ].
  eapply hoare_bind;
    [ apply (hoare_set_session fresh fresh); intros s Hs; apply Hslot, Hs
    | intros ? ].
  eapply hoare_bind; [ apply hoare_construct | intros new_tree ].
  eapply hoare_bind;
    [ apply (hoare_set_session fresh fresh); intros s Hs; apply Hslot, Hs
    | intros ? ].
  set (vector_built := fun s : session_state Index =>
         fresh s /\ exists e, vector_engine s = Some e
                              /\ is_initialized e = true).
  set (both_built := fun s : session_state Index =>
         fresh s /\ engines_ready s).
  eapply hoare_bind.
  { apply (hoare_call_engine fresh Vector (py "build_index")
             (build_index B Vector [text_content])
             (fun _ => vector_built) (fun _ => fresh)).
    - intros s Hs _. exact Hs.
    - intros s e w r w' Hs _ _ Hb. destruct r as [t | err].
      + split; [ apply Hslot, Hs | ].
        exists (self w'). split; [ reflexivity | ].
        apply (build_index_measures B Vector _ _ _ _ Hb).
      + apply Hslot, Hs. }
  intros vector_build_time.
  eapply hoare_bind.
  { eapply hoare_consequence;
      [ apply (hoare_st vector_built)
      | intros s Hs; exact Hs
      | intros ? ? Hs; exact Hs
      | intros ? ? Hs; exact Hs ]. }
  intros ?.
  eapply hoare_bind.
  { apply (hoare_call_engine vector_built Tree (py "build_index")
             (build_index B Tree [text_content])
             (fun _ => both_built) (fun _ => fresh)).
    - intros s [Hs _] _. exact Hs.
    - intros s e w r w' [Hs (ve & Hve & Hinit)] _ _ Hb.
      destruct r as [t | err].
      + split; [ apply Hslot, Hs | ].
        exists ve, (self w'). simpl. repeat split; try assumption.
        apply (build_index_measures B Tree _ _ _ _ Hb).
      + apply Hslot, Hs. }
  intros tree_build_time.
  eapply hoare_bind.
  { eapply hoare_consequence;
      [ apply (hoare_st both_built)
      | intros s Hs; exact Hs
      | intros ? ? Hs; exact Hs
      | intros ? ? Hs; exact Hs ]. }
  intros ?.
  eapply hoare_bind.
  { apply (hoare_set_session both_built engines_ready).
    intros s [_ (ve & te & Hv & Ht & Hvi & Hti)].
    exists ve, te. simpl. repeat split; assumption. }
  intros ?.
  eapply hoare_consequence;
    [ apply (hoare_st engines_ready)
    | intros s Hs; exact Hs
    | intros ? s Hs _; exact Hs
    | intros ? ? Hs; exact Hs ].
Qed.

Lemma sidebar_upload_ready (i : widgets) :
  hoare (on_session (fun s => document_processed s = false))
    (sidebar_upload B pypdf i)
    (fun _ => on_session (fun s => document_processed s = true ->
                                   engines_ready s
                                   /\ has_upload i = true
                                   /\ process_clicked i = true))
    (fun _ _ => False).
Proof.
  set (fresh := fun s : session_state Index => document_processed s = false).
  assert (forall s : app Index,
             on_session fresh s ->
             on_session (fun s => document_processed s = true ->
                                  engines_ready s
                                  /\ has_upload i = true
                                  /\ process_clicked i = true) s) as Hfresh.
  { intros s Hs Hflag. unfold on_session, fresh in Hs. congruence. }
  unfold sidebar_upload. destruct (has_upload i) eqn:Hup.
  - eapply hoare_bind; [ apply (hoare_validate fresh) | intros validity ].
    destruct (negb validity.1).
    + eapply hoare_bind; [ apply hoare_st | intros ? ].
      apply hoare_ret. intros s Hs. apply Hfresh, Hs.
    + destruct (process_clicked i) eqn:Hclick.
      * eapply hoare_bind;
          [ apply process_document_ready
          | intros ?; apply hoare_ret ].
        intros s Hs Hflag. split; [ apply Hs, Hflag | split; reflexivity ].
      * eapply hoare_bind;
          [ apply (hoare_ret (on_session fresh) tt
                     (fun _ => on_session fresh));
            intros s Hs; exact Hs
          | intros ?; apply hoare_ret ].
        intros s Hs. apply Hfresh, Hs.
  - apply hoare_ret. intros s Hs. apply Hfresh, Hs.
Qed.

Lemma main_ready (i : widgets) :
  hoare (on_app (on_session (fun s => document_processed s = false)))
    (main B pypdf docstore_len i)
    (fun _ => on_app (on_session
                        (fun s => document_processed s = true ->
                                  engines_ready s
                                  /\ has_upload i = true
                                  /\ process_clicked i = true)))
    (fun _ _ => False).
Proof.
  unfold main.
  eapply hoare_bind;
    [ apply hoare_in_app_returns, sidebar_upload_ready | intros goes_on ].
  destruct (negb goes_on).
  - apply hoare_ret. intros s Hs. exact Hs.
  - apply (main_after_upload _ i).
    intros s Hs Hflag. destruct (Hs Hflag) as [(ve & te & Hv & Ht & _) _].
    rewrite Hv, Ht. split; eauto.
Qed.

End MainSafety.

(** X17.  [main] never raises.  Before the first run the session state
    holds no engine and says that no document has been processed.  In
    every run, whatever the widgets, the upload, the PDF library and the
    backend do: when the session state holds both engines whenever it
    says that a document has been processed, [main] returns, and the
    session state it leaves is of that kind again.  So no run raises:
    every exception of the processing and of the analysis is caught and
    shown, and no method is called on an engine that is [None]. *)
Theorem main_never_raises {Docs Index : Type} (B : backend Docs Index)
    (pypdf : pdf_library) (docstore_len : Index -> outcome Z) :
  engines_present (initial_session (Index := Index))
  /\ forall (i : widgets) (s : tracking (app Index)),
      engines_present (session (rest s)) ->
      exists s',
        main B pypdf docstore_len i s = (Return tt, s')
        /\ engines_present (session (rest s')).
Proof.
  split.
  - intros Hflag. discriminate Hflag.
  - intros i s Hs.
    destruct (hoare_returns _ _ _ s (main_present B pypdf docstore_len i) Hs)
      as ([] & s' & Hrun & Hs').
    exists s'. split; [ exact Hrun | exact Hs' ].
Qed.

(** X18.  [main] says that a document has been processed only when both
    indexes have been built.  In a run that starts with a session state
    saying that no document has been processed, [main] returns, and when
    the session state then says that one has been, a file was uploaded,
    "Process Document" was clicked, and the session state holds two
    engines that are initialized. *)
Theorem processed_means_ready {Docs Index : Type} (B : backend Docs Index)
    (pypdf : pdf_library) (docstore_len : Index -> outcome Z)
    (i : widgets) (s : tracking (app Index)) :
  document_processed (session (rest s)) = false ->
  exists s',
    main B pypdf docstore_len i s = (Return tt, s')
    /\ (document_processed (session (rest s')) = true ->
        engines_ready (session (rest s'))
        /\ has_upload i = true /\ process_clicked i = true).
Proof.
  intros Hs.
  destruct (hoare_returns _ _ _ s (main_ready B pypdf docstore_len i) Hs)
    as ([] & s' & Hrun & Hs').
  exists s'. split; [ exact Hrun | exact Hs' ].
Qed.

(* --------------------------------------------------------------------- *)
(** ** [main]: runs that end early *)
(* --------------------------------------------------------------------- *)

Section MainRuns.

Context {Docs Index : Type} (B : backend Docs Index) (pypdf : pdf_library)
  (docstore_len : Index -> outcome Z).

Lemma with_world_of (e : engine Index) (a : app Index) :
  with_world Index (world_of Index e a) a = a.
Proof. destruct a. reflexivity. Qed.

Lemma set_session_same (v : variant) (e : engine Index) (a : app Index) :
  engine_slot v (session a) = Some e ->
  set_session Index (set_engine_slot Index v e) a = a.
Proof.
  intros H. unfold set_session.
  rewrite (set_engine_slot_same v e (session a) H). destruct a. reflexivity.
Qed.

(** A method that only reads the engine object changes nothing. *)
Lemma call_engine_read {A : Type} (v : variant) (method_name : pystr)
    (read : engine Index -> A) (e : engine Index) (a : app Index) :
  engine_slot v (session a) = Some e ->
  call_engine Index v method_name (bind get (fun w => ret (read (self w)))) a
  = (Return (read e), a).
Proof.
  intros H. unfold call_engine. rewrite H. unfold bind, get, ret. simpl.
  rewrite with_world_of, (set_session_same v e a H). reflexivity.
Qed.

(** The statistics of the sidebar, with both engines there. *)
Lemma performance_stats_run (vector tree : engine Index) (a : app Index) :
  vector_engine (session a) = Some vector ->
  tree_engine (session a) = Some tree ->
  performance_stats docstore_len a
  = (Return tt,
     {| session := session a; uploaded_file := uploaded_file a;
        app_fs := app_fs a; app_settings := app_settings a;
        app_ticks := app_ticks a; app_log := app_log a;
        shown := shown a ++ stats_shown docstore_len vector tree |}).
Proof.
  intros Hv Ht. unfold performance_stats.
  rewrite (bind_returns _ _ a _ a (call_engine_read Vector _ _ vector a Hv)).
  rewrite (bind_returns _ _ a _ a (call_engine_read Tree _ _ tree a Ht)).
  unfold stats_shown, bind at 1 2, st, modify.
  cbv beta iota.
  match goal with
  | |- bind _ _ ?a' = _ =>
      rewrite (bind_returns _ _ a' _ a'
                 (call_engine_read Tree _
                    (get_tree_structure_info docstore_len) tree a' Ht))
  end.
  destruct (get_tree_structure_info docstore_len tree !! py "num_nodes");
    unfold ret, modify; simpl; rewrite <- ?app_assoc; simpl;
    rewrite ?app_nil_r; reflexivity.
Qed.

(** The check of the engines, with both engines there. *)
Lemma engines_not_ready_run (vector tree : engine Index) (a : app Index) :
  vector_engine (session a) = Some vector ->
  tree_engine (session a) = Some tree ->
  engines_not_ready a
  = (Return (negb (is_initialized vector) || negb (is_initialized tree)), a).
Proof.
  intros Hv Ht. unfold engines_not_ready.
  rewrite (bind_returns _ _ a _ a (call_engine_read Vector _ _ vector a Hv)).
  destruct (is_initialized vector); simpl; [ | reflexivity ].
  rewrite (bind_returns _ _ a _ a (call_engine_read Tree _ _ tree a Ht)).
  reflexivity.
Qed.

(** A statement of the application that returns, in a program that
    tracks. *)
Lemma in_app_returns {A : Type} (m : M (app Index) A) d n
    (a a' : app Index) (x : A) :
  m a = (Return x, a') ->
  in_app Index m {| dicts := d; allocated := n; rest := a |}
  = (Return x, {| dicts := d; allocated := n; rest := a' |}).
Proof. intros H. unfold in_app. simpl. rewrite H. reflexivity. Qed.

(** Without an upload the sidebar does nothing before the statistics. *)
Lemma sidebar_no_upload (i : widgets) (a : app Index) :
  has_upload i = false -> sidebar_upload B pypdf i a = (Return true, a).
Proof. intros H. unfold sidebar_upload. rewrite H. reflexivity. Qed.

End MainRuns.

(** X19.  An upload that is not valid ends the run.  When a file is
    uploaded and [validate_pdf] finds it invalid, [main] shows the error
    "Invalid PDF: " with the message of the validation, and nothing
    else: neither the statistics nor the query interface, also when a
    document has been processed before.  The session state, the file
    system, the settings, the clock and the requests to the backend are
    as they were. *)
Theorem invalid_upload_ends_the_run {Docs Index : Type}
    (B : backend Docs Index) (pypdf : pdf_library)
    (docstore_len : Index -> outcome Z) (i : widgets)
    (s : tracking (app Index)) (message : pystr) (f' : stream) :
  has_upload i = true ->
  validate_pdf pypdf FileObject (uploaded_file (rest s))
  = (Return (false, message), f') ->
  main B pypdf docstore_len i s
  = (Return tt,
     {| dicts := dicts s; allocated := allocated s;
        rest := {| session := session (rest s);
                   uploaded_file := f';
                   app_fs := app_fs (rest s);
                   app_settings := app_settings (rest s);
                   app_ticks := app_ticks (rest s);
                   app_log := app_log (rest s);
                   shown := shown (rest s)
                            ++ [StError ([10060%N] ++ py " Invalid PDF: "
                                         ++ message)] |} |}).
Proof.
  intros Hup Hv.
  unfold main, bind at 1, in_app at 1, sidebar_upload.
  rewrite Hup. unfold bind at 1, on_upload. rewrite Hv. reflexivity.
Qed.

(** X19, witness: an empty upload, which the library refuses, in a
    session state that says that a document has been processed. *)
Lemma invalid_upload_ends_the_run_witness :
  let i := {| model_name_input := py "llama3.1"; has_upload := true;
              process_clicked := false; query_input := py "What?";
              show_trace := false; analyze_clicked := true |} in
  let blank : engine (list pystr) := blank_engine in
  let s : tracking (app (list pystr)) :=
    {| dicts := fun _ => ∅; allocated := 0;
       rest := {| session := {| document_processed := true;
                                vector_engine := Some blank;
                                tree_engine := Some blank;
                                document_text := py "text" |};
                  uploaded_file := {| data := []; pos := 0; closed := false |};
                  app_fs := {| dirs := ∅; files := ∅ |};
                  app_settings := None; app_ticks := 0%nat; app_log := [];
                  shown := [] |} |} in
  shown (rest (main echo_backend bytewise_pdf
                 (fun idx => Return (Z.of_nat (length idx))) i s).2)
  = [StError ([10060%N]
              ++ py " Invalid PDF: Invalid PDF file: Cannot read an empty file")].
Proof.
  intros i blank s.
  rewrite (invalid_upload_ends_the_run echo_backend bytewise_pdf _ i s
             (py "Invalid PDF file: Cannot read an empty file")
             {| data := []; pos := 0; closed := false |} eq_refl eq_refl).
  reflexivity.
Defined.

(** X20.  The check before the analysis.  In a run without upload, in a
    session state that says that a document has been processed and
    holds two engines of which one has no index, a click on "Analyze
    Document" with a query shows the statistics and then the error
    "Engines not properly initialized", and nothing else: no engine is
    queried, the backend is not asked and the clock is not read. *)
Theorem analysis_needs_ready_engines {Docs Index : Type}
    (B : backend Docs Index) (pypdf : pdf_library)
    (docstore_len : Index -> outcome Z) (i : widgets)
    (s : tracking (app Index)) (vector tree : engine Index) :
  has_upload i = false ->
  query_input i <> [] -> analyze_clicked i = true ->
  document_processed (session (rest s)) = true ->
  vector_engine (session (rest s)) = Some vector ->
  tree_engine (session (rest s)) = Some tree ->
  is_initialized vector = false \/ is_initialized tree = false ->
  main B pypdf docstore_len i s
  = (Return tt,
     and_shown (stats_shown docstore_len vector tree
                ++ [StError (py "Engines not properly initialized")]) s).
Proof.
  intros Hup Hq Hclick Hflag Hv Ht Hnot.
  destruct s as [d n a]. unfold and_shown. simpl in Hflag, Hv, Ht |- *.
  unfold main.
  rewrite (bind_returns _ _ _ _ _
             (in_app_returns _ d n a a true
                (sidebar_no_upload B pypdf i a Hup))).
  cbn [negb].
  rewrite (bind_returns get _ _ _ _ eq_refl). cbn [rest]. rewrite Hflag.
  rewrite (bind_returns _ _ _ _ _
             (in_app_returns _ d n a _ tt
                (performance_stats_run docstore_len vector tree a Hv Ht))).
  rewrite (bind_returns get _ _ _ _ eq_refl). cbn [rest session].
  rewrite Hflag. cbn [negb].
  assert (truthy (query_input i) = true) as ->
      by (destruct (query_input i); [ congruence | reflexivity ]).
  rewrite Hclick. cbn [andb].
  match goal with
  | |- bind _ _ {| dicts := d; allocated := n; rest := ?a' |} = _ =>
      rewrite (bind_returns _ _ _ _ _
                 (in_app_returns _ d n a' a' _
                    (engines_not_ready_run vector tree a' Hv Ht)))
  end.
  assert (negb (is_initialized vector) || negb (is_initialized tree) = true)
    as -> by (destruct Hnot as [-> | ->]; [ reflexivity | apply orb_true_r ]).
  unfold in_app, st, modify. simpl. rewrite <- app_assoc. reflexivity.
Qed.

(* --------------------------------------------------------------------- *)
(** ** [main]: the flag of the session state *)
(* --------------------------------------------------------------------- *)

Section MainFlag.

Context {Docs Index : Type} (B : backend Docs Index) (pypdf : pdf_library)
  (docstore_len : Index -> outcome Z).

(** Processing keeps every property of the session state that the
    assignments of the processing keep. *)
Lemma process_document_keeps (I : session_state Index -> Prop)
    (name : pystr) :
  (forall s text, I s ->
      I {| document_processed := document_processed s;
           vector_engine := vector_engine s; tree_engine := tree_engine s;
           document_text := text |}) ->
  (forall v e s, I s -> I (set_engine_slot Index v e s)) ->
  (forall s, I s ->
      I {| document_processed := true;
           vector_engine := vector_engine s; tree_engine := tree_engine s;
           document_text := document_text s |}) ->
  hoare (on_session I) (process_document B pypdf name)
    (fun _ => on_session I) (fun _ _ => False).
Proof.
  intros Htext Hslot Hflag. unfold process_document.
  apply (hoare_try_except _ _ _ _ (fun _ => on_session I));
    [ | intros e; apply hoare_show_twice ].
  assert (forall (A : Type) v method_name (method : M (world Index) A),
             hoare (on_session I)
               (call_engine Index v method_name method)
               (fun _ => on_session I) (fun _ => on_session I)) as Hcall.
  { intros A v method_name method.
    apply (hoare_call_engine I v method_name method (fun _ => I)
             (fun _ => I)).
    - intros s Hs _. exact Hs.
    - intros s e w r w' Hs _ _ _. destruct r; apply Hslot, Hs. }
  eapply hoare_bind; [ apply hoare_on_upload | intros text_content ].
  eapply hoare_bind;
    [ apply (hoare_set_session I I); intros s Hs; apply Htext, Hs
    | intros ? ].
  eapply hoare_bind; [ apply hoare_construct | intros new_vector ].
  eapply hoare_bind;
    [ apply (hoare_set_session I I); intros s Hs; apply Hslot, Hs
    | intros ? ].
  eapply hoare_bind; [ apply hoare_construct | intros new_tree ].
  eapply hoare_bind;
    [ apply (hoare_set_session I I); intros s Hs; apply Hslot, Hs
    | intros ? ].
  eapply hoare_bind; [ apply Hcall | intros vector_build_time ].
  eapply hoare_bind; [ apply hoare_st | intros ? ].
  eapply hoare_bind; [ apply Hcall | intros tree_build_time ].
  eapply hoare_bind; [ apply hoare_st | intros ? ].
  eapply hoare_bind;
    [ apply (hoare_set_session I I); intros s Hs; apply Hflag, Hs
    | intros ? ].
  apply hoare_st.
Qed.

Lemma main_keeps_flag (i : widgets) :
  hoare (on_app (on_session
                   (fun s => document_processed s = true
                             /\ is_Some (vector_engine s)
                             /\ is_Some (tree_engine s))))
    (main B pypdf docstore_len i)
    (fun _ => on_app (on_session
                        (fun s => document_processed s = true
                                  /\ is_Some (vector_engine s)
                                  /\ is_Some (tree_engine s))))
    (fun _ _ => False).
Proof.
  set (I := fun s : session_state Index =>
              document_processed s = true
              /\ is_Some (vector_engine s) /\ is_Some (tree_engine s)).
  unfold main.
  eapply hoare_bind.
  { apply hoare_in_app_returns.
    instantiate (1 := fun _ => on_session I).
    unfold sidebar_upload. destruct (has_upload i).
    - eapply hoare_bind; [ apply (hoare_validate pypdf I) | intros validity ].
      destruct (negb validity.1).
      + eapply hoare_bind; [ apply hoare_st | intros ? ].
        apply hoare_ret. intros s Hs. exact Hs.
      + eapply hoare_bind;
          [ | intros ?; apply hoare_ret; intros s Hs; exact Hs ].
        destruct (process_clicked i).
        * apply process_document_keeps.
          -- intros s text Hs. exact Hs.
          -- intros v e s (Hf & Hv & Ht). destruct v; repeat split; eauto.
          -- intros s (Hf & Hv & Ht). repeat split; assumption.
        * apply hoare_ret. intros s Hs. exact Hs.
    - apply hoare_ret. intros s Hs. exact Hs. }
  intros goes_on. destruct (negb goes_on).
  - apply hoare_ret. intros s Hs. exact Hs.
  - apply (main_after_upload B docstore_len I i).
    intros s (_ & Hv & Ht) _. split; assumption.
Qed.

End MainFlag.

(** X21.  [main] never takes back that a document has been processed.
    In a session state that says so and holds both engines, every run
    returns and leaves a session state that says so and holds two
    engines, whatever fails in the run: a processing that raises after
    it has replaced the engines leaves the flag set over engines
    without an index. *)
Theorem document_processed_is_never_reset {Docs Index : Type}
    (B : backend Docs Index) (pypdf : pdf_library)
    (docstore_len : Index -> outcome Z) (i : widgets)
    (s : tracking (app Index)) :
  document_processed (session (rest s)) = true ->
  is_Some (vector_engine (session (rest s))) ->
  is_Some (tree_engine (session (rest s))) ->
  exists s',
    main B pypdf docstore_len i s = (Return tt, s')
    /\ document_processed (session (rest s')) = true
    /\ is_Some (vector_engine (session (rest s')))
    /\ is_Some (tree_engine (session (rest s'))).
Proof.
  intros Hf Hv Ht.
  destruct (hoare_returns _ _ _ s (main_keeps_flag B pypdf docstore_len i)
              (conj Hf (conj Hv Ht)))
    as ([] & s' & Hrun & Hs').
  exists s'. split; [ exact Hrun | exact Hs' ].
Qed.

(** X21, witness: over a backend that builds two indexes and refuses the
    third, a document is processed, and then processed again from a new
    upload.  The second processing raises when it builds the Vector
    index; the session state still says that a document has been
    processed, and holds a Vector engine without an index. *)
Lemma document_processed_is_never_reset_witness :
  let docstore_len := fun idx : list pystr => Return (Z.of_nat (length idx)) in
  let s1 := (main quota_backend bytewise_pdf docstore_len process_widgets
               (initial_app five_bytes)).2 in
  let s2 := (main quota_backend bytewise_pdf docstore_len process_widgets
               (with_upload five_bytes s1)).2 in
  document_processed (session (rest s2)) = true
  /\ exists vector,
      vector_engine (session (rest s2)) = Some vector
      /\ is_initialized vector = false.
Proof.
  intros docstore_len s1 s2.
  destruct (document_processed_is_never_reset quota_backend bytewise_pdf
              docstore_len process_widgets (with_upload five_bytes s1))
    as (s' & Hrun & Hflag & _).
  - vm_compute. reflexivity.
  - eexists. vm_compute. reflexivity.
  - eexists. vm_compute. reflexivity.
  - assert (s' = s2) as -> by (unfold s2; rewrite Hrun; reflexivity).
    split; [ exact Hflag | ].
    eexists. split; vm_compute; reflexivity.
Defined.

(** X18, witness: the first processing of that run: the session state
    says that a document has been processed, and the engines are
    initialized. *)
Lemma processed_means_ready_witness :
  let docstore_len := fun idx : list pystr => Return (Z.of_nat (length idx)) in
  let s1 := (main quota_backend bytewise_pdf docstore_len process_widgets
               (initial_app five_bytes)).2 in
  document_processed (session (rest s1)) = true
  /\ engines_ready (session (rest s1)).
Proof.
  intros docstore_len s1.
  destruct (processed_means_ready quota_backend bytewise_pdf docstore_len
              process_widgets (initial_app five_bytes) eq_refl)
    as (s' & Hrun & Hready).
  assert (s' = s1) as -> by (unfold s1; rewrite Hrun; reflexivity).
  assert (document_processed (session (rest s1)) = true) as Hflag
      by (vm_compute; reflexivity).
  split; [ exact Hflag | exact (proj1 (Hready Hflag)) ].
Defined.

(** X20, witness: the run after the two above, without upload, in which
    the query "What?" is analyzed: the statistics of the two new engines
    and the error are shown, and nothing else happens. *)
Lemma analysis_needs_ready_engines_witness :
  let docstore_len := fun idx : list pystr => Return (Z.of_nat (length idx)) in
  let s1 := (main quota_backend bytewise_pdf docstore_len process_widgets
               (initial_app five_bytes)).2 in
  let s2 := (main quota_backend bytewise_pdf docstore_len process_widgets
               (with_upload five_bytes s1)).2 in
  exists vector tree,
    main quota_backend bytewise_pdf docstore_len analyze_widgets s2
    = (Return tt,
       and_shown (stats_shown docstore_len vector tree
                  ++ [StError (py "Engines not properly initialized")]) s2).
Proof.
  intros docstore_len s1 s2.
  assert (exists vector tree,
             vector_engine (session (rest s2)) = Some vector
             /\ tree_engine (session (rest s2)) = Some tree
             /\ is_initialized vector = false)
    as (vector & tree & Hv & Ht & Hnot).
  { do 2 eexists. split; [ | split ]; vm_compute; reflexivity. }
  assert (document_processed (session (rest s2)) = true) as Hflag
      by (vm_compute; reflexivity).
  exists vector, tree.
  exact (analysis_needs_ready_engines quota_backend bytewise_pdf
           docstore_len analyze_widgets s2 vector tree eq_refl
           ltac:(discriminate) eq_refl Hflag Hv Ht (or_introl Hnot)).
Defined.

(* --------------------------------------------------------------------- *)
(** ** [main]: the analysis *)
(* --------------------------------------------------------------------- *)

Lemma bind_raises {S A C : Type} (m : M S A) (k : A -> M S C) s e s1 :
  m s = (Raise e, s1) -> bind m k s = (Raise e, s1).
Proof. intros H. unfold bind. rewrite H. reflexivity. Qed.

Section Analysis.

Context {Docs Index : Type} (B : backend Docs Index) (pypdf : pdf_library)
  (docstore_len : Index -> outcome Z).

(** A query of the engine of the session state. *)
Lemma call_engine_query_run (v : variant) (query_text : pystr)
    (e : engine Index) (idx : Index) (a : app Index) :
  engine_slot v (session a) = Some e -> index e = Some idx ->
  call_engine Index v (py "query") (query B v query_text) a
  = match run_query Docs Index B (app_log a) v idx query_text with
    | Return resp =>
        (Return (result_at B resp (app_ticks a)),
         and_asked 3 [query_event v query_text] [] a)
    | Raise err =>
        (Raise (py "Query failed: " ++ err),
         and_asked 1 [query_event v query_text] [] a)
    end.
Proof.
  intros Hslot Hidx. unfold call_engine. rewrite Hslot.
  rewrite (query_run B v query_text (world_of Index e a) idx Hidx).
  cbn [log ticks self fs settings world_of].
  destruct (run_query Docs Index B (app_log a) v idx query_text);
    unfold and_asked, with_world, set_session, result_at, query_event;
    cbn [log ticks self fs settings session uploaded_file app_fs
         app_settings app_ticks app_log shown Nat.add];
    rewrite (set_engine_slot_same v e (session a) Hslot), app_nil_r;
    reflexivity.
Qed.

(** A timed query of the engine of the session state. *)
Lemma tracked_query_run (tracker : PerformanceTracker) (name : pystr)
    (v : variant) (query_text : pystr) (e : engine Index) (idx : Index)
    d n (a : app Index) :
  engine_slot v (session a) = Some e -> index e = Some idx ->
  track_time (app_time Docs Index B) tracker name
    (in_app Index (call_engine Index v (py "query") (query B v query_text)))
    {| dicts := d; allocated := n; rest := a |}
  = match run_query Docs Index B (app_log a) v idx query_text with
    | Return resp =>
        (Return (result_at B resp (S (app_ticks a))),
         {| dicts := fun i =>
              if (i =? metrics tracker)%nat
              then <[ name := Float.sub
                                (clock Docs Index B (4 + app_ticks a))
                                (clock Docs Index B (app_ticks a)) ]> (d i)
              else d i;
            allocated := n;
            rest := and_asked 5 [query_event v query_text] [] a |})
    | Raise err =>
        (Raise (py "Query failed: " ++ err),
         {| dicts := fun i =>
              if (i =? metrics tracker)%nat
              then <[ name := Float.sub
                                (clock Docs Index B (2 + app_ticks a))
                                (clock Docs Index B (app_ticks a)) ]> (d i)
              else d i;
            allocated := n;
            rest := and_asked 3 [query_event v query_text] [] a |})
    end.
Proof.
  intros Hslot Hidx. rewrite track_time_run. cbv zeta.
  unfold in_app. cbn [rest dicts allocated].
  set (a1 := (app_time Docs Index B a).2).
  assert (engine_slot v (session a1) = Some e) as Hslot1 by exact Hslot.
  rewrite (call_engine_query_run v query_text e idx a1 Hslot1 Hidx).
  change (app_log a1) with (app_log a).
  destruct (run_query Docs Index B (app_log a) v idx query_text);
    unfold and_asked, app_time; subst a1;
    cbn [fst snd rest dicts allocated session uploaded_file app_fs
         app_settings app_ticks app_log shown Nat.add app_time];
    rewrite <- ?app_assoc; reflexivity.
Qed.

(** The handler of the analysis. *)
Lemma analysis_handler_run (e : pystr) d n (a : app Index) :
  bind (in_app Index
          (st (StError ([10060%N] ++ py " Error during analysis: " ++ e))))
       (fun _ => in_app Index (st (LoggerError (py "Analysis error: " ++ e))))
       {| dicts := d; allocated := n; rest := a |}
  = (Return tt,
     {| dicts := d; allocated := n;
        rest := and_asked 0 [] (analysis_error_shown e) a |}).
Proof.
  unfold bind, in_app, st, modify, and_asked, analysis_error_shown.
  cbn [rest dicts allocated session uploaded_file app_fs app_settings
       app_ticks app_log shown Nat.add].
  rewrite <- app_assoc, app_nil_r. reflexivity.
Qed.

Lemma and_asked_and_asked n m l1 l2 ev1 ev2 (a : app Index) :
  and_asked n l1 ev1 (and_asked m l2 ev2 a)
  = and_asked (n + m) (l2 ++ l1) (ev2 ++ ev1) a.
Proof.
  unfold and_asked.
  cbn [session uploaded_file app_fs app_settings app_ticks app_log shown].
  rewrite <- !app_assoc, Nat.add_assoc. reflexivity.
Qed.

(** The run of [main] up to the analysis: without upload, with a
    processed document and two initialized engines, a click on "Analyze
    Document" with a query shows the statistics and starts the
    analysis. *)
Lemma main_reaches_analyze (i : widgets) (s : tracking (app Index))
    (vector tree : engine Index) :
  has_upload i = false ->
  query_input i <> [] -> analyze_clicked i = true ->
  document_processed (session (rest s)) = true ->
  vector_engine (session (rest s)) = Some vector ->
  tree_engine (session (rest s)) = Some tree ->
  is_initialized vector = true -> is_initialized tree = true ->
  main B pypdf docstore_len i s
  = analyze B (query_input i) (show_trace i)
      (and_shown (stats_shown docstore_len vector tree) s).
Proof.
  intros Hup Hq Hclick Hflag Hv Ht Hvi Hti.
  destruct s as [d n a]. unfold and_shown. simpl in Hflag, Hv, Ht |- *.
  unfold main.
  rewrite (bind_returns _ _ _ _ _
             (in_app_returns _ d n a a true
                (sidebar_no_upload B pypdf i a Hup))).
  cbn [negb].
  rewrite (bind_returns get _ _ _ _ eq_refl). cbn [rest]. rewrite Hflag.
  rewrite (bind_returns _ _ _ _ _
             (in_app_returns _ d n a _ tt
                (performance_stats_run docstore_len vector tree a Hv Ht))).
  rewrite (bind_returns get _ _ _ _ eq_refl). cbn [rest session].
  rewrite Hflag. cbn [negb].
  assert (truthy (query_input i) = true) as ->
      by (destruct (query_input i); [ congruence | reflexivity ]).
  rewrite Hclick. cbn [andb].
  match goal with
  | |- bind _ _ {| dicts := d; allocated := n; rest := ?a' |} = _ =>
      rewrite (bind_returns _ _ _ _ _
                 (in_app_returns _ d n a' a' _
                    (engines_not_ready_run vector tree a' Hv Ht)))
  end.
  rewrite Hvi, Hti. reflexivity.
Qed.

(** The analysis when the Vector query fails. *)
Lemma analyze_vector_fails (query_text : pystr) (trace : bool) d n
    (a : app Index) (vector : engine Index) (vidx : Index) (err : pystr) :
  vector_engine (session a) = Some vector -> index vector = Some vidx ->
  run_query Docs Index B (app_log a) Vector vidx query_text = Raise err ->
  exists s',
    analyze B query_text trace {| dicts := d; allocated := n; rest := a |}
    = (Return tt, s')
    /\ rest s'
       = and_asked 3 [query_event Vector query_text]
           (analysis_error_shown (py "Query failed: " ++ err)) a.
Proof.
  intros Hv Hvi Hrun. unfold analyze, try_except.
  rewrite (bind_returns tracker_init _ _ _ _ eq_refl).
  pose proof (tracked_query_run {| metrics := n |} (py "vector_query")
                Vector query_text vector vidx
                (fun i => if (i =? n)%nat then ∅ else d i) (S n) a Hv Hvi)
    as Htrack.
  rewrite Hrun in Htrack.
  rewrite (bind_raises _ _ _ _ _ Htrack).
  rewrite analysis_handler_run. eexists. split; [ reflexivity | ].
  cbn [rest]. rewrite and_asked_and_asked. reflexivity.
Qed.

(** The analysis when the Vector query is answered and the Tree query
    fails. *)
Lemma analyze_tree_fails (query_text : pystr) (trace : bool) d n
    (a : app Index) (vector tree : engine Index) (vidx tidx : Index)
    (vresp : Response) (err : pystr) :
  vector_engine (session a) = Some vector -> index vector = Some vidx ->
  tree_engine (session a) = Some tree -> index tree = Some tidx ->
  run_query Docs Index B (app_log a) Vector vidx query_text = Return vresp ->
  run_query Docs Index B (app_log a ++ [query_event Vector query_text])
    Tree tidx query_text = Raise err ->
  exists s',
    analyze B query_text trace {| dicts := d; allocated := n; rest := a |}
    = (Return tt, s')
    /\ rest s'
       = and_asked 8 [query_event Vector query_text;
                      query_event Tree query_text]
           (analysis_error_shown (py "Query failed: " ++ err)) a.
Proof.
  intros Hv Hvi Ht Hti Hvrun Htrun. unfold analyze, try_except.
  rewrite (bind_returns tracker_init _ _ _ _ eq_refl).
  pose proof (tracked_query_run {| metrics := n |} (py "vector_query")
                Vector query_text vector vidx
                (fun i => if (i =? n)%nat then ∅ else d i) (S n) a Hv Hvi)
    as Htrack.
  rewrite Hvrun in Htrack.
  rewrite (bind_returns _ _ _ _ _ Htrack). clear Htrack.
  match goal with
  | |- context [ {| dicts := ?d1; allocated := S n; rest := ?a1 |} ] =>
      pose proof (tracked_query_run {| metrics := n |} (py "tree_query")
                    Tree query_text tree tidx d1 (S n) a1 Ht Hti) as Htrack
  end.
  change (app_log (and_asked 5 [query_event Vector query_text] [] a))
    with (app_log a ++ [query_event Vector query_text]) in Htrack.
  rewrite Htrun in Htrack.
  rewrite (bind_raises _ _ _ _ _ Htrack).
  rewrite analysis_handler_run. eexists. split; [ reflexivity | ].
  cbn [rest]. rewrite !and_asked_and_asked. reflexivity.
Qed.

Lemma lift_returns {S A : Type} (o : outcome A) (x : A) (s : S) :
  o = Return x -> lift o s = (Return x, s).
Proof. intros ->. reflexivity. Qed.

(** What is shown of a result whose execution time is rendered. *)
Lemma show_result_run (result : QueryResult) (trace : bool)
    (sources_key response_time : pystr) (a : app Index) :
  format_time (execution_time result) = Return response_time ->
  show_result Index result trace sources_key a
  = (Return tt,
     and_asked 0 [] (result_shown result trace response_time sources_key) a).
Proof.
  intros Hf. unfold show_result.
  rewrite (bind_returns _ _ _ _ _ (lift_returns _ _ a Hf)).
  unfold bind, st, modify, ret, and_asked, result_shown.
  cbn [session uploaded_file app_fs app_settings app_ticks app_log shown
       Nat.add].
  destruct trace;
    cbn [session uploaded_file app_fs app_settings app_ticks app_log shown];
    rewrite <- ?app_assoc, ?app_nil_r; reflexivity.
Qed.

Lemma in_app_st_run (ev : shown_event) d n (a : app Index) :
  in_app Index (st ev) {| dicts := d; allocated := n; rest := a |}
  = (Return tt,
     {| dicts := d; allocated := n; rest := and_asked 0 [] [ev] a |}).
Proof.
  unfold in_app, st, modify, and_asked.
  cbn [rest session uploaded_file app_fs app_settings app_ticks app_log shown
       Nat.add].
  rewrite app_nil_r. reflexivity.
Qed.

(** The execution time of a result taken between two readings that
    measure. *)
Lemma result_at_duration (resp : Response) (t : nat) :
  measures B t -> duration (execution_time (result_at B resp t)).
Proof.
  intros (Hs & He & Hle). apply elapsed_duration; assumption.
Qed.

Lemma duration_formatted (x : float) :
  duration x -> exists t, format_time x = Return t.
Proof.
  intros (Hf & Hfin & _). apply format_time_finite_returns; assumption.
Qed.

(** The analysis when both queries are answered. *)
Lemma analyze_succeeds (query_text : pystr) (trace : bool) d n
    (a : app Index) (vector tree : engine Index) (vidx tidx : Index)
    (vresp tresp : Response) :
  vector_engine (session a) = Some vector -> index vector = Some vidx ->
  tree_engine (session a) = Some tree -> index tree = Some tidx ->
  run_query Docs Index B (app_log a) Vector vidx query_text = Return vresp ->
  run_query Docs Index B (app_log a ++ [query_event Vector query_text])
    Tree tidx query_text = Return tresp ->
  measures B (1 + app_ticks a) -> measures B (6 + app_ticks a) ->
  let vector_result := result_at B vresp (1 + app_ticks a) in
  let tree_result := result_at B tresp (6 + app_ticks a) in
  exists s' vector_time tree_time difference,
    analyze B query_text trace {| dicts := d; allocated := n; rest := a |}
    = (Return tt, s')
    /\ format_time (execution_time vector_result) = Return vector_time
    /\ format_time (execution_time tree_result) = Return tree_time
    /\ format_time (time_diff vector_result tree_result) = Return difference
    /\ rest s'
       = and_asked 10 [query_event Vector query_text;
                       query_event Tree query_text]
           (analysis_shown vector_result tree_result trace
              vector_time tree_time difference) a.
Proof.
  intros Hv Hvi Ht Hti Hvrun Htrun Hmv Hmt vector_result tree_result.
  pose proof (result_at_duration vresp _ Hmv) as Hdv.
  pose proof (result_at_duration tresp _ Hmt) as Hdt.
  fold vector_result in Hdv. fold tree_result in Hdt.
  destruct (duration_formatted _ Hdv) as [vector_time Hfv].
  destruct (duration_formatted _ Hdt) as [tree_time Hft].
  destruct (duration_formatted _ (abs_sub_duration _ _ Hdv Hdt))
    as [difference Hfd].
  fold (time_diff vector_result tree_result) in Hfd.
  unfold analyze, try_except.
  rewrite (bind_returns tracker_init _ _ _ _ eq_refl).
  pose proof (tracked_query_run {| metrics := n |} (py "vector_query")
                Vector query_text vector vidx
                (fun i => if (i =? n)%nat then ∅ else d i) (S n) a Hv Hvi)
    as Htrack.
  rewrite Hvrun in Htrack.
  rewrite (bind_returns _ _ _ _ _ Htrack). clear Htrack.
  match goal with
  | |- context [ {| dicts := ?d1; allocated := S n; rest := ?a1 |} ] =>
      pose proof (tracked_query_run {| metrics := n |} (py "tree_query")
                    Tree query_text tree tidx d1 (S n) a1 Ht Hti) as Htrack
  end.
  change (app_log (and_asked 5 [query_event Vector query_text] [] a))
    with (app_log a ++ [query_event Vector query_text]) in Htrack.
  rewrite Htrun in Htrack.
  rewrite (bind_returns _ _ _ _ _ Htrack). clear Htrack.
  change (result_at B vresp (S (app_ticks a))) with vector_result.
  change (result_at B tresp
            (S (app_ticks (and_asked 5 [query_event Vector query_text] [] a))))
    with tree_result.
  rewrite (bind_returns _ _ _ _ _
             (in_app_returns _ _ _ _ _ tt
                (show_result_run vector_result trace (py "vector_sources")
                   vector_time _ Hfv))).
  rewrite (bind_returns _ _ _ _ _
             (in_app_returns _ _ _ _ _ tt
                (show_result_run tree_result trace (py "tree_sources")
                   tree_time _ Hft))).
  rewrite (bind_returns _ _ _ _ _ (lift_returns _ _ _ Hfv)).
  rewrite (bind_returns _ _ _ _ _ (in_app_st_run _ _ _ _)).
  rewrite (bind_returns _ _ _ _ _ (lift_returns _ _ _ Hft)).
  rewrite (bind_returns _ _ _ _ _ (in_app_st_run _ _ _ _)).
  rewrite (bind_returns _ _ _ _ _ (lift_returns _ _ _ Hfd)).
  rewrite (bind_returns _ _ _ _ _ (in_app_st_run _ _ _ _)).
  rewrite in_app_st_run.
  eexists. exists vector_time, tree_time, difference.
  split; [ reflexivity | ]. split; [ exact Hfv | ]. split; [ exact Hft | ].
  split; [ exact Hfd | ].
  cbn [rest]. rewrite !and_asked_and_asked. unfold analysis_shown.
  cbn [List.app Nat.add]. rewrite <- ?app_assoc. reflexivity.
Qed.

Lemma and_asked_after_shown n asked events more
    (s : tracking (app Index)) :
  and_asked n asked more (rest (and_shown events s))
  = and_asked n asked (events ++ more) (rest s).
Proof.
  unfold and_asked, and_shown.
  cbn [rest session uploaded_file app_fs app_settings app_ticks app_log
       shown].
  rewrite <- app_assoc. reflexivity.
Qed.

Lemma index_is_initialized (e : engine Index) (idx : Index) :
  index e = Some idx -> is_initialized e = true.
Proof. intros H. unfold is_initialized. rewrite H. reflexivity. Qed.

End Analysis.

(** X22.  A failed Vector query ends the analysis.  In a run without
    upload, with a processed document and two engines that have an
    index, let "Analyze Document" be clicked with a query, and let the
    backend refuse the query of the Vector engine with the exception
    [err].  Then [main] returns; after the statistics it shows the error
    "Error during analysis: Query failed: " with [err] and logs
    "Analysis error: Query failed: " with [err], and nothing else.  The
    backend has been asked the Vector query only: the Tree engine is not
    queried.  The clock has been read three times, and the session
    state, the files and the settings are as they were. *)
Theorem failed_vector_query_ends_the_analysis {Docs Index : Type}
    (B : backend Docs Index) (pypdf : pdf_library)
    (docstore_len : Index -> outcome Z) (i : widgets)
    (s : tracking (app Index)) (vector tree : engine Index)
    (vidx tidx : Index) (err : pystr) :
  has_upload i = false ->
  query_input i <> [] -> analyze_clicked i = true ->
  document_processed (session (rest s)) = true ->
  vector_engine (session (rest s)) = Some vector ->
  tree_engine (session (rest s)) = Some tree ->
  index vector = Some vidx -> index tree = Some tidx ->
  run_query Docs Index B (app_log (rest s)) Vector vidx (query_input i)
  = Raise err ->
  exists s',
    main B pypdf docstore_len i s = (Return tt, s')
    /\ rest s'
       = and_asked 3 [query_event Vector (query_input i)]
           (stats_shown docstore_len vector tree
            ++ analysis_error_shown (py "Query failed: " ++ err))
           (rest s).
Proof.
  intros Hup Hq Hclick Hflag Hv Ht Hvi Hti Hrun.
  rewrite (main_reaches_analyze B pypdf docstore_len i s vector tree
             Hup Hq Hclick Hflag Hv Ht
             (index_is_initialized _ _ Hvi) (index_is_initialized _ _ Hti)).
  rewrite <- and_asked_after_shown.
  destruct s as [d n a].
  apply (analyze_vector_fails B (query_input i) (show_trace i) d n
           (rest (and_shown (stats_shown docstore_len vector tree)
                    {| dicts := d; allocated := n; rest := a |}))
           vector vidx err Hv Hvi Hrun).
Qed.

(** X22, witness: a document is processed over a backend whose model
    server answers no query, and then the query "What?" is analyzed. *)
Lemma failed_vector_query_ends_the_analysis_witness :
  let docstore_len := fun idx : list pystr => Return (Z.of_nat (length idx)) in
  let B := down_backend (fun _ => true) in
  let s1 := (main B bytewise_pdf docstore_len process_widgets
               (initial_app five_bytes)).2 in
  exists vector tree s',
    main B bytewise_pdf docstore_len analyze_widgets s1 = (Return tt, s')
    /\ rest s'
       = and_asked 3 [query_event Vector (query_input analyze_widgets)]
           (stats_shown docstore_len vector tree
            ++ analysis_error_shown
                 (py "Query failed: " ++ py "Connection refused"))
           (rest s1).
Proof.
  intros docstore_len B s1.
  assert (exists vector tree vidx tidx,
             vector_engine (session (rest s1)) = Some vector
             /\ tree_engine (session (rest s1)) = Some tree
             /\ index vector = Some vidx /\ index tree = Some tidx)
    as (vector & tree & vidx & tidx & Hv & Ht & Hvi & Hti).
  { do 4 eexists. split; [ | split; [ | split ] ]; vm_compute; reflexivity. }
  assert (document_processed (session (rest s1)) = true) as Hflag
      by (vm_compute; reflexivity).
  exists vector, tree.
  exact (failed_vector_query_ends_the_analysis B bytewise_pdf docstore_len
           analyze_widgets s1 vector tree vidx tidx (py "Connection refused")
           eq_refl ltac:(discriminate) eq_refl Hflag Hv Ht Hvi Hti eq_refl).
Defined.

(** X23.  A failed Tree query discards the Vector answer.  In a run as
    above, let the backend answer the query of the Vector engine and
    then refuse the query of the Tree engine with the exception [err].
    Then [main] returns; after the statistics it shows and logs the
    error with "Query failed: " and [err], and nothing else: nothing of
    the Vector answer is shown.  The backend has been asked the Vector
    query and then the Tree query, the clock has been read eight times,
    and the session state, the files and the settings are as they
    were. *)
Theorem failed_tree_query_discards_the_vector_answer {Docs Index : Type}
    (B : backend Docs Index) (pypdf : pdf_library)
    (docstore_len : Index -> outcome Z) (i : widgets)
    (s : tracking (app Index)) (vector tree : engine Index)
    (vidx tidx : Index) (vresp : Response) (err : pystr) :
  has_upload i = false ->
  query_input i <> [] -> analyze_clicked i = true ->
  document_processed (session (rest s)) = true ->
  vector_engine (session (rest s)) = Some vector ->
  tree_engine (session (rest s)) = Some tree ->
  index vector = Some vidx -> index tree = Some tidx ->
  run_query Docs Index B (app_log (rest s)) Vector vidx (query_input i)
  = Return vresp ->
  run_query Docs Index B
    (app_log (rest s) ++ [query_event Vector (query_input i)])
    Tree tidx (query_input i)
  = Raise err ->
  exists s',
    main B pypdf docstore_len i s = (Return tt, s')
    /\ rest s'
       = and_asked 8 [query_event Vector (query_input i);
                      query_event Tree (query_input i)]
           (stats_shown docstore_len vector tree
            ++ analysis_error_shown (py "Query failed: " ++ err))
           (rest s).
Proof.
  intros Hup Hq Hclick Hflag Hv Ht Hvi Hti Hvrun Htrun.
  rewrite (main_reaches_analyze B pypdf docstore_len i s vector tree
             Hup Hq Hclick Hflag Hv Ht
             (index_is_initialized _ _ Hvi) (index_is_initialized _ _ Hti)).
  rewrite <- and_asked_after_shown.
  destruct s as [d n a].
  apply (analyze_tree_fails B (query_input i) (show_trace i) d n
           (rest (and_shown (stats_shown docstore_len vector tree)
                    {| dicts := d; allocated := n; rest := a |}))
           vector tree vidx tidx vresp err Hv Hvi Ht Hti Hvrun Htrun).
Qed.

(** X23, witness: the same two runs over a backend whose model server
    answers the queries of the Vector engine only. *)
Lemma failed_tree_query_discards_the_vector_answer_witness :
  let docstore_len := fun idx : list pystr => Return (Z.of_nat (length idx)) in
  let B := down_backend (fun v => match v with
                                  | Vector => false | Tree => true
                                  end) in
  let s1 := (main B bytewise_pdf docstore_len process_widgets
               (initial_app five_bytes)).2 in
  exists vector tree s',
    main B bytewise_pdf docstore_len analyze_widgets s1 = (Return tt, s')
    /\ rest s'
       = and_asked 8 [query_event Vector (query_input analyze_widgets);
                      query_event Tree (query_input analyze_widgets)]
           (stats_shown docstore_len vector tree
            ++ analysis_error_shown
                 (py "Query failed: " ++ py "Connection refused"))
           (rest s1).
Proof.
  intros docstore_len B s1.
  assert (exists vector tree vidx tidx,
             vector_engine (session (rest s1)) = Some vector
             /\ tree_engine (session (rest s1)) = Some tree
             /\ index vector = Some vidx /\ index tree = Some tidx)
    as (vector & tree & vidx & tidx & Hv & Ht & Hvi & Hti).
  { do 4 eexists. split; [ | split; [ | split ] ]; vm_compute; reflexivity. }
  assert (document_processed (session (rest s1)) = true) as Hflag
      by (vm_compute; reflexivity).
  exists vector, tree.
  exact (failed_tree_query_discards_the_vector_answer B bytewise_pdf
           docstore_len analyze_widgets s1 vector tree vidx tidx
           {| response_str := py "What?";
              response_source_nodes := Some (map NodeWithText vidx) |}
           (py "Connection refused")
           eq_refl ltac:(discriminate) eq_refl Hflag Hv Ht Hvi Hti
           eq_refl eq_refl).
Defined.

(** X24.  An analysis that succeeds.  In a run as above, let the backend
    answer the query of the Vector engine and then that of the Tree
    engine, and let the two clock readings around each backend call be
    finite floats that are not negative, the second not before the
    first.  Then [main] returns and no error is shown: [format_time]
    renders the two execution times and their difference, and after the
    statistics the run shows, of the Vector result and then of the Tree
    result, the response time, the response and (with the trace toggle)
    the sources, then the three metrics of the comparison with the name
    of the faster engine, and the key differences.  The backend has been
    asked the Vector query and then the Tree query, the clock has been
    read ten times, and the session state, the files and the settings
    are as they were. *)
Theorem analysis_shows_both_results {Docs Index : Type}
    (B : backend Docs Index) (pypdf : pdf_library)
    (docstore_len : Index -> outcome Z) (i : widgets)
    (s : tracking (app Index)) (vector tree : engine Index)
    (vidx tidx : Index) (vresp tresp : Response) :
  has_upload i = false ->
  query_input i <> [] -> analyze_clicked i = true ->
  document_processed (session (rest s)) = true ->
  vector_engine (session (rest s)) = Some vector ->
  tree_engine (session (rest s)) = Some tree ->
  index vector = Some vidx -> index tree = Some tidx ->
  run_query Docs Index B (app_log (rest s)) Vector vidx (query_input i)
  = Return vresp ->
  run_query Docs Index B
    (app_log (rest s) ++ [query_event Vector (query_input i)])
    Tree tidx (query_input i)
  = Return tresp ->
  measures B (1 + app_ticks (rest s)) ->
  measures B (6 + app_ticks (rest s)) ->
  let vector_result := result_at B vresp (1 + app_ticks (rest s)) in
  let tree_result := result_at B tresp (6 + app_ticks (rest s)) in
  exists s' vector_time tree_time difference,
    main B pypdf docstore_len i s = (Return tt, s')
    /\ format_time (execution_time vector_result) = Return vector_time
    /\ format_time (execution_time tree_result) = Return tree_time
    /\ format_time (time_diff vector_result tree_result) = Return difference
    /\ rest s'
       = and_asked 10 [query_event Vector (query_input i);
                       query_event Tree (query_input i)]
           (stats_shown docstore_len vector tree
            ++ analysis_shown vector_result tree_result (show_trace i)
                 vector_time tree_time difference)
           (rest s).
Proof.
  intros Hup Hq Hclick Hflag Hv Ht Hvi Hti Hvrun Htrun Hmv Hmt
    vector_result tree_result.
  rewrite (main_reaches_analyze B pypdf docstore_len i s vector tree
             Hup Hq Hclick Hflag Hv Ht
             (index_is_initialized _ _ Hvi) (index_is_initialized _ _ Hti)).
  destruct s as [d n a].
  destruct (analyze_succeeds B (query_input i) (show_trace i) d n
              (rest (and_shown (stats_shown docstore_len vector tree)
                       {| dicts := d; allocated := n; rest := a |}))
              vector tree vidx tidx vresp tresp Hv Hvi Ht Hti Hvrun Htrun
              Hmv Hmt)
    as (s' & vector_time & tree_time & difference
        & Hrun & Hfv & Hft & Hfd & Hrest).
  exists s', vector_time, tree_time, difference.
  split; [ exact Hrun | ]. split; [ exact Hfv | ]. split; [ exact Hft | ].
  split; [ exact Hfd | ].
  rewrite Hrest. apply and_asked_after_shown.
Qed.

(** X24, witness: a document is processed over the echo backend, whose
    clock counts the seconds, and then the query "What?" is analyzed
    with the trace toggle on. *)
Lemma analysis_shows_both_results_witness :
  let docstore_len := fun idx : list pystr => Return (Z.of_nat (length idx)) in
  let s1 := (main echo_backend bytewise_pdf docstore_len process_widgets
               (initial_app five_bytes)).2 in
  exists s' events,
    main echo_backend bytewise_pdf docstore_len analyze_widgets s1
    = (Return tt, s')
    /\ rest s'
       = and_asked 10 [query_event Vector (query_input analyze_widgets);
                       query_event Tree (query_input analyze_widgets)]
           events (rest s1).
Proof.
  intros docstore_len s1.
  assert (exists vector tree vidx tidx,
             vector_engine (session (rest s1)) = Some vector
             /\ tree_engine (session (rest s1)) = Some tree
             /\ index vector = Some vidx /\ index tree = Some tidx)
    as (vector & tree & vidx & tidx & Hv & Ht & Hvi & Hti).
  { do 4 eexists. split; [ | split; [ | split ] ]; vm_compute; reflexivity. }
  assert (document_processed (session (rest s1)) = true) as Hflag
      by (vm_compute; reflexivity).
  assert (measures echo_backend (1 + app_ticks (rest s1))) as Hmv
      by (unfold measures, duration; repeat (apply conj);
          vm_compute; reflexivity).
  assert (measures echo_backend (6 + app_ticks (rest s1))) as Hmt
      by (unfold measures, duration; repeat (apply conj);
          vm_compute; reflexivity).
  destruct (analysis_shows_both_results echo_backend bytewise_pdf
              docstore_len analyze_widgets s1 vector tree vidx tidx
              {| response_str := py "What?";
                 response_source_nodes := Some (map NodeWithText vidx) |}
              {| response_str := py "What?";
                 response_source_nodes := Some (map NodeWithText tidx) |}
              eq_refl ltac:(discriminate) eq_refl Hflag Hv Ht Hvi Hti
              eq_refl eq_refl Hmv Hmt)
    as (s' & vector_time & tree_time & difference & Hrun & _ & _ & _ & Hrest).
  exact (ex_intro _ s' (ex_intro _ _ (conj Hrun Hrest))).
Defined.

(* --------------------------------------------------------------------- *)
(** ** [main]: the processing *)
(* --------------------------------------------------------------------- *)

Section Requests.

Context {Docs Index : Type} (B : backend Docs Index) (v : variant).

Lemma same_log_refl (w : world Index) : same_log w w.
Proof. reflexivity. Qed.

Lemma same_log_trans (w1 w2 w3 : world Index) :
  same_log w1 w2 -> same_log w2 w3 -> same_log w1 w3.
Proof. unfold same_log. congruence. Qed.

Lemma same_log_makedirs d : respects same_log (makedirs Index d).
Proof.
  intros w r w' H. unfold makedirs in H.
  repeat case_bool_decide; inversion H; subst; reflexivity.
Qed.

Lemma same_log_write_text p text :
  respects same_log (write_text Index p text).
Proof.
  intros w r w' H. unfold write_text in H.
  case_bool_decide; [ destruct (forallb utf8_encodable text) | ];
    inversion H; subst; reflexivity.
Qed.

Lemma same_log_os_remove p : respects same_log (os_remove Index p).
Proof.
  intros w r w' H. unfold os_remove in H.
  destruct (files (fs w) !! p); inversion H; subst; reflexivity.
Qed.

Lemma same_log_os_rmdir d : respects same_log (os_rmdir Index d).
Proof.
  intros w r w' H. unfold os_rmdir in H.
  repeat case_bool_decide; inversion H; subst; reflexivity.
Qed.

Lemma same_log_save_documents documents :
  forall i doc_files,
    respects same_log (save_documents Index v i documents doc_files).
Proof.
  induction documents as [ | d ds IH]; intros i doc_files; simpl.
  - apply respects_ret, same_log_refl.
  - apply respects_bind;
      [ apply same_log_trans | apply same_log_write_text | intros _; apply IH ].
Qed.

(** The paths that [save_documents] returns. *)
Lemma save_documents_returns documents :
  forall i doc_files w r w',
    save_documents Index v i documents doc_files w = (Return r, w') ->
    r = doc_files ++ map (doc_path v) (seq i (length documents)).
Proof.
  induction documents as [ | d ds IH]; intros i doc_files w r w' H;
    simpl in H.
  - inversion H; subst. simpl. rewrite app_nil_r. reflexivity.
  - apply bind_inv in H as [(e & _ & Hr) | ([] & w1 & _ & H)];
      [ discriminate Hr | ].
    apply IH in H. rewrite H, <- app_assoc. reflexivity.
Qed.

(** What [reader_load_data] asks. *)
Lemma reader_load_data_asks doc_files (w : world Index) docs w' :
  reader_load_data Docs Index B doc_files w = (Return docs, w') ->
  log w' = log w ++ [EvLoadData doc_files].
Proof.
  unfold reader_load_data, bind, get, lift, request. intros H.
  destruct (read_files (fs w) doc_files); inversion H; subst. reflexivity.
Qed.

(** What a [build_index] that returns has asked, and what it has set. *)
Lemma build_index_asks documents (w : world Index) t w' :
  build_index B v documents w = (Return t, w') ->
  log w' = log w ++ build_requests v (length documents)
  /\ exists idx,
      self w' = {| model_name := model_name (self w); index := Some idx;
                   build_time := t |}.
Proof.
  intros Hrun.
  pose proof (build_frame_build_index B v documents w _ _ Hrun)
    as (_ & Hname & _).
  pose proof (build_index_measures B v documents w t w' Hrun)
    as (_ & _ & Hbt & Hinit).
  assert (exists idx,
             self w' = {| model_name := model_name (self w);
                          index := Some idx; build_time := t |}) as Hself.
  { unfold is_initialized in Hinit.
    destruct (self w') as [n [idx | ] bt]; [ | discriminate Hinit ].
    simpl in Hname, Hbt. subst. exists idx. reflexivity. }
  split; [ | exact Hself ]. clear Hname Hbt Hinit Hself.
  unfold build_index in Hrun. rename Hrun into H.
  apply bind_inv in H as [(e & _ & Hr) | (start_time & w0 & Hnow & H)];
    [ discriminate Hr | ].
  unfold now in Hnow. inversion Hnow; subst start_time w0; clear Hnow.
  apply try_except_inv in H as [(t' & H & Ht) | (e1 & w1 & _ & Hh)];
    [ | discriminate Hh ].
  inversion Ht; subst t'; clear Ht.
  apply bind_inv in H as [(e & _ & Hr) | ([] & w1 & H1 & H)];
    [ discriminate Hr | ].
  apply same_log_makedirs in H1.
  apply bind_inv in H as [(e & _ & Hr) | (doc_files & w2 & H2 & H)];
    [ discriminate Hr | ].
  pose proof (save_documents_returns _ _ _ _ _ _ H2) as Hfiles.
  apply same_log_save_documents in H2.
  apply bind_inv in H as [(e & _ & Hr) | (docs & w3 & H3 & H)];
    [ discriminate Hr | ].
  apply reader_load_data_asks in H3.
  apply bind_inv in H as [(e & _ & Hr) | ([] & w4 & H4 & H)];
    [ discriminate Hr | ].
  apply (respects_for_each same_log same_log_refl same_log_trans) in H4;
    [ | apply Forall_forall; intros p _; apply same_log_os_remove ].
  apply bind_inv in H as [(e & _ & Hr) | ([] & w5 & H5 & H)];
    [ discriminate Hr | ].
  apply same_log_os_rmdir in H5.
  apply bind_inv in H as [(e & _ & Hr) | (idx & w6 & H6 & H)];
    [ discriminate Hr | ].
  unfold request in H6. inversion H6 as [[Hans Hw6]]. clear H6.
  unfold same_log in *. simpl in H1.
  unfold bind, modify, now, ret, set_self in H. simpl in H.
  inversion H; subst; clear H. simpl.
  rewrite H5, H4, H3, H2, H1. unfold build_requests, doc_paths.
  rewrite <- app_assoc. reflexivity.
Qed.

End Requests.

Section Processing.

Context {Docs Index : Type} (B : backend Docs Index) (pypdf : pdf_library).

(** What the construction of an engine does. *)
Lemma construct_run (v : variant) (name : pystr) (a : app Index) :
  construct Docs Index B v name a
  = match make_models Docs Index B (app_log a) name with
    | Return _ =>
        (Return {| model_name := name; index := None;
                   build_time := Float.zero |},
         {| session := session a; uploaded_file := uploaded_file a;
            app_fs := app_fs a;
            app_settings :=
              Some {| llm := name;
                      embed_model := py "BAAI/bge-small-en-v1.5";
                      settings_chunk_size := chunk_size v |};
            app_ticks := app_ticks a;
            app_log := app_log a ++ [EvModels name]; shown := shown a |})
    | Raise e =>
        (Raise (py "Failed to initialize LLM/embeddings: " ++ e),
         {| session := session a; uploaded_file := uploaded_file a;
            app_fs := app_fs a; app_settings := app_settings a;
            app_ticks := app_ticks a;
            app_log := app_log a ++ [EvModels name]; shown := shown a |})
    end.
Proof.
  unfold construct. rewrite init_run.
  cbn [log world_of].
  destruct (make_models Docs Index B (app_log a) name); reflexivity.
Qed.

Lemma on_upload_inv {A : Type} (m : M stream A) (a : app Index) r a1 :
  on_upload Index m a = (r, a1) ->
  (m (uploaded_file a)).1 = r
  /\ session a1 = session a /\ app_fs a1 = app_fs a
  /\ app_settings a1 = app_settings a /\ app_ticks a1 = app_ticks a
  /\ app_log a1 = app_log a /\ shown a1 = shown a.
Proof.
  unfold on_upload. destruct (m (uploaded_file a)) as [r0 f].
  intros H. inversion H; subst. repeat split.
Qed.

(** A build of the engine of the session state that returns. *)
Lemma call_build_inv (v : variant) (documents : list pystr)
    (a : app Index) (e : engine Index) t a1 :
  engine_slot v (session a) = Some e ->
  call_engine Index v (py "build_index") (build_index B v documents) a
  = (Return t, a1) ->
  t = Float.sub (clock Docs Index B (S (app_ticks a)))
                (clock Docs Index B (app_ticks a))
  /\ (exists idx,
         session a1
         = set_engine_slot Index v
             {| model_name := model_name e; index := Some idx;
                build_time := t |} (session a))
  /\ uploaded_file a1 = uploaded_file a
  /\ app_settings a1 = app_settings a
  /\ app_ticks a1 = S (S (app_ticks a))
  /\ app_log a1 = app_log a ++ build_requests v (length documents)
  /\ shown a1 = shown a.
Proof.
  intros Hslot H. unfold call_engine in H. rewrite Hslot in H.
  destruct (build_index B v documents (world_of Index e a)) as [r w']
    eqn:Hb.
  inversion H; subst r a1; clear H.
  pose proof (build_frame_build_index B v documents _ _ _ Hb)
    as (Hset & _).
  pose proof (build_index_measures B v documents _ t w' Hb)
    as (Ht & Hticks & _ & _).
  pose proof (build_index_asks B v documents _ t w' Hb)
    as (Hlog & idx & Hself).
  cbn [world_of ticks log settings self] in Ht, Hticks, Hlog, Hset, Hself.
  unfold set_session, with_world.
  cbn [session uploaded_file app_fs app_settings app_ticks app_log shown].
  rewrite Hself.
  split; [ exact Ht | ]. split; [ exists idx; reflexivity | ].
  repeat split; assumption.
Qed.

(** A processing that turns the flag has gone through. *)
Lemma process_document_flag (name : pystr) (a : app Index) r a' :
  process_document B pypdf name a = (r, a') ->
  document_processed (session a) = false ->
  document_processed (session a') = true ->
  let vector_build_time :=
    Float.sub (clock Docs Index B (1 + app_ticks a))
              (clock Docs Index B (app_ticks a)) in
  let tree_build_time :=
    Float.sub (clock Docs Index B (3 + app_ticks a))
              (clock Docs Index B (2 + app_ticks a)) in
  r = Return tt
  /\ exists text vidx tidx,
    (extract_text_from_pdf pypdf FileObject (uploaded_file a)).1 = Return text
    /\ session a'
       = {| document_processed := true;
            vector_engine :=
              Some {| model_name := name; index := Some vidx;
                      build_time := vector_build_time |};
            tree_engine :=
              Some {| model_name := name; index := Some tidx;
                      build_time := tree_build_time |};
            document_text := text |}
    /\ app_settings a'
       = Some {| llm := name; embed_model := py "BAAI/bge-small-en-v1.5";
                 settings_chunk_size := chunk_size Tree |}
    /\ app_ticks a' = (4 + app_ticks a)%nat
    /\ app_log a' = app_log a ++ processing_requests name
    /\ shown a' = shown a ++ processing_shown vector_build_time
                               tree_build_time.
Proof.
  intros H Hbefore Hafter vector_build_time tree_build_time.
  unfold process_document in H.
  apply try_except_inv in H as [(x & H & Hr) | (e & a1 & Hbody & Hh)].
  - apply bind_inv in H as [(e & _ & Hr') | (text & a1 & H1 & H)];
      [ discriminate Hr' | ].
    apply on_upload_inv in H1
      as (Htext & Hs1 & _ & Hset1 & Ht1 & Hl1 & Hsh1).
    apply bind_inv in H as [(e & _ & Hr') | ([] & a2 & H2 & H)];
      [ discriminate Hr' | ].
    unfold modify in H2. inversion H2; subst a2; clear H2.
    apply bind_inv in H as [(e & _ & Hr') | (new_vector & a3 & H3 & H)];
      [ discriminate Hr' | ].
    rewrite construct_run in H3.
    destruct (make_models Docs Index B _ name) as [[] | ];
      [ | discriminate H3 ].
    inversion H3; subst new_vector a3; clear H3.
    apply bind_inv in H as [(e & _ & Hr') | ([] & a4 & H4 & H)];
      [ discriminate Hr' | ].
    unfold modify in H4. inversion H4; subst a4; clear H4.
    apply bind_inv in H as [(e & _ & Hr') | (new_tree & a5 & H5 & H)];
      [ discriminate Hr' | ].
    rewrite construct_run in H5.
    destruct (make_models Docs Index B _ name) as [[] | ];
      [ | discriminate H5 ].
    inversion H5; subst new_tree a5; clear H5.
    apply bind_inv in H as [(e & _ & Hr') | ([] & a6 & H6 & H)];
      [ discriminate Hr' | ].
    unfold modify in H6. inversion H6; subst a6; clear H6.
    apply bind_inv in H as [(e & _ & Hr') | (vt & a7 & H7 & H)];
      [ discriminate Hr' | ].
    apply (call_build_inv Vector [text] _
             {| model_name := name; index := None;
                build_time := Float.zero |}) in H7; [ | reflexivity ].
    destruct H7 as (Hvt & (vidx & Hs7) & _ & Hset7 & Ht7 & Hl7 & Hsh7).
    apply bind_inv in H as [(e & _ & Hr') | ([] & a8 & H8 & H)];
      [ discriminate Hr' | ].
    unfold st, modify in H8. inversion H8; subst a8; clear H8.
    apply bind_inv in H as [(e & _ & Hr') | (tt' & a9 & H9 & H)];
      [ discriminate Hr' | ].
    apply (call_build_inv Tree [text] _
             {| model_name := name; index := None;
                build_time := Float.zero |}) in H9;
      [ | cbn [session engine_slot tree_engine]; rewrite Hs7; reflexivity ].
    destruct H9 as (Htt & (tidx & Hs9) & _ & Hset9 & Ht9 & Hl9 & Hsh9).
    unfold bind, st, modify in H. inversion H; subst a'; clear H.
    cbn [session uploaded_file app_fs app_settings app_ticks app_log shown
         set_session document_processed vector_engine tree_engine
         document_text] in *.
    split; [ destruct x; exact Hr | ].
    exists text, vidx, tidx.
    split; [ exact Htext | ].
    rewrite Hs9, Hs7, Hset9, Hset7, Ht9, Ht7, Hl9, Hl7, Hsh9, Hsh7, Hs1, Ht1,
      Hl1, Hsh1.
    cbn [set_engine_slot document_processed vector_engine tree_engine
         document_text model_name].
    subst vt tt'. rewrite Ht7, Ht1.
    split; [ reflexivity | ]. split; [ reflexivity | ].
    split; [ reflexivity | ].
    unfold processing_requests, processing_shown.
    rewrite <- !app_assoc. split; reflexivity.
  - exfalso.
    assert (document_processed (session a1) = false) as Hflag.
    { set (I0 := fun s : session_state Index => document_processed s = false).
      set (I1 := fun _ : session_state Index => True).
      match type of Hbody with
      | ?body a = _ =>
          assert (hoare (on_session I0) body (fun _ => on_session I1)
                    (fun _ => on_session I0)) as Hkeeps
      end.
      { assert (forall (A : Type) v method_name (method : M (world Index) A),
                   hoare (on_session I0)
                     (call_engine Index v method_name method)
                     (fun _ => on_session I0) (fun _ => on_session I0))
          as Hcall.
        { intros A v method_name method.
          apply (hoare_call_engine I0 v method_name method (fun _ => I0)
                   (fun _ => I0)).
          - intros s Hs _. exact Hs.
          - intros s e0 w r0 w' Hs _ _ _. destruct r0, v; exact Hs. }
        eapply hoare_bind; [ apply hoare_on_upload | intros text_content ].
        eapply hoare_bind;
          [ apply (hoare_set_session I0 I0); intros s Hs; exact Hs
          | intros ? ].
        eapply hoare_bind; [ apply hoare_construct | intros new_vector ].
        eapply hoare_bind;
          [ apply (hoare_set_session I0 I0); intros s Hs; exact Hs
          | intros ? ].
        eapply hoare_bind; [ apply hoare_construct | intros new_tree ].
        eapply hoare_bind;
          [ apply (hoare_set_session I0 I0); intros s Hs; exact Hs
          | intros ? ].
        eapply hoare_bind; [ apply Hcall | intros vector_time ].
        eapply hoare_bind; [ apply hoare_st | intros ? ].
        eapply hoare_bind; [ apply Hcall | intros tree_time ].
        eapply hoare_bind; [ apply hoare_st | intros ? ].
        eapply hoare_bind;
          [ apply (hoare_set_session I0 I1); intros s Hs; exact I
          | intros ? ].
        apply hoare_st. }
      specialize (Hkeeps a Hbefore). rewrite Hbody in Hkeeps.
      exact Hkeeps. }
    unfold bind, st, modify in Hh. inversion Hh; subst a'.
    cbn [session] in Hafter. congruence.
Qed.

End Processing.

(** X25.  The flag turns only after both builds.  When the statements
    under "Process Document" start in a session state that says that no
    document has been processed and leave one that says that a document
    has been processed, they have gone through without an exception: the
    text was extracted from the upload and stored, a Vector and then a
    Tree engine were constructed with the model name, and the index of
    the Vector engine and then that of the Tree engine were built from
    that one text.  The session state holds the two engines with the
    model name, an index and their build times, each the difference of
    two successive clock readings; the clock has been read four times;
    the backend has been asked for the models twice and then, for each
    engine in turn, to load the file [doc_0.txt] of its temporary
    directory and to build its index; the global settings are those of
    the Tree engine, constructed last; and three successes and no error
    have been shown. *)
Theorem flag_turns_after_both_builds {Docs Index : Type}
    (B : backend Docs Index) (pypdf : pdf_library) (name : pystr)
    (a : app Index) :
  let a' := (process_document B pypdf name a).2 in
  let vector_build_time :=
    Float.sub (clock Docs Index B (1 + app_ticks a))
              (clock Docs Index B (app_ticks a)) in
  let tree_build_time :=
    Float.sub (clock Docs Index B (3 + app_ticks a))
              (clock Docs Index B (2 + app_ticks a)) in
  document_processed (session a) = false ->
  document_processed (session a') = true ->
  (process_document B pypdf name a).1 = Return tt
  /\ exists text vidx tidx,
    (extract_text_from_pdf pypdf FileObject (uploaded_file a)).1 = Return text
    /\ session a'
       = {| document_processed := true;
            vector_engine :=
              Some {| model_name := name; index := Some vidx;
                      build_time := vector_build_time |};
            tree_engine :=
              Some {| model_name := name; index := Some tidx;
                      build_time := tree_build_time |};
            document_text := text |}
    /\ app_settings a'
       = Some {| llm := name; embed_model := py "BAAI/bge-small-en-v1.5";
                 settings_chunk_size := chunk_size Tree |}
    /\ app_ticks a' = (4 + app_ticks a)%nat
    /\ app_log a' = app_log a ++ processing_requests name
    /\ shown a' = shown a ++ processing_shown vector_build_time
                               tree_build_time.
Proof.
  intros a' vector_build_time tree_build_time Hbefore Hafter.
  destruct (process_document B pypdf name a) as [r a1] eqn:Hrun.
  exact (process_document_flag B pypdf name a r a1 Hrun Hbefore Hafter).
Qed.

(** X25, witness: the first processing of a file of five bytes over the
    echo backend. *)
Lemma flag_turns_after_both_builds_witness :
  let a : app (list pystr) := rest (initial_app five_bytes) in
  let a' := (process_document echo_backend bytewise_pdf (py "llama3.1") a).2 in
  app_ticks a' = 4%nat
  /\ app_log a' = processing_requests (py "llama3.1").
Proof.
  intros a a'.
  assert (document_processed (session a') = true) as Hafter
      by (vm_compute; reflexivity).
  destruct (flag_turns_after_both_builds echo_backend bytewise_pdf
              (py "llama3.1") a eq_refl Hafter)
    as (_ & text & vidx & tidx & _ & _ & _ & Hticks & Hlog & _).
  exact (conj Hticks Hlog).
Defined.

(** X26.  Before a document is processed the run ends at the request to
    upload.  In a run without upload, in a session state that says that
    no document has been processed, [main] shows "Please upload a PDF
    document and click 'Process Document' to get started" and nothing
    else, whatever the query typed and whether or not "Analyze Document"
    is clicked: no statistics are shown, no engine is called, the
    backend is not asked and the clock is not read. *)
Theorem unprocessed_run_asks_for_upload {Docs Index : Type}
    (B : backend Docs Index) (pypdf : pdf_library)
    (docstore_len : Index -> outcome Z) (i : widgets)
    (s : tracking (app Index)) :
  has_upload i = false ->
  document_processed (session (rest s)) = false ->
  main B pypdf docstore_len i s
  = (Return tt, and_shown [StInfo please_upload] s).
Proof.
  intros Hup Hflag. destruct s as [d n a]. unfold and_shown.
  simpl in Hflag |- *. unfold main.
  rewrite (bind_returns _ _ _ _ _
             (in_app_returns _ d n a a true
                (sidebar_no_upload B pypdf i a Hup))).
  cbn [negb].
  rewrite (bind_returns get _ _ _ _ eq_refl). cbn [rest]. rewrite Hflag.
  rewrite (bind_returns (ret tt) _ _ _ _ eq_refl).
  rewrite (bind_returns get _ _ _ _ eq_refl). cbn [rest]. rewrite Hflag.
  cbn [negb]. reflexivity.
Qed.

(** X26, witness: the first run, without upload, in which a query is
    typed and "Analyze Document" is clicked. *)
Lemma unprocessed_run_asks_for_upload_witness :
  let docstore_len := fun idx : list pystr => Return (Z.of_nat (length idx)) in
  main echo_backend bytewise_pdf docstore_len analyze_widgets
    (initial_app five_bytes)
  = (Return tt, and_shown [StInfo please_upload] (initial_app five_bytes)).
Proof.
  intros docstore_len.
  exact (unprocessed_run_asks_for_upload echo_backend bytewise_pdf
           docstore_len analyze_widgets (initial_app five_bytes)
           eq_refl eq_refl).
Defined.
